(** * NHL-Projections: rolling features, model tables, trainer, projector

    A shallow embedding of the pandas pipeline of the repository
    (scripts 01, 04, 05, 06, 07 and [nhlproj/common.py]) together with the
    properties stated about it.

    Conventions of the embedding.
    - A pandas cell is a [cell]: a missing value ([NA], standing for NaN,
      None, NaT and <NA>), a number, a string or a calendar date.
    - float64 columns are idealised by exact rationals ([Qc], the canonical
      rationals, so that equal numbers are equal terms); rounding is not
      modelled.
    - A table is row-major: the ordered list of column labels and the list of
      rows, each row a finite map from column label to cell.  A label absent
      from a row reads as [NA].
    - Infinite floats are kept ([Inf]) because the division guard of
      [per60] exists to avoid them.
    - Library functions whose result the pipeline treats as opaque (number
      and date parsing and printing, model fitting and prediction) are
      parameters: the fields of [Lib], or section variables. *)

From Stdlib Require Import QArith Qcanon Ascii Lqa.
From stdpp Require Import gmap strings list numbers sorting pretty.

Local Open Scope string_scope.
Local Open Scope list_scope.
Local Open Scope nat_scope.

(** ** A small model of pandas tables *)

Module Pandas.

Inductive cell :=
  | NA
  | Num (q : Qc)
  | Inf (neg : bool)
  | Str (s : string)
  | Date (d : Z).

#[global] Instance cell_eq_dec : EqDecision cell.
Proof. solve_decision. Defined.

#[global] Instance cell_inhabited : Inhabited cell := populate NA.

Definition isna (c : cell) : bool :=
  match c with NA => true | _ => false end.

Abbreviation row := (gmap string cell).

(** [df[c]] read at one row. *)
Definition get (r : row) (c : string) : cell := default NA (r !! c).

Record DataFrame := mkDF { columns : list string; rows : list row }.

(** [c in df.columns] *)
Definition has_col (df : DataFrame) (c : string) : bool :=
  bool_decide (c ∈ columns df).

(** [df[c] = vals]: an existing column is overwritten in place, a new one is
    appended after the existing labels. *)
Definition set_column (c : string) (vals : list cell) (df : DataFrame) : DataFrame :=
  {| columns := if has_col df c then columns df else columns df ++ [c];
     rows := zip_with (fun r v => <[c := v]> r) (rows df) vals |}.

(** [df[c] = f(df[...])] computed row by row. *)
Definition map_column (c : string) (f : row → cell) (df : DataFrame) : DataFrame :=
  set_column c (f <$> rows df) df.

(** [len(df)] *)
Definition nrows (df : DataFrame) : nat := length (rows df).

(** *** Strings: [str.strip], [str.lower], [str.isdigit]

    A Python [str] is modelled by a [string] with one [ascii] per character,
    the character being its code point; text is thereby restricted to code
    points below 256.  On these, [str.isspace] holds of the code points 9 to
    13, 28 to 32, 133 (U+0085) and 160 (U+00A0); [str.isdigit] of the ten
    decimal digits and of the superscripts U+00B2, U+00B3 and U+00B9; and
    [str.lower] moves A to Z and the capital letters U+00C0 to U+00DE
    (U+00D7, the multiplication sign, apart) 32 places up. *)

Definition is_space (a : ascii) : bool :=
  let n := nat_of_ascii a in
  ((9 <=? n) && (n <=? 13) || (28 <=? n) && (n <=? 32)
   || (n =? 133) || (n =? 160))%nat.

Fixpoint lstrip (s : string) : string :=
  match s with
  | EmptyString => EmptyString
  | String a s' => if is_space a then lstrip s' else s
  end.

Fixpoint rev_string (acc s : string) : string :=
  match s with
  | EmptyString => acc
  | String a s' => rev_string (String a acc) s'
  end.

Definition rstrip (s : string) : string :=
  rev_string "" (lstrip (rev_string "" s)).

Definition strip (s : string) : string := rstrip (lstrip s).

Definition lower_ascii (a : ascii) : ascii :=
  let n := nat_of_ascii a in
  if ((65 <=? n) && (n <=? 90)
      || (192 <=? n) && (n <=? 222) && negb (n =? 215))%nat
  then ascii_of_nat (n + 32) else a.

Fixpoint lower (s : string) : string :=
  match s with
  | EmptyString => EmptyString
  | String a s' => String (lower_ascii a) (lower s')
  end.

Definition is_digit (a : ascii) : bool :=
  let n := nat_of_ascii a in
  ((48 <=? n) && (n <=? 57) || (n =? 178) || (n =? 179) || (n =? 185))%nat.

Fixpoint all_digits (s : string) : bool :=
  match s with
  | EmptyString => true
  | String a s' => is_digit a && all_digits s'
  end.

(** [s.isdigit()] is false on the empty string. *)
Definition isdigit (s : string) : bool :=
  match s with EmptyString => false | _ => all_digits s end.

(** [s.startswith(p)] *)
Fixpoint startswith (p s : string) : bool :=
  match p, s with
  | EmptyString, _ => true
  | String a p', String b s' => bool_decide (a = b) && startswith p' s'
  | String _ _, EmptyString => false
  end.

(** [Series.replace(d)] with a dict: whole-value replacement. *)
Definition replace (d : gmap string string) (s : string) : string :=
  default s (d !! s).


(** *** Errors that reach the caller *)

Inductive result (A : Type) :=
  | Ok (a : A)
  | KeyError (label : string)
  | RuntimeError (msg : string)
  | TypeError (msg : string)
  | ValueError (msg : string).
Arguments Ok {A} a.
Arguments KeyError {A} label.
Arguments RuntimeError {A} msg.
Arguments TypeError {A} msg.
Arguments ValueError {A} msg.

#[global] Instance result_bind : MBind result := λ A B f x,
  match x with
  | Ok a => f a
  | KeyError c => KeyError c
  | RuntimeError m => RuntimeError m
  | TypeError m => TypeError m
  | ValueError m => ValueError m
  end.

Definition is_ok {A} (x : result A) : bool :=
  match x with Ok _ => true | _ => false end.

(** The first label of [cs] that is not a column of [df]: what
    [df[cs]], [sort_values(cs)] and [merge(on=cs)] report in their KeyError. *)
Fixpoint missing_col (df : DataFrame) (cs : list string) : option string :=
  match cs with
  | [] => None
  | c :: cs' => if has_col df c then missing_col df cs' else Some c
  end.

(** [df[cs]] with a list of labels. *)
Definition select_columns (cs : list string) (df : DataFrame) : result DataFrame :=
  match missing_col df cs with
  | Some c => KeyError c
  | None =>
      Ok {| columns := cs;
            rows := (fun r => filter (fun kv => kv.1 ∈ cs) r) <$> rows df |}
  end.

(** [df.rename(columns={old: new})] *)
Definition rename_column (old new : string) (df : DataFrame) : DataFrame :=
  if bool_decide (old = new) then df
  else
    {| columns := (fun c => if bool_decide (c = old) then new else c) <$> columns df;
       rows := (fun r => match r !! old with
                         | Some v => <[new := v]> (delete old r)
                         | None => r
                         end) <$> rows df |}.

(** *** Library behaviour left open *)

Record Lib := {
  (** [str(x)] of a missing value, a number, an infinity, a date *)
  str_na : string;
  str_num : Qc → string;
  str_inf : bool → string;
  str_date : Z → string;
  (** the float a string parses to under [pd.to_numeric(errors="coerce")] *)
  parse_number : string → cell;
  (** [pd.to_datetime(s, format="%Y%m%d", errors="coerce")] and
      [pd.to_datetime(s, errors="coerce")] *)
  to_datetime_ymd : string → cell;
  to_datetime : string → cell;
}.

(** [Series.astype(str)] at one cell. *)
Definition astype_str (L : Lib) (x : cell) : string :=
  match x with
  | NA => str_na L
  | Num q => str_num L q
  | Inf b => str_inf L b
  | Str s => s
  | Date d => str_date L d
  end.

Definition is_float (x : cell) : bool :=
  match x with NA | Num _ | Inf _ => true | _ => false end.

(** [pd.to_numeric(col, errors="coerce")] at one cell: numbers stay, strings
    are parsed (a string that is no number becomes NaN), a date becomes its
    count of nanoseconds. *)
Definition to_numeric (L : Lib) (x : cell) : cell :=
  match x with
  | NA => NA
  | Num q => Num q
  | Inf b => Inf b
  | Str s => let y := parse_number L s in if is_float y then y else NA
  | Date d => Num (Qc_of_Z (d * 86400000000000))
  end.

(** *** float64 arithmetic, idealised: exact on finite values, IEEE on
    infinities and NaN; signed zeros are not distinguished *)

Definition Qc_neg (x : Qc) : bool := bool_decide (x < 0)%Qc.

Definition fadd (a b : cell) : cell :=
  match a, b with
  | Num x, Num y => Num (x + y)
  | Inf n, Num _ | Num _, Inf n => Inf n
  | Inf n, Inf m => if bool_decide (n = m) then Inf n else NA
  | _, _ => NA
  end.

Definition fmul (a b : cell) : cell :=
  match a, b with
  | Num x, Num y => Num (x * y)
  | Inf n, Num x | Num x, Inf n =>
      if bool_decide (x = 0%Qc) then NA else Inf (xorb n (Qc_neg x))
  | Inf n, Inf m => Inf (xorb n m)
  | _, _ => NA
  end.

Definition fdiv (a b : cell) : cell :=
  match a, b with
  | Num x, Num y =>
      if bool_decide (y = 0%Qc)
      then (if bool_decide (x = 0%Qc) then NA else Inf (Qc_neg x))
      else Num (x / y)
  | Num _, Inf _ => Num 0%Qc
  | Inf n, Num y => Inf (xorb n (Qc_neg y))
  | _, _ => NA
  end.

Definition fsub (a b : cell) : cell :=
  fadd a (fmul (Num (-1)%Qc) b).

(** [Series.replace(0, np.nan)] at one cell. *)
Definition replace_zero_nan (x : cell) : cell :=
  match x with
  | Num q => if bool_decide (q = 0%Qc) then NA else x
  | _ => x
  end.

(** The mean pandas takes over a window: missing values are skipped, and the
    result is missing when fewer than [min_periods = 1] values remain. *)
Definition fsum (l : list cell) : cell := foldr fadd (Num 0%Qc) l.

Definition nanmean (l : list cell) : cell :=
  let v := filter (fun x => isna x = false) l in
  match v with
  | [] => NA
  | _ => fdiv (fsum v) (Num (Qc_of_Z (Z.of_nat (length v))))
  end.

(** [x.shift(1)]: every value moves one place down, the first place is
    missing, the last value falls off. *)
Definition shift1 (x : list cell) : list cell := take (length x) (NA :: x).

(** The window of [rolling(w)] that ends at place [i]: places [i-w+1 .. i],
    cut at the start of the series. *)
Definition window (w i : nat) (x : list cell) : list cell :=
  take (min w (S i)) (drop (S i - w) x).

(** Rolling windows work on floats in which an infinite value has been
    replaced by a missing one ([_prep_values]: [np.where(inf, np.nan, values)]). *)
Definition inf_to_nan (x : cell) : cell :=
  match x with
  | Inf _ => NA
  | _ => x
  end.

Definition prep_values (x : list cell) : list cell := inf_to_nan <$> x.

(** [x.rolling(w, min_periods=1).mean()] *)
Definition rolling_mean (w : nat) (x : list cell) : list cell :=
  let values := prep_values x in
  imap (fun i _ => nanmean (window w i values)) values.

(** *** Ordering of cells and rows, [sort_values] *)

(** Columns of one dtype only compare cells of one kind.  Across kinds the
    order is fixed by kind so that comparison stays total; missing values
    come last in every column ([na_position="last"]). *)
Definition kind (x : cell) : nat :=
  match x with
  | Inf true => 0 | Num _ => 1 | Inf false => 2
  | Str _ => 3 | Date _ => 4 | NA => 5
  end.

Definition cell_le (a b : cell) : Prop :=
  match a, b with
  | Num x, Num y => (x ≤ y)%Qc
  | Str s, Str t => String.le s t
  | Date d, Date e => (d ≤ e)%Z
  | _, _ => (kind a ≤ kind b)%nat
  end.

#[global] Instance cell_le_dec : RelDecision cell_le.
Proof. intros [] []; simpl; apply _. Defined.

(** The values of the labels [by] at a row. *)
Definition key (by_ : list string) (r : row) : list cell := get r <$> by_.

Fixpoint lex_le (k1 k2 : list cell) : Prop :=
  match k1, k2 with
  | [], _ => True
  | _ :: _, [] => False
  | a :: k1', b :: k2' => cell_le a b ∧ (a = b → lex_le k1' k2')
  end.

#[global] Instance lex_le_dec : RelDecision lex_le.
Proof.
  intros k1. induction k1 as [|a k1 IH]; intros [|b k2]; simpl; apply _.
Defined.

Definition row_le (by_ : list string) (r1 r2 : row) : Prop :=
  lex_le (key by_ r1) (key by_ r2).

#[global] Instance row_le_dec by_ : RelDecision (row_le by_).
Proof. intros r1 r2. unfold row_le. apply _. Defined.

(** Insertion before the first row that is not smaller: rows with equal keys
    keep their input order, as the stable lexsort of a multi-column
    [sort_values] does. *)
Fixpoint insert_row (by_ : list string) (x : row) (l : list row) : list row :=
  match l with
  | [] => [x]
  | y :: l' => if decide (row_le by_ x y) then x :: y :: l'
               else y :: insert_row by_ x l'
  end.

Definition sort_rows (by_ : list string) (l : list row) : list row :=
  foldr (insert_row by_) [] l.

(** [df.sort_values(by)] *)
Definition sort_values (by_ : list string) (df : DataFrame) : result DataFrame :=
  match missing_col df by_ with
  | Some c => KeyError c
  | None => Ok {| columns := columns df; rows := sort_rows by_ (rows df) |}
  end.

(** *** [groupby(...)[c].apply(f)] followed by index alignment *)

(** The rows of [t] in the group of [r]. *)
Definition group_rows (gcols : list string) (t : list row) (r : row) : list row :=
  filter (fun r' => key gcols r' = key gcols r) t.

(** The place of row number [i] inside its group. *)
Definition rank_in_group (gcols : list string) (t : list row) (i : nat) (r : row) : nat :=
  length (group_rows gcols (take i t) r).

(** [df.groupby(gcols, sort=False)[c].apply(f)] put back on the rows of [df]
    by index ([reset_index(level=gcols, drop=True)] and column assignment):
    each group's series goes through [f] as a whole and every row reads the
    entry at its own place.  Rows with a missing group key belong to no
    group ([dropna=True]) and read NaN. *)
Definition groupby_apply (gcols : list string) (c : string)
    (f : list cell → list cell) (t : list row) : list cell :=
  imap (fun i r =>
          if existsb isna (key gcols r) then NA
          else
            let series := (fun r' => get r' c) <$> group_rows gcols t r in
            default NA (f series !! rank_in_group gcols t i r)) t.

(** *** [drop], [dropna], [merge(how="left")] *)

(** [df.drop(columns=[c])] for a label that is present. *)
Definition drop_column (c : string) (df : DataFrame) : DataFrame :=
  {| columns := filter (fun c' => c' ≠ c) (columns df);
     rows := delete c <$> rows df |}.

(** [df.dropna(subset=[c])] *)
Definition dropna (c : string) (df : DataFrame) : result DataFrame :=
  if has_col df c
  then Ok {| columns := columns df;
             rows := filter (fun r => isna (get r c) = false) (rows df) |}
  else KeyError c.

(** The rows of [right] whose [right_on] key equals the [left_on] key of
    [l]; pandas matches a missing key with a missing key. *)
Definition matches (left_on right_on : list string) (right : list row) (l : row) : list row :=
  filter (fun r => key right_on r = key left_on l) right.

(** [left.merge(right, left_on=..., right_on=..., how="left")]: the left rows
    in order, each once per matching right row, or once with the right
    columns missing when nothing matches.  Labels that both tables carry
    outside the keys would be suffixed [_x]/[_y] by pandas; the tables this
    pipeline merges never share such a label, and here the left value wins. *)
Definition merge_left (left_on right_on : list string) (left right : DataFrame)
    : result DataFrame :=
  match missing_col left left_on, missing_col right right_on with
  | Some c, _ => KeyError c
  | None, Some c => KeyError c
  | None, None =>
      Ok {| columns := columns left
                       ++ filter (fun c => c ∉ columns left) (columns right);
            rows := l ← rows left;
                    match matches left_on right_on (rows right) l with
                    | [] => [l]
                    | ms => (fun r => l ∪ r) <$> ms
                    end |}
  end.

(** *** [np.nanmedian], comparison with a scalar, more of [str] *)

(** [np.nanmedian(x)]: the middle one of the values present, taken in
    increasing order, or the mean of the two middle ones when their number
    is even; NaN when no value is present. *)
Definition nanmedian (x : list cell) : cell :=
  let v := merge_sort cell_le (filter (fun c => isna c = false) x) in
  let n := length v in
  match n with
  | 0 => NA
  | _ => if Nat.odd n then default NA (v !! (n / 2))
         else fdiv (fadd (default NA (v !! (n / 2 - 1))) (default NA (v !! (n / 2))))
                (Num (Qc_of_Z 2))
  end.

(** [x >= n] and [x <= n] at one cell of a numeric column; a missing value
    compares false. *)
Definition ge_scalar (x : cell) (n : Z) : bool :=
  match x with
  | Num q => bool_decide (Qc_of_Z n ≤ q)%Qc
  | Inf neg => negb neg
  | _ => false
  end.

Definition le_scalar (x : cell) (n : Z) : bool :=
  match x with
  | Num q => bool_decide (q ≤ Qc_of_Z n)%Qc
  | Inf neg => neg
  | _ => false
  end.

(** [df[(df[c] >= lo) & (df[c] <= hi)]], which is also
    [df[df[c].between(lo, hi)]]: comparing text or a date with an integer
    raises TypeError. *)
Definition filter_between (c : string) (lo hi : Z) (df : DataFrame) : result DataFrame :=
  if negb (has_col df c) then KeyError c
  else if forallb (fun r => is_float (get r c)) (rows df)
  then Ok {| columns := columns df;
             rows := filter (fun r => ge_scalar (get r c) lo && le_scalar (get r c) hi = true)
                       (rows df) |}
  else TypeError "'>=' not supported between instances of 'str' and 'int'".

(** [s.endswith(suffix)] *)
Definition endswith (suffix s : string) : bool :=
  startswith (rev_string "" suffix) (rev_string "" s).

(** [s.replace(old, new)] for a non-empty [old]: the occurrences of [old]
    met from left to right, without overlap, are replaced.  [skip] counts the
    characters of the occurrence just met that are still to be passed over. *)
Fixpoint replace_from (old new : string) (skip : nat) (s : string) : string :=
  match s with
  | EmptyString => EmptyString
  | String a s' =>
      match skip with
      | S k => replace_from old new k s'
      | O => if startswith old s
             then new +:+ replace_from old new (String.length old - 1) s'
             else String a (replace_from old new 0 s')
      end
  end.

Definition str_replace (old new s : string) : string := replace_from old new 0 s.

(** [os.path.join(a, *p)] on POSIX: a component that starts with a slash
    starts the path anew. *)
Definition path_join2 (path b : string) : string :=
  if startswith "/" b then b
  else if bool_decide (path = "") || endswith "/" path then path +:+ b
  else path +:+ "/" +:+ b.

Definition path_join (a : string) (p : list string) : string := foldl path_join2 a p.

End Pandas.

Export Pandas.

(** ** nhlproj/common.py *)

Module common.

(** [TEAM_MAP = {"LA": "LAK", "NJ": "NJD", "SJ": "SJS", "TB": "TBL", "WAS": "WSH"}] *)
Definition TEAM_MAP : gmap string string :=
  list_to_map
    [("LA", "LAK"); ("NJ", "NJD"); ("SJ", "SJS"); ("TB", "TBL"); ("WAS", "WSH")].

(** [first_existing_col(df, candidates)]: the first candidate that labels a
    column of [df], [None] when there is none. *)
Fixpoint first_existing_col (df : DataFrame) (candidates : list string) : option string :=
  match candidates with
  | [] => None
  | c :: cs => if has_col df c then Some c else first_existing_col df cs
  end.

(** Python's [if c:] on the result of a lookup: [None] and the empty label
    are both false. *)
Definition truthy (c : option string) : option string :=
  match c with
  | Some s => if bool_decide (s = "") then None else Some s
  | None => None
  end.

(** [if target not in df.columns:
       c = first_existing_col(df, cands)
       if c: df[target] = df[c]] *)
Definition alias_column (target : string) (cands : list string) (df : DataFrame) : DataFrame :=
  if has_col df target then df
  else match truthy (first_existing_col df cands) with
       | Some c => map_column target (fun r => get r c) df
       | None => df
       end.

(** [parse_game_date(s)] *)
Definition parse_game_date (L : Lib) (x : cell) : cell :=
  if isna x then NA
  else
    let s := strip (astype_str L x) in
    if isdigit s && bool_decide (String.length s = 8)
    then to_datetime_ymd L s
    else to_datetime L s.

(** [standardize_team_game_cols(df)], in two parts: the aliases of [team],
    [team_opp], [gameId], [gameDate] and [home_or_away], then the default of
    [situation]. *)
Definition standardize_aliases (L : Lib) (df : DataFrame) : DataFrame :=
  let df := alias_column "team" ["playerTeam"; "teamAbbrev"; "teamCode"] df in
  let df := alias_column "team_opp"
              ["opposingTeam"; "opponentTeam"; "oppTeam"; "opponent"] df in
  let df := alias_column "gameId" ["game_id"; "gamePk"; "id"] df in
  let df :=
    if has_col df "gameDate"
    then map_column "gameDate" (fun r => parse_game_date L (get r "gameDate")) df
    else match truthy (first_existing_col df ["date"]) with
         | Some c => map_column "gameDate" (fun r => parse_game_date L (get r c)) df
         | None => df
         end in
  alias_column "home_or_away" ["homeOrAway"; "homeAway"] df.

Definition standardize_team_game_cols (L : Lib) (df : DataFrame) : DataFrame :=
  let df := standardize_aliases L df in
  if has_col df "situation" then df
  else map_column "situation" (fun _ => Str "all") df.

(** [strip_and_dedup_columns(df, label)]: labels are stripped and, of the
    columns that then share a label, the first is kept.  [first_labels]
    pairs each kept label with the column it comes from. *)
Fixpoint first_labels (seen : list string) (cols : list string) : list (string * string) :=
  match cols with
  | [] => []
  | c :: cs =>
      let c' := strip c in
      if bool_decide (c' ∈ seen) then first_labels seen cs
      else (c', c) :: first_labels (c' :: seen) cs
  end.

Definition strip_and_dedup_columns (df : DataFrame) : result DataFrame :=
  let m := first_labels [] (columns df) in
  let out :=
    {| columns := m.*1;
       rows := (fun r => list_to_map ((fun p => (p.1, get r p.2)) <$> m)) <$> rows df |} in
  if bool_decide (NoDup (columns out)) then Ok out
  else RuntimeError "still has duplicate columns after dedupe.".

(** [current_nhl_season_start(today)], from the year and the month of
    [today]. *)
Definition current_nhl_season_start (year month : Z) : Z :=
  if (7 <=? month)%Z then year else (year - 1)%Z.

(** [ensure_minutes(x)]: a column whose median is finite and above 200 is
    taken to be in seconds. *)
Definition ensure_minutes (L : Lib) (x : list cell) : list cell :=
  let x := to_numeric L <$> x in
  let med := match x with [] => NA | _ => nanmedian x end in
  match med with
  | Num m => if bool_decide (Qc_of_Z 200 < m)%Qc
             then (fun v => fdiv v (Num (Qc_of_Z 60))) <$> x
             else x
  | _ => x
  end.

(** *** Downloads

    The outside world of [download_with_retries]: the files on disk, the
    requests sent so far and the pauses taken.  The file system is taken to
    accept every write. *)
Record world := mkWorld {
  disk : gmap string string;
  requests : list string;
  slept : list Qc;
}.

(** How a call ends: it returns, it raises the exception of its last
    request, or it executes [raise None], which is a TypeError. *)
Inductive outcome :=
  | Returned (b : bool)
  | Raised (err : string)
  | RaisedNone.

Section Download.

(** [http_get(url)]: what the request returns, or the exception it raises,
    when it is request number [n] of the run. *)
Variable http_get : nat → string → string + string.

(** The loop [for i in range(max_tries)], from pass [i] on with [tries]
    passes left. *)
Fixpoint try_download (url out_path : string) (backoff sleep_s : Qc)
    (tries i : nat) (last_err : option string) (w : world) : outcome * world :=
  match tries with
  | O => (match last_err with Some e => Raised e | None => RaisedNone end, w)
  | S tries' =>
      let sent := requests w ++ [url] in
      match http_get (length (requests w)) url with
      | inl content =>
          (Returned true,
           {| disk := <[out_path := content]> (disk w);
              requests := sent;
              slept := slept w ++ [sleep_s] |})
      | inr e =>
          try_download url out_path backoff sleep_s tries' (S i) (Some e)
            {| disk := disk w; requests := sent;
               slept := slept w ++ [(backoff ^ i)%Qc] |}
      end
  end.

(** [os.path.exists(p) and os.path.getsize(p) > 0] *)
Definition nonempty_file (w : world) (p : string) : bool :=
  match disk w !! p with
  | Some content => negb (bool_decide (content = ""))
  | None => false
  end.

(** [download_with_retries(url, out_path, max_tries, force, backoff, sleep_s)] *)
Definition download_with_retries (url out_path : string) (max_tries : nat)
    (force : bool) (backoff sleep_s : Qc) (w : world) : outcome * world :=
  if negb force && nonempty_file w out_path then (Returned false, w)
  else try_download url out_path backoff sleep_s max_tries 0 None w.

End Download.

End common.

(** ** scripts/01_moneypuck_scrape.py: loading the raw tables *)

Module moneypuck_scrape.
Import common.

(** [pd.concat(dfs, ignore_index=True)]: the rows in order, the union of the
    labels in order of first appearance; an empty list of tables is refused. *)
Definition concat (dfs : list DataFrame) : result DataFrame :=
  match dfs with
  | [] => ValueError "No objects to concatenate"
  | _ => Ok {| columns := reverse (remove_dups (reverse (mjoin (columns <$> dfs))));
               rows := mjoin (rows <$> dfs) |}
  end.

(** [df[df["situation"].astype(str).str.lower().eq("all")]] *)
Definition situation_is_all (L : Lib) (r : row) : bool :=
  bool_decide (lower (astype_str L (get r "situation")) = "all").

Definition filter_situation_all (L : Lib) (df : DataFrame) : result DataFrame :=
  if has_col df "situation"
  then Ok {| columns := columns df;
             rows := filter (fun r => situation_is_all L r = true) (rows df) |}
  else KeyError "situation".

(** The part of [load_team_player_gbg] that the files go through:
    standardise every file, concatenate, keep the all-situations rows.
    (The season filter and the second date parse in between do not touch
    the situation column and are left out.) *)
Definition load_standardized (L : Lib) (files : list DataFrame) : result DataFrame :=
  all_df ← concat (standardize_team_game_cols L <$> files);
  filter_situation_all L all_df.

(** *** Addresses and paths *)

Definition MP_BASE : string := "https://moneypuck.com/moneypuck/playerData".

(** [season_summary_url(season, season_type, entity)] *)
Definition season_summary_url (season : Z) (season_type entity : string) : string :=
  MP_BASE +:+ "/seasonSummary/" +:+ pretty season +:+ "/" +:+ season_type
  +:+ "/" +:+ entity +:+ ".csv".

(** [team_player_gbg_index(season, season_type, kind)] *)
Definition team_player_gbg_index (season : Z) (season_type kind : string) : string :=
  MP_BASE +:+ "/teamPlayerGameByGame/" +:+ pretty season +:+ "/" +:+ season_type
  +:+ "/" +:+ kind +:+ "/".

(** [team_player_gbg_file_url(season, season_type, kind, team_code)] *)
Definition team_player_gbg_file_url (season : Z) (season_type kind team_code : string)
    : string :=
  team_player_gbg_index season season_type kind +:+ team_code +:+ ".csv".

(** The address [scrape_team_player_gbg] asks for the listed file [f]:
    [team_player_gbg_file_url(..., f.replace(".csv", ""))]. *)
Definition listed_file_url (season : Z) (season_type kind f : string) : string :=
  team_player_gbg_file_url season season_type kind (str_replace ".csv" "" f).

(** [scrape_season_summaries(season, season_type, raw_dir, end_season)]: the
    four summaries in order; an exception ends the loop. *)
Definition summary_path (raw_dir : string) (season : Z) (season_type entity : string)
    : string :=
  path_join raw_dir ["seasonSummary"; pretty season; season_type; entity +:+ ".csv"].

Fixpoint scrape_entities (http_get : nat → string → string + string)
    (season : Z) (season_type raw_dir : string) (end_season : Z)
    (entities : list string) (w : world) : outcome * world :=
  match entities with
  | [] => (Returned true, w)
  | entity :: rest =>
      let url := season_summary_url season season_type entity in
      let path := summary_path raw_dir season season_type entity in
      let force := bool_decide (season = end_season) in
      match download_with_retries http_get url path 6 force (Qc_of_Z 2)
              (Q2Qc (15 # 100)) w with
      | (Returned _, w') =>
          scrape_entities http_get season season_type raw_dir end_season rest w'
      | (raised, w') => (raised, w')
      end
  end.

Definition scrape_season_summaries (http_get : nat → string → string + string)
    (season : Z) (season_type raw_dir : string) (end_season : Z) (w : world)
    : outcome * world :=
  scrape_entities http_get season season_type raw_dir end_season
    ["skaters"; "goalies"; "lines"; "teams"] w.

(** *** The two loaders in full *)

(** A traversal in order that stops at the first error. *)
Fixpoint collect {A B} (f : A → result B) (l : list A) : result (list B) :=
  match l with
  | [] => Ok []
  | a :: l' => b ← f a; bs ← collect f l'; Ok (b :: bs)
  end.

(** [if "team" not in df.columns or df["team"].isna().all():
       df["team"] = fn.replace(".csv", "")] *)
Definition with_file_team (fn : string) (df : DataFrame) : DataFrame :=
  if negb (has_col df "team") || forallb (fun r => isna (get r "team")) (rows df)
  then map_column "team" (fun _ => Str (str_replace ".csv" "" fn)) df
  else df.

(** [df["gameDate"] = df["gameDate"].map(parse_game_date)] *)
Definition reparse_game_date (L : Lib) (df : DataFrame) : result DataFrame :=
  if has_col df "gameDate"
  then Ok (map_column "gameDate" (fun r => parse_game_date L (get r "gameDate")) df)
  else KeyError "gameDate".

(** [load_all_team_gbg_raw(raw_dir, season_type, start_season, end_season)]
    on the listing [folder] of the directory: file names with the tables
    [pd.read_csv] reads from them. *)
Definition load_all_team_gbg_raw (L : Lib) (folder : list (string * DataFrame))
    (start_season end_season : Z) : result DataFrame :=
  let csvs := filter (fun f => endswith ".csv" f.1 = true) folder in
  let dfs := (fun f => with_file_team f.1 (standardize_team_game_cols L f.2)) <$> csvs in
  all_df ← concat dfs;
  all_df ← (if has_col all_df "season"
            then filter_between "season" start_season end_season all_df
            else Ok all_df);
  all_df ← filter_situation_all L all_df;
  reparse_game_date L all_df.

(** [range(a, b + 1)] *)
Definition season_range (a b : Z) : list Z :=
  (fun i => (a + Z.of_nat i)%Z) <$> seq 0 (Z.to_nat (b + 1 - a)).

(** The body of the inner loop of [load_team_player_gbg] for one file of the
    folder of [season]. *)
Definition load_player_file (L : Lib) (start_season end_season season : Z)
    (df : DataFrame) : result DataFrame :=
  let df := standardize_team_game_cols L df in
  let df := if has_col df "season" then df
            else map_column "season" (fun _ => Num (Qc_of_Z season)) df in
  df ← filter_between "season" start_season end_season df;
  reparse_game_date L df.

(** [load_team_player_gbg(raw_dir, season_type, start_season, end_season,
    kind)]; [folders season] is the listing of the folder of [season], [None]
    when the folder does not exist. *)
Definition load_team_player_gbg (L : Lib)
    (folders : Z → option (list (string * DataFrame)))
    (start_season end_season : Z) : result DataFrame :=
  let todo :=
    season ← season_range start_season end_season;
    match folders season with
    | None => []
    | Some folder =>
        (fun f => (season, f.2)) <$> filter (fun f => endswith ".csv" f.1 = true) folder
    end in
  dfs ← collect (fun sf => load_player_file L start_season end_season sf.1 sf.2) todo;
  out ← concat dfs;
  filter_situation_all L out.

(** Lines 133-136 of [main]:
    [if "icetime" in df.columns: df["icetime_min"] = ensure_minutes(df["icetime"])] *)
Definition add_icetime_min (L : Lib) (df : DataFrame) : DataFrame :=
  if has_col df "icetime"
  then set_column "icetime_min" (ensure_minutes L ((fun r => get r "icetime") <$> rows df)) df
  else df.

End moneypuck_scrape.

(** ** scripts/04_build_features_moneypuck.py *)

Module build_features.
Import common.

(** [pick_col(df, candidates)] *)
Fixpoint pick_col (df : DataFrame) (candidates : list string) : option string :=
  match candidates with
  | [] => None
  | c :: cs => if has_col df c then Some c else pick_col df cs
  end.

(** [pd.to_datetime(col, errors="coerce")] at one cell. *)
Definition to_datetime_cell (L : Lib) (x : cell) : cell :=
  match x with
  | Date d => Date d
  | Str s => to_datetime L s
  | _ => NA
  end.

(** [ensure_dt(df, col)] *)
Definition ensure_dt (L : Lib) (col : string) (df : DataFrame) : DataFrame :=
  if has_col df col
  then map_column col (fun r => to_datetime_cell L (get r col)) df
  else df.

(** A float that [astype("Int64")] accepts: missing or integral. *)
Definition is_integral (x : cell) : bool :=
  match x with
  | NA => true
  | Num q => bool_decide (Qden (this q) = 1%positive)
  | _ => false
  end.

(** [ensure_int(df, col)]: the cast to the nullable integer dtype refuses a
    column that holds a fractional or infinite number. *)
Definition ensure_int (L : Lib) (col : string) (df : DataFrame) : result DataFrame :=
  if has_col df col
  then
    let vals := (fun r => to_numeric L (get r col)) <$> rows df in
    if forallb is_integral vals then Ok (set_column col vals df)
    else TypeError "cannot safely cast non-equivalent float64 to int64"
  else Ok df.

(** The label [f"{prefix}{w}_{c}"]. *)
Definition feature_name (prefix : string) (w : positive) (c : string) : string :=
  prefix +:+ pretty w +:+ "_" +:+ c.

(** [g.apply(lambda x: x.shift(1).rolling(w, min_periods=1).mean())]
    followed by [reset_index(level=group_cols, drop=True)], for the
    [groupby] object [g = df.groupby(group_cols, sort=False)[c]], which holds
    the group keys and the column of the table [t] it was made from. *)
Definition rolling_column (group_cols : list string) (c : string) (w : positive)
    (t : list row) : list cell :=
  groupby_apply group_cols c (fun x => rolling_mean (Pos.to_nat w) (shift1 x)) t.

(** One pass of the inner loop: [df[f"{prefix}{w}_{c}"] = out...], with [g]
    the rows the [groupby] object was made from before the loop. *)
Definition roll_window (group_cols : list string) (prefix c : string) (g : list row)
    (df : DataFrame) (w : positive) : DataFrame :=
  set_column (feature_name prefix w c) (rolling_column group_cols c w g) df.

(** One pass of the outer loop: a value column that is absent is skipped,
    one that is present is coerced to numbers, grouped once, and rolled at
    every window. *)
Definition roll_value_col (L : Lib) (group_cols : list string) (windows : list positive)
    (prefix : string) (df : DataFrame) (c : string) : DataFrame :=
  if has_col df c
  then
    let df := map_column c (fun r => to_numeric L (get r c)) df in
    foldl (roll_window group_cols prefix c (rows df)) df windows
  else df.

(** [rolling_features(df, group_cols, sort_col, value_cols, windows, prefix)].
    Every call of [main] passes one or two group columns; [groupby] refuses
    an empty list of keys, a call the pipeline never makes and that is not
    modelled apart. *)
Definition rolling_features (L : Lib) (df : DataFrame) (group_cols : list string)
    (sort_col : string) (value_cols : list string) (windows : list positive)
    (prefix : string) : result DataFrame :=
  df ← sort_values (group_cols ++ [sort_col]) df;
  Ok (foldl (roll_value_col L group_cols windows prefix) df value_cols).

(** The windows every caller passes: [(5,10,20)]. *)
Definition WINDOWS : list positive := [5; 10; 20]%positive.

(** [per60(df, num_col, toi_col)]; reading a column that is absent raises
    KeyError. *)
Definition per60_cell (x toi : cell) : cell :=
  fdiv (fmul (Num (Qc_of_Z 60)) x) (replace_zero_nan toi).

Definition per60 (L : Lib) (df : DataFrame) (num_col toi_col : string) : result (list cell) :=
  if negb (has_col df num_col) then KeyError num_col
  else if negb (has_col df toi_col) then KeyError toi_col
  else Ok ((fun r => per60_cell (to_numeric L (get r num_col))
                                (to_numeric L (get r toi_col))) <$> rows df).

(** Lines 63-71 of [main], for one of the three tables: team codes, then the
    dtypes of [gameId] and [gameDate]. *)
Definition normalize_code (s : string) : string :=
  replace TEAM_MAP (strip s).

Definition normalize_team_col (L : Lib) (col : string) (df : DataFrame) : DataFrame :=
  if has_col df col
  then map_column col (fun r => Str (normalize_code (astype_str L (get r col)))) df
  else df.

Definition normalize_teams (L : Lib) (df : DataFrame) : DataFrame :=
  normalize_team_col L "team_opp" (normalize_team_col L "team" df).

Definition prepare (L : Lib) (df : DataFrame) : result DataFrame :=
  df ← ensure_int L "gameId" (normalize_teams L df);
  Ok (ensure_dt L "gameDate" df).

(** *** Team features *)

Definition team_cols_candidates : list (string * list string) :=
  [ ("goalsFor", ["goalsFor"; "gf"; "teamGoalsFor"; "goals_for"]);
    ("goalsAgainst", ["goalsAgainst"; "ga"; "teamGoalsAgainst"; "goals_against"]);
    ("shotsFor", ["shotsFor"; "sf"; "shots_for"; "teamShotsFor"; "shotsOnGoalFor"; "sogFor"]);
    ("shotsAgainst", ["shotsAgainst"; "sa"; "shots_against"; "teamShotsAgainst";
                      "shotsOnGoalAgainst"; "sogAgainst"]);
    ("xGoalsFor", ["xGoalsFor"; "xgf"; "expectedGoalsFor"; "xgoalsFor"]);
    ("xGoalsAgainst", ["xGoalsAgainst"; "xga"; "expectedGoalsAgainst"; "xgoalsAgainst"]) ].

(** [x.diff().dt.days] on a series of dates. *)
Definition diff_days (x : list cell) : list cell :=
  imap (fun i v =>
          match i, v with
          | S j, Date d => match x !! j with
                           | Some (Date d') => Num (Qc_of_Z (d - d'))
                           | _ => NA
                           end
          | _, _ => NA
          end) x.

(** The labels [keep_base + [c for c in df.columns if c.startswith(prefix)]]. *)
Definition keep_out (base : list string) (prefix : string) (df : DataFrame) : list string :=
  filter (fun c => has_col df c = true) base
  ++ filter (fun c => startswith prefix c = true) (columns df).

Definition KEEP_BASE : list string :=
  ["gameId"; "gameDate"; "season"; "team"; "team_opp"; "home_or_away"].

Definition team_features (L : Lib) (team : DataFrame) : result DataFrame :=
  let canon := omap (fun kc => truthy (pick_col team kc.2)) team_cols_candidates in
  team_feat ←
    (if has_col team "team" && has_col team "gameDate"
     then t ← sort_values ["team"; "gameDate"] team;
          Ok (set_column "days_since_prev_game"
                (groupby_apply ["team"] "gameDate" diff_days (rows t)) t)
     else Ok team);
  let roll_cols :=
    filter (fun c => has_col team_feat c = true) canon
    ++ (if has_col team_feat "days_since_prev_game"
        then ["days_since_prev_game"] else []) in
  team_feat ← rolling_features L team_feat ["team"] "gameDate" roll_cols WINDOWS "team_";
  out ← select_columns (keep_out KEEP_BASE "team_" team_feat) team_feat;
  strip_and_dedup_columns out.

(** *** Skater features *)

Definition PID_CANDIDATES : list string := ["playerId"; "player_id"; "id"; "nhlPlayerId"].
Definition TOI_CANDIDATES : list string := ["icetime_min"; "icetime"; "timeOnIce"; "toi"].

Definition count_candidates : list string :=
  ["goals"; "assists"; "points";
   "shotsOnGoal"; "shots"; "shots_on_goal";
   "ixG"; "iXG"; "xGoals"; "xGoalsFor"; "xG";
   "iFenwick"; "iCorsi"; "shotAttempts"].

(** [for c in count_cols: sk_feat[f"{c}_per60"] = per60(sk_feat, c, toi_col)] *)
Fixpoint add_per60 (L : Lib) (toi_col : string) (count_cols : list string)
    (df : DataFrame) : result DataFrame :=
  match count_cols with
  | [] => Ok df
  | c :: cs =>
      v ← per60 L df c toi_col;
      add_per60 L toi_col cs (set_column (c +:+ "_per60") v df)
  end.

Definition skater_features (L : Lib) (sk : DataFrame) : result DataFrame :=
  match pick_col sk PID_CANDIDATES, pick_col sk TOI_CANDIDATES with
  | Some pid_col, Some toi_col =>
      sk_feat ← ensure_int L pid_col sk;
      let toi_col :=
        if bool_decide (toi_col ≠ "icetime_min") && has_col sk_feat "icetime_min"
        then "icetime_min" else toi_col in
      let count_cols := filter (fun c => has_col sk_feat c = true) count_candidates in
      sk_feat ← add_per60 L toi_col count_cols sk_feat;
      let roll_cols_sk := toi_col :: ((fun c => c +:+ "_per60") <$> count_cols) in
      sk_feat ← rolling_features L sk_feat ["team"; pid_col] "gameDate"
                  roll_cols_sk WINDOWS "sk_";
      out ← select_columns (keep_out (KEEP_BASE ++ [pid_col]) "sk_" sk_feat) sk_feat;
      strip_and_dedup_columns (rename_column pid_col "playerId" out)
  | _, _ => RuntimeError "Skater playerId or TOI column not found."
  end.

(** *** Goalie features *)

(** [1.0 - to_numeric(ga) / to_numeric(sa).replace(0, np.nan)] *)
Definition save_pct_cell (ga sa : cell) : cell :=
  fsub (Num 1%Qc) (fdiv ga (replace_zero_nan sa)).

Definition goalie_features (L : Lib) (go : DataFrame) : result DataFrame :=
  match pick_col go PID_CANDIDATES with
  | None => RuntimeError "Goalie playerId column not found."
  | Some g_pid_col =>
      let g_toi_col := pick_col go TOI_CANDIDATES in
      go_feat ← ensure_int L g_pid_col go;
      let g_toi_col :=
        match truthy g_toi_col with
        | Some t => if bool_decide (t ≠ "icetime_min") && has_col go_feat "icetime_min"
                    then Some "icetime_min" else g_toi_col
        | None => g_toi_col
        end in
      let ga_col := pick_col go_feat ["goalsAgainst"; "ga"; "goals_against"] in
      let sa_col := pick_col go_feat ["shotsAgainst"; "sa"; "shots_against"] in
      let sv_col := pick_col go_feat ["saves"; "sv"] in
      let go_feat :=
        match truthy sa_col, truthy ga_col with
        | Some sa, Some ga =>
            map_column "save_pct"
              (fun r => save_pct_cell (to_numeric L (get r ga)) (to_numeric L (get r sa)))
              go_feat
        | _, _ => map_column "save_pct" (fun _ => NA) go_feat
        end in
      let roll_cols_go :=
        filter (fun c => has_col go_feat c = true)
          (omap truthy [ga_col; sa_col; sv_col; Some "save_pct"; g_toi_col]) in
      go_feat ← rolling_features L go_feat ["team"; g_pid_col] "gameDate"
                  roll_cols_go WINDOWS "go_";
      out ← select_columns (keep_out (KEEP_BASE ++ [g_pid_col]) "go_" go_feat) go_feat;
      strip_and_dedup_columns (rename_column g_pid_col "playerId" out)
  end.

(** [main]: the three tables are cleaned, then the three feature tables are
    built in order; the first error ends the run. *)
Definition main (L : Lib) (team sk go : DataFrame)
    : result (DataFrame * DataFrame * DataFrame) :=
  team ← strip_and_dedup_columns team;
  sk ← strip_and_dedup_columns sk;
  go ← strip_and_dedup_columns go;
  team ← prepare L team;
  sk ← prepare L sk;
  go ← prepare L go;
  team_out ← team_features L team;
  sk_out ← skater_features L sk;
  go_out ← goalie_features L go;
  Ok (team_out, sk_out, go_out).

End build_features.

(** ** scripts/05_build_model_tables.py *)

Module build_model_tables.
Import common.

(** The local [pick_col] of [main]. *)
Fixpoint pick_col (df : DataFrame) (candidates : list string) : option string :=
  match candidates with
  | [] => None
  | c :: cs => if has_col df c then Some c else pick_col df cs
  end.

(** The dict [team_targets]: target label and the aliases of its source. *)
Definition TEAM_TARGETS : list (string * list string) :=
  [ ("y_goalsFor", ["goalsFor"; "gf"; "teamGoalsFor"; "goals_for"]);
    ("y_goalsAgainst", ["goalsAgainst"; "ga"; "teamGoalsAgainst"; "goals_against"]);
    ("y_shotsOnGoalFor", ["shotsOnGoalFor"; "shotsFor"; "sf"; "sogFor"]);
    ("y_shotsOnGoalAgainst", ["shotsOnGoalAgainst"; "shotsAgainst"; "sa"; "sogAgainst"]);
    ("y_xGoalsFor", ["xGoalsFor"; "xgf"; "expectedGoalsFor"; "xgoalsFor"]);
    ("y_xGoalsAgainst", ["xGoalsAgainst"; "xga"; "expectedGoalsAgainst"; "xgoalsAgainst"]) ].

(** One pass of the loop over [team_targets]:
    [if col and col in team_game.columns:
       tmp = team_game[["gameId","team",col]].rename(columns={col:yname})
       team_model = team_model.merge(tmp, on=["gameId","team"], how="left")] *)
Definition join_target (team_game : DataFrame) (team_model : DataFrame)
    (target : string * list string) : result DataFrame :=
  match truthy (pick_col team_game target.2) with
  | Some col =>
      tmp ← select_columns ["gameId"; "team"; col] team_game;
      merge_left ["gameId"; "team"] ["gameId"; "team"] team_model
        (rename_column col target.1 tmp)
  | None => Ok team_model
  end.

Fixpoint join_targets (team_game : DataFrame) (targets : list (string * list string))
    (team_model : DataFrame) : result DataFrame :=
  match targets with
  | [] => Ok team_model
  | t :: ts =>
      team_model ← join_target team_game team_model t;
      join_targets team_game ts team_model
  end.

Definition KEEP : list string :=
  ["gameId"; "gameDate"; "season"; "team"; "team_opp"; "home_or_away"].

Definition with_prefix (p : string) (df : DataFrame) : list string :=
  filter (fun c => startswith p c = true) (columns df).

(** The team model table. *)
Definition team_model_table (team_game team_feat : DataFrame) : result DataFrame :=
  let team_keep := filter (fun c => has_col team_feat c = true) KEEP in
  team_model ← join_targets team_game TEAM_TARGETS team_feat;
  let team_cols := team_keep ++ with_prefix "team_" team_model
                   ++ with_prefix "y_" team_model in
  out ← select_columns team_cols team_model;
  strip_and_dedup_columns out.

(** [[c for c in cs if c]] on the results of [pick_col]. *)
Definition present (cs : list (option string)) : list string := omap truthy cs.

(** [df.rename(columns=rename_map)], one entry after the other; the entries
    have distinct sources and distinct targets. *)
Definition rename_all (m : list (option string * string)) (df : DataFrame) : DataFrame :=
  foldl (fun df e => match truthy e.1 with
                     | Some old => rename_column old e.2 df
                     | None => df
                     end) df m.

(** The skater and the goalie model table share their shape: the feature
    table is joined on [gameId], [team] and the player id with the target
    columns of the game table, the player-id column of the game table is
    dropped and the targets are renamed. *)
Definition player_model_table (prefix : string) (targets : list (list string * string))
    (game feat : DataFrame) : result DataFrame :=
  match pick_col game ["playerId"; "player_id"; "id"; "nhlPlayerId"] with
  | None => KeyError "None"
  | Some pid =>
      let picked := (fun t => (pick_col game t.1, t.2)) <$> targets in
      sub ← select_columns (["gameId"; "team"; pid] ++ present (picked.*1)) game;
      model ← merge_left ["gameId"; "team"; "playerId"] ["gameId"; "team"; pid] feat sub;
      let model := if has_col model pid then drop_column pid model else model in
      let model := rename_all picked model in
      let cols := filter (fun c => has_col model c = true) (KEEP ++ ["playerId"])
                  ++ with_prefix prefix model ++ with_prefix "y_" model in
      out ← select_columns cols model;
      strip_and_dedup_columns out
  end.

Definition SKATER_TARGETS : list (list string * string) :=
  [ (["goals"], "y_goals"); (["assists"], "y_assists"); (["points"], "y_points");
    (["icetime_min"; "icetime"; "timeOnIce"; "toi"], "y_toi") ].

Definition GOALIE_TARGETS : list (list string * string) :=
  [ (["goalsAgainst"; "ga"; "goals_against"], "y_goalsAgainst");
    (["shotsAgainst"; "sa"; "shots_against"], "y_shotsAgainst");
    (["saves"; "sv"], "y_saves");
    (["icetime_min"; "icetime"; "timeOnIce"; "toi"], "y_toi") ].

Definition skater_model_table := player_model_table "sk_" SKATER_TARGETS.
Definition goalie_model_table := player_model_table "go_" GOALIE_TARGETS.

(** [main].  The loop of line 26 binds the cleaned copy to its own variable
    [df] only, so the six tables go on as they were read; the call can still
    raise.  Then the three model tables are built in order. *)
Definition main (team_game sk_game go_game team_feat sk_feat go_feat : DataFrame)
    : result (DataFrame * DataFrame * DataFrame) :=
  strip_and_dedup_columns team_game;;
  strip_and_dedup_columns team_feat;;
  strip_and_dedup_columns sk_game;;
  strip_and_dedup_columns sk_feat;;
  strip_and_dedup_columns go_game;;
  strip_and_dedup_columns go_feat;;
  team_out ← team_model_table team_game team_feat;
  sk_out ← skater_model_table sk_game sk_feat;
  go_out ← goalie_model_table go_game go_feat;
  Ok (team_out, sk_out, go_out).

End build_model_tables.

(** ** scripts/06_train_models_team.py *)

Module train_models_team.

(** The keys of the dict [candidates], in insertion order. *)
Inductive strategy := ridge | hgb | rf.

#[global] Instance strategy_eq_dec : EqDecision strategy.
Proof. solve_decision. Defined.

Definition CANDIDATES : list strategy := [ridge; hgb; rf].

Definition strategy_name (s : strategy) : string :=
  match s with ridge => "ridge" | hgb => "hgb" | rf => "rf" end.

(** [best_mae = 1e18] *)
Definition BEST_MAE_INIT : Qc := Qc_of_Z (10 ^ 18).

Section Trainer.

Variable L : Lib.

(** scikit-learn is a black box: a fitted pipeline is a value of [fitted],
    [fit s X y] is what fitting candidate [s] leaves in its pipeline object,
    [predict] gives one number per row.  [sqrt] is [np.sqrt]. *)
Variable fitted : Type.
Variable fit : strategy → list (list cell) → list Qc → fitted.
Variable predict : fitted → list (list cell) → list Qc.
Variable sqrt : Qc → Qc.

Definition Qc_abs (x : Qc) : Qc := if bool_decide (x < 0)%Qc then (- x)%Qc else x.

Definition Qc_sum (l : list Qc) : Qc := foldr Qcplus 0%Qc l.

Definition Qc_mean (l : list Qc) : Qc :=
  (Qc_sum l / Qc_of_Z (Z.of_nat (length l)))%Qc.

(** [eval_metrics(y_true, y_pred)] *)
Definition mean_absolute_error (y_true y_pred : list Qc) : Qc :=
  Qc_mean (zip_with (fun y p => Qc_abs (y - p)) y_true y_pred).

Definition mean_squared_error (y_true y_pred : list Qc) : Qc :=
  Qc_mean (zip_with (fun y p => ((y - p) * (y - p))%Qc) y_true y_pred).

Definition eval_metrics (y_true y_pred : list Qc) : Qc * Qc :=
  (mean_absolute_error y_true y_pred, sqrt (mean_squared_error y_true y_pred)).

(** The season of a row once [season] has gone through
    [pd.to_numeric(...).astype("Int64")]: an integer, or missing. *)
Definition season_of (r : row) : option Z :=
  match to_numeric L (get r "season") with
  | Num q => Some (Qnum (this q))
  | _ => None
  end.

(** Lines 52-54: rows without a season are dropped, before and after the
    conversion; a fractional season makes the cast raise. *)
Definition clean_seasons (df : DataFrame) : result DataFrame :=
  df ← dropna "season" df;
  let vals := (fun r => to_numeric L (get r "season")) <$> rows df in
  if forallb build_features.is_integral vals
  then dropna "season" (set_column "season" vals df)
  else TypeError "cannot safely cast non-equivalent float64 to int64".

(** [int(df["season"].max())]: the maximum of an empty column is missing and
    [int] refuses it. *)
Definition max_season (seasons : list Z) : option Z :=
  match seasons with
  | [] => None
  | s :: ss => Some (foldr Z.max s ss)
  end.

Definition holdout_of (df : DataFrame) : result Z :=
  match max_season (omap season_of (rows df)) with
  | Some hs => Ok hs
  | None => TypeError "int() argument must be a string or a real number, not NAType"
  end.

(** The two splits for target [y]:
    [d = df.dropna(subset=[y])],
    [train_df = d[d["season"] < holdout_season]],
    [test_df = d[d["season"] == holdout_season]]. *)
Definition has_target (y : string) (r : row) : bool := negb (isna (get r y)).

Definition season_before (hs : Z) (r : row) : bool :=
  match season_of r with
  | Some s => bool_decide (s < hs)%Z
  | None => false
  end.

Definition season_is (hs : Z) (r : row) : bool :=
  bool_decide (season_of r = Some hs).

Definition train_split (y : string) (hs : Z) (df : DataFrame) : list row :=
  filter (fun r => season_before hs r = true)
    (filter (fun r => has_target y r = true) (rows df)).

Definition test_split (y : string) (hs : Z) (df : DataFrame) : list row :=
  filter (fun r => season_is hs r = true)
    (filter (fun r => has_target y r = true) (rows df)).

(** [train_df[feat_cols]] as a matrix and [train_df[y].astype(float)]. *)
Definition matrix (feat_cols : list string) (d : list row) : list (list cell) :=
  key feat_cols <$> d.

Definition as_float (x : cell) : option Qc :=
  match x with Num q => Some q | _ => None end.

Definition target_vector (y : string) (d : list row) : result (list Qc) :=
  match mapM (fun r => as_float (get r y)) d with
  | Some v => Ok v
  | None => ValueError "could not convert target to a finite float"
  end.

(** The state of the run: the three pipeline objects of [candidates] (shared
    by all targets and refitted in place), the files written by [dump], and
    [report_rows]. *)
Record state := mkState {
  pipelines : strategy → option fitted;
  artifacts : gmap string (strategy * fitted);
  report_rows : list row;
}.

Definition init_state : state :=
  {| pipelines := fun _ => None; artifacts := ∅; report_rows := [] |}.

(** The local variables [best] and [best_mae] of the inner loop.  [best]
    holds the name of a candidate and, by reference, its pipeline object. *)
Record best_so_far := mkBest {
  best : option (strategy * Qc * Qc);
  best_mae : Qc;
}.

Definition report_row (y : string) (s : strategy) (hs : Z) (mae rmse : Qc)
    (n_train n_test n_features : nat) : row :=
  {[ "target" := Str y; "model" := Str (strategy_name s);
     "holdout_season" := Num (Qc_of_Z hs);
     "MAE" := Num mae; "RMSE" := Num rmse;
     "n_train" := Num (Qc_of_Z (Z.of_nat n_train));
     "n_test" := Num (Qc_of_Z (Z.of_nat n_test));
     "n_features" := Num (Qc_of_Z (Z.of_nat n_features)) ]}.

(** One pass of the loop over [candidates.items()]. *)
Definition try_candidate (y : string) (hs : Z) (feat_cols : list string)
    (X_train : list (list cell)) (y_train : list Qc)
    (X_test : list (list cell)) (y_test : list Qc)
    (acc : state * best_so_far) (s : strategy) : state * best_so_far :=
  let '(st, b) := acc in
  let model := fit s X_train y_train in
  let pred := predict model X_test in
  let '(mae, rmse) := eval_metrics y_test pred in
  let st := {| pipelines := fun s' => if decide (s' = s) then Some model
                                       else pipelines st s';
               artifacts := artifacts st;
               report_rows := report_rows st
                 ++ [report_row y s hs mae rmse (length X_train) (length X_test)
                       (length feat_cols)] |} in
  if bool_decide (mae < best_mae b)%Qc
  then (st, {| best := Some (s, mae, rmse); best_mae := mae |})
  else (st, b).

(** One pass of the loop over [y_cols_all]. *)
Definition train_target (hs : Z) (feat_cols : list string) (df : DataFrame)
    (st : state) (y : string) : result state :=
  let train_df := train_split y hs df in
  let test_df := test_split y hs df in
  if bool_decide (length test_df = 0) || bool_decide (length train_df = 0)
  then Ok st
  else
    y_train ← target_vector y train_df;
    y_test ← target_vector y test_df;
    let '(st, b) :=
      foldl (try_candidate y hs feat_cols (matrix feat_cols train_df) y_train
               (matrix feat_cols test_df) y_test)
        (st, {| best := None; best_mae := BEST_MAE_INIT |}) CANDIDATES in
    match best b with
    | None => TypeError "cannot unpack non-iterable NoneType object"
    | Some (best_name, _, _) =>
        match pipelines st best_name with
        | Some best_model =>
            Ok {| pipelines := pipelines st;
                  artifacts := <["team_" +:+ y +:+ ".joblib" := (best_name, best_model)]>
                                 (artifacts st);
                  report_rows := report_rows st |}
        | None => TypeError "no pipeline object"
        end
    end.

Fixpoint train_targets (hs : Z) (feat_cols : list string) (df : DataFrame)
    (ys : list string) (st : state) : result state :=
  match ys with
  | [] => Ok st
  | y :: ys' =>
      st ← train_target hs feat_cols df st y;
      train_targets hs feat_cols df ys' st
  end.

(** [pd.api.types.is_numeric_dtype(df[c])]: the column holds floats only. *)
Definition is_numeric_col (df : DataFrame) (c : string) : bool :=
  forallb (fun r => is_float (get r c)) (rows df).

(** The table [pd.DataFrame(report_rows)]: no rows, no columns. *)
Definition report_frame (rs : list row) : DataFrame :=
  {| columns := match rs with
                | [] => []
                | _ => ["target"; "model"; "holdout_season"; "MAE"; "RMSE";
                        "n_train"; "n_test"; "n_features"]
                end;
     rows := rs |}.

(** [main]: the written artifacts and the report. *)
Definition main (df : DataFrame) : result (gmap string (strategy * fitted) * DataFrame) :=
  let y_cols_all := filter (fun c => startswith "y_" c = true) (columns df) in
  let feat_cols_all := filter (fun c => startswith "team_" c = true) (columns df) in
  let feat_cols := filter (fun c => is_numeric_col df c = true) feat_cols_all in
  df ← clean_seasons df;
  holdout_season ← holdout_of df;
  st ← train_targets holdout_season feat_cols df y_cols_all init_state;
  report ← sort_values ["target"; "MAE"] (report_frame (report_rows st));
  Ok (artifacts st, report).

End Trainer.

End train_models_team.

(** ** scripts/07_project_upcoming_games_team.py *)

Module project_upcoming.

(** The script's own copy of the alias map. *)
Definition TEAM_MAP : gmap string string :=
  list_to_map
    [("LA", "LAK"); ("NJ", "NJD"); ("SJ", "SJS"); ("TB", "TBL"); ("WAS", "WSH")].

Definition TARGETS : list string :=
  ["y_goalsFor"; "y_goalsAgainst";
   "y_shotsOnGoalFor"; "y_shotsOnGoalAgainst";
   "y_xGoalsFor"; "y_xGoalsAgainst"].

(** [0.5] *)
Definition half : Qc := Q2Qc (1 # 2).

(** [0.5 * a + 0.5 * b] *)
Definition blend (a b : Qc) : Qc := (half * a + half * b)%Qc.

(** [groupby(gcols).tail(1)]: the last row of every group, in table order. *)
Fixpoint tail1 (gcols : list string) (t : list row) : list row :=
  match t with
  | [] => []
  | r :: t' => if bool_decide (group_rows gcols t' r = []) then r :: tail1 gcols t'
               else tail1 gcols t'
  end.

(** [df.rename(columns={c: f"{p}{c}" for c in cs})] *)
Definition add_prefix (p : string) (cs : list string) (df : DataFrame) : DataFrame :=
  foldl (fun df c => rename_column c (p +:+ c) df) df cs.

(** [(a - b).dt.days] on two dates. *)
Definition days_between (a b : cell) : cell :=
  match a, b with
  | Date x, Date y => Num (Qc_of_Z (x - y))
  | _, _ => NA
  end.

Section Projector.

Variable L : Lib.

(** [models[y].predict(X)] at one row of [X]; the six artifacts are taken to
    load. *)
Variable predict : string → list cell → Qc.

(** The latest snapshot per team, lines 117-128. *)
Definition team_latest (team_feat : DataFrame) : result (list string * DataFrame) :=
  if negb (has_col team_feat "gameDate") then KeyError "gameDate" else
  let team_feat :=
    map_column "gameDate"
      (fun r => build_features.to_datetime_cell L (get r "gameDate")) team_feat in
  team_feat ← dropna "team" team_feat;
  team_feat ← dropna "gameDate" team_feat;
  let feat_cols := filter (fun c => startswith "team_" c = true) (columns team_feat) in
  sorted ← sort_values ["team"; "gameDate"] team_feat;
  let latest := {| columns := columns sorted; rows := tail1 ["team"] (rows sorted) |} in
  latest ← select_columns (["team"; "gameDate"] ++ feat_cols) latest;
  Ok (feat_cols, rename_column "gameDate" "last_gameDate" latest).

(** One leg of the schedule: the snapshot of the team in column [side],
    lines 154-160. *)
Definition attach_leg (side role : string) (feat_cols : list string)
    (latest sched : DataFrame) : result DataFrame :=
  m ← merge_left [side] ["team"] sched latest;
  let m := drop_column "team" m in
  let m := add_prefix (role +:+ "_") feat_cols m in
  Ok (rename_column "last_gameDate" (role +:+ "_last_gameDate") m).

(** [predict_team(prefix)] at one row of [full]. *)
Definition predict_team (prefix : string) (feat_cols : list string) (r : row)
    (y : string) : Qc :=
  predict y (key ((fun c => prefix +:+ "_" +:+ c) <$> feat_cols) r).

(** One row of [out], lines 173-184. *)
Definition project_row (feat_cols : list string) (r : row) : row :=
  let home_pred := predict_team "home" feat_cols r in
  let away_pred := predict_team "away" feat_cols r in
  let out : row :=
    filter (fun kv => kv.1 ∈ ["gameId"; "scheduleDate"; "homeTeam"; "awayTeam";
                              "home_rest_days"; "away_rest_days"]) r in
  let home_goals := blend (home_pred "y_goalsFor") (away_pred "y_goalsAgainst") in
  let away_goals := blend (away_pred "y_goalsFor") (home_pred "y_goalsAgainst") in
  let home_sog := blend (home_pred "y_shotsOnGoalFor") (away_pred "y_shotsOnGoalAgainst") in
  let away_sog := blend (away_pred "y_shotsOnGoalFor") (home_pred "y_shotsOnGoalAgainst") in
  let home_xg := blend (home_pred "y_xGoalsFor") (away_pred "y_xGoalsAgainst") in
  let away_xg := blend (away_pred "y_xGoalsFor") (home_pred "y_xGoalsAgainst") in
  let out := <["home_goals" := Num home_goals]> out in
  let out := <["away_goals" := Num away_goals]> out in
  let out := <["home_sog" := Num home_sog]> out in
  let out := <["away_sog" := Num away_sog]> out in
  let out := <["home_xg" := Num home_xg]> out in
  let out := <["away_xg" := Num away_xg]> out in
  let out := <["proj_total_goals" := fadd (get out "home_goals") (get out "away_goals")]> out in
  <["proj_total_sog" := fadd (get out "home_sog") (get out "away_sog")]> out.

Definition OUT_COLUMNS : list string :=
  ["gameId"; "scheduleDate"; "homeTeam"; "awayTeam"; "home_rest_days"; "away_rest_days";
   "home_goals"; "away_goals"; "home_sog"; "away_sog"; "home_xg"; "away_xg";
   "proj_total_goals"; "proj_total_sog"].

(** [main] from the schedule on; [None] is the early return on an empty
    schedule. *)
Definition main (team_feat df_sched : DataFrame) : result (option DataFrame) :=
  '(feat_cols, latest) ← team_latest team_feat;
  if bool_decide (rows df_sched = []) then Ok None else
  let norm c df :=
    map_column c (fun r => Str (replace TEAM_MAP (strip (astype_str L (get r c))))) df in
  if negb (has_col df_sched "homeTeam") then KeyError "homeTeam" else
  if negb (has_col df_sched "awayTeam") then KeyError "awayTeam" else
  if negb (has_col df_sched "scheduleDate") then KeyError "scheduleDate" else
  let df_sched := norm "awayTeam" (norm "homeTeam" df_sched) in
  let df_sched :=
    map_column "scheduleDate_dt"
      (fun r => build_features.to_datetime_cell L (get r "scheduleDate")) df_sched in
  home ← attach_leg "homeTeam" "home" feat_cols latest df_sched;
  full ← attach_leg "awayTeam" "away" feat_cols latest home;
  let full :=
    map_column "home_rest_days"
      (fun r => days_between (get r "scheduleDate_dt") (get r "home_last_gameDate")) full in
  let full :=
    map_column "away_rest_days"
      (fun r => days_between (get r "scheduleDate_dt") (get r "away_last_gameDate")) full in
  if negb (has_col full "gameId") then KeyError "gameId" else
  let out := {| columns := OUT_COLUMNS; rows := project_row feat_cols <$> rows full |} in
  out ← sort_values ["scheduleDate"; "homeTeam"; "awayTeam"] out;
  Ok (Some out).

End Projector.

(** *** The schedule *)

(** A game and a day of a schedule or score payload, with the fields the
    script reads; a field that is absent or null is [NA]. *)
Record api_game := mkGame {
  game_id : cell;
  startTimeUTC : cell;
  home_abbrev : cell;
  away_abbrev : cell;
  gameType : cell;
}.

Record api_day := mkDay { day_date : cell; day_games : list api_game }.

(** [_is_regular_season_game(game)] *)
Definition is_regular_season_game (g : api_game) : bool :=
  bool_decide (gameType g ∈ [Num (Qc_of_Z 2); Str "2"; Str "R"]).

(** [df.drop_duplicates(subset=by, keep="first")] *)
Fixpoint drop_duplicates (by_ : list string) (seen : list (list cell)) (t : list row)
    : list row :=
  match t with
  | [] => []
  | r :: t' =>
      if bool_decide (key by_ r ∈ seen) then drop_duplicates by_ seen t'
      else r :: drop_duplicates by_ (key by_ r :: seen) t'
  end.

Definition SCHEDULE_COLUMNS : list string :=
  ["gameId"; "gameDateUTC"; "homeTeam"; "awayTeam"; "scheduleDate"].

(** The days [date_from], ..., [date_to] of the loop of [get_schedule]. *)
Definition date_range (date_from date_to : Z) : list Z :=
  (fun i => (date_from + Z.of_nat i)%Z) <$> seq 0 (Z.to_nat (date_to + 1 - date_from)).

Section Schedule.

Variable L : Lib.

(** [str(d)] of a calendar day. *)
Variable isoformat : Z → string.

(** What the two endpoints answer for a day: the list under [gameWeek],
    and the [currentDate] with the [games] of the score payload; [None] when
    the request raises. *)
Variable schedule_api : Z → option (list api_day).
Variable score_api : Z → option api_day.

(** The dict appended to [rows] for a game of day [d]. *)
Definition game_row (g : api_game) (d : Z) : row :=
  {[ "gameId" := game_id g; "gameDateUTC" := startTimeUTC g;
     "homeTeam" := home_abbrev g; "awayTeam" := away_abbrev g;
     "scheduleDate" := Str (isoformat d) ]}.

(** The regular-season games of one day, when the day parses to a date of
    the window. *)
Definition pull_day_games (day : api_day) (date_from date_to : Z) : list row :=
  match build_features.to_datetime_cell L (day_date day) with
  | Date d =>
      if bool_decide (d < date_from)%Z || bool_decide (date_to < d)%Z then []
      else (fun g => game_row g d)
           <$> filter (fun g => is_regular_season_game g = true) (day_games day)
  | _ => []
  end.

(** [_pull_games_from_schedule_payload(payload, date_from, date_to)] *)
Definition pull_games_from_schedule_payload (game_week : list api_day)
    (date_from date_to : Z) : list row :=
  day ← game_week; pull_day_games day date_from date_to.

(** [_pull_games_from_score_payload(payload, date_from, date_to)] *)
Definition pull_games_from_score_payload (payload : api_day)
    (date_from date_to : Z) : list row :=
  pull_day_games payload date_from date_to.

(** One pass of the loop of [get_schedule]: the schedule endpoint, and
    the score endpoint when the first gave no game. *)
Definition pull_day (date_from date_to d : Z) : list row :=
  let day_rows :=
    match schedule_api d with
    | Some payload => pull_games_from_schedule_payload payload date_from date_to
    | None => []
    end in
  if bool_decide (length day_rows = 0)
  then day_rows ++ match score_api d with
                   | Some payload =>
                       pull_games_from_score_payload payload date_from date_to
                   | None => []
                   end
  else day_rows.

(** [get_schedule(date_from, date_to)] *)
Definition get_schedule (date_from date_to : Z) : result DataFrame :=
  let games := d ← date_range date_from date_to; pull_day date_from date_to d in
  match games with
  | [] => Ok {| columns := []; rows := [] |}
  | _ =>
      let out := {| columns := SCHEDULE_COLUMNS; rows := games |} in
      out ← dropna "gameId" out;
      out ← dropna "homeTeam" out;
      out ← dropna "awayTeam" out;
      out ← build_features.ensure_int L "gameId" out;
      out ← dropna "gameId" out;
      Ok {| columns := columns out;
            rows := drop_duplicates ["gameId"] [] (rows out) |}
  end.

End Schedule.

End project_upcoming.

(** ** What a rolling window sees

    After the sort, the shifted window of a row holds the values of the rows
    of its entity that stand above it in the table. *)

Module history.

(** The rows of the entity of [r] above place [i] of the table [t]: what
    [shift(1)] and the rolling window see of a group once the table is
    sorted. *)
Definition games_above (group_cols : list string) (t : list row) (i : nat) (r : row)
    : list row :=
  filter (fun g => key group_cols g = key group_cols r) (take i t).

(** The last [n] elements of a list. *)
Definition last_n {A} (n : nat) (l : list A) : list A :=
  drop (length l - n) l.

(** The mean of [value], over the values present, on the [min W k] rows of
    the entity immediately above row [r] at place [i], [k] being the number
    of the rows of the entity above it. *)
Definition mean_above (group_cols : list string) (value : row → cell) (W : nat)
    (t : list row) (i : nat) (r : row) : cell :=
  let games := games_above group_cols t i r in
  let k := length games in
  nanmean (value <$> last_n (min W k) games).

End history.

(** ** The rolling feature as the specification words it

    "The mean of the column over the W games immediately preceding the
    current game, excluding the current game; with fewer than W prior games,
    the mean of whatever prior games are available; null on the first
    game."  The prior games of a row are the games of its entity dated
    strictly before it.  The mean is the one pandas takes: over the values
    present, and missing when there is none. *)

Module rolling_spec.

(** Date [a] is strictly before date [b]. *)
Definition before (a b : cell) : Prop := cell_le a b ∧ a ≠ b.

#[global] Instance before_dec : RelDecision before.
Proof. intros a b. unfold before. apply _. Defined.

(** The strictly prior games of row [r] in table [t]: the rows of the same
    entity whose date is strictly before the date of [r], in date order. *)
Definition prior_games (group_cols : list string) (sort_col : string)
    (t : list row) (r : row) : list row :=
  sort_rows [sort_col]
    (filter (fun g => key group_cols g = key group_cols r
                      ∧ before (get g sort_col) (get r sort_col)) t).

(** The mean of [value], over the values present, on the [min W k] games
    immediately preceding row [r], [k] being the number of its strictly
    prior games; missing when no value is present, so when [k = 0]. *)
Definition prior_mean (group_cols : list string) (sort_col : string)
    (value : row → cell) (W : nat) (t : list row) (r : row) : cell :=
  let games := prior_games group_cols sort_col t r in
  let k := length games in
  nanmean (value <$> history.last_n (min W k) games).

End rolling_spec.

(** ** Concrete inputs

    Tables and library instances on which the definitions above are run. *)

Module examples.

(** A library instance: no string parses as a number, an eight-digit date
    string is day 0 and no other string is a date. *)
Definition example_lib : Lib :=
  {| str_na := "nan"; str_num := fun _ => "0"; str_inf := fun _ => "inf";
     str_date := fun _ => "1970-01-01";
     parse_number := fun _ => NA;
     to_datetime_ymd := fun _ => Date 0; to_datetime := fun _ => NA |}.

(** A raw team file without situational labels. *)
Definition example_raw_file : DataFrame :=
  {| columns := ["playerTeam"; "gameDate"; "goalsFor"];
     rows := [ {[ "playerTeam" := Str "LA"; "gameDate" := Str "20240105";
                  "goalsFor" := Num (Qc_of_Z 3) ]} ] |}.


(** The scenario of the specification: entity "BOS" plays on days 1 to 6
    and scores 2, 4, 6, 8, 10, 12; two games of another team lie in between,
    and the rows come in no particular order. *)
Definition game (team : string) (day goals : Z) : row :=
  {[ "team" := Str team; "gameDate" := Date day; "goalsFor" := Num (Qc_of_Z goals) ]}.

Definition example_bos : DataFrame :=
  {| columns := ["team"; "gameDate"; "goalsFor"];
     rows := [ game "BOS" 6 12; game "TOR" 2 1; game "BOS" 1 2; game "BOS" 2 4;
               game "BOS" 3 6; game "BOS" 5 10; game "TOR" 4 5; game "BOS" 4 8 ] |}.

(** The same table after the two latest games of "BOS" were rescored. *)
Definition example_bos_rescored : DataFrame :=
  {| columns := ["team"; "gameDate"; "goalsFor"];
     rows := [ game "BOS" 6 100; game "TOR" 2 1; game "BOS" 1 2; game "BOS" 2 4;
               game "BOS" 3 6; game "BOS" 5 50; game "TOR" 4 5; game "BOS" 4 8 ] |}.

(** Latest features of two teams, one scheduled game between them, and
    models that predict 3.1 goals for and 2.9 goals against whatever the
    features. *)
Definition example_team_feat : DataFrame :=
  {| columns := ["gameId"; "gameDate"; "team"; "team_5_goalsFor"];
     rows := [ {[ "gameId" := Num (Qc_of_Z 1); "gameDate" := Date 10;
                  "team" := Str "BOS"; "team_5_goalsFor" := Num (Qc_of_Z 3) ]};
               {[ "gameId" := Num (Qc_of_Z 1); "gameDate" := Date 10;
                  "team" := Str "TOR"; "team_5_goalsFor" := Num (Qc_of_Z 2) ]};
               {[ "gameId" := Num (Qc_of_Z 2); "gameDate" := Date 12;
                  "team" := Str "BOS"; "team_5_goalsFor" := Num (Qc_of_Z 4) ]} ] |}.

Definition example_schedule : DataFrame :=
  {| columns := ["gameId"; "gameDateUTC"; "homeTeam"; "awayTeam"; "scheduleDate"];
     rows := [ {[ "gameId" := Num (Qc_of_Z 7); "gameDateUTC" := Str "2024-01-15T00:00:00Z";
                  "homeTeam" := Str "BOS"; "awayTeam" := Str "TOR";
                  "scheduleDate" := Date 15 ]} ] |}.

Definition example_predict (y : string) (X : list cell) : Qc :=
  if bool_decide (y = "y_goalsFor") then Q2Qc (31 # 10) else Q2Qc (29 # 10).

(** A cleaned skater table: one player, three games, no ice time in the
    second. *)
Definition skater_game (gid day toi goals : Z) : row :=
  {[ "gameId" := Num (Qc_of_Z gid); "gameDate" := Date day; "team" := Str "BOS";
     "playerId" := Num (Qc_of_Z 8478402); "icetime_min" := Num (Qc_of_Z toi);
     "goals" := Num (Qc_of_Z goals) ]}.

Definition example_skaters : DataFrame :=
  {| columns := ["gameId"; "gameDate"; "team"; "playerId"; "icetime_min"; "goals"];
     rows := [ skater_game 1 1 20 1; skater_game 2 2 0 0; skater_game 3 3 15 2 ] |}.

(** A cleaned goalie table with player ids and no ice-time column under any
    of its aliases. *)
Definition goalie_game (gid day ga sa : Z) : row :=
  {[ "gameId" := Num (Qc_of_Z gid); "gameDate" := Date day; "team" := Str "BOS";
     "playerId" := Num (Qc_of_Z 8471695); "goalsAgainst" := Num (Qc_of_Z ga);
     "shotsAgainst" := Num (Qc_of_Z sa) ]}.

Definition example_goalies : DataFrame :=
  {| columns := ["gameId"; "gameDate"; "team"; "playerId"; "goalsAgainst"; "shotsAgainst"];
     rows := [ goalie_game 1 1 2 30; goalie_game 2 2 3 0; goalie_game 3 3 1 25 ] |}.


(** Team model tables.  [model_row season gf xgf]: one feature, the target
    [y_goalsFor], and the target [y_xGoalsFor] where it is known. *)
Definition model_row (season gf : Z) (xgf : option Z) : row :=
  {[ "season" := Num (Qc_of_Z season); "team_5_goalsFor" := Num (Qc_of_Z 3);
     "y_goalsFor" := Num (Qc_of_Z gf);
     "y_xGoalsFor" := from_option (fun x => Num (Qc_of_Z x)) NA xgf ]}.

Definition MODEL_COLUMNS : list string :=
  ["season"; "team_5_goalsFor"; "y_goalsFor"; "y_xGoalsFor"].

(** Two seasons; expected goals are known in the latest season only. *)
Definition example_model_table : DataFrame :=
  {| columns := MODEL_COLUMNS;
     rows := [ model_row 2022 3 None; model_row 2022 2 None;
               model_row 2023 4 (Some 3%Z); model_row 2023 1 (Some 2%Z) ] |}.

(** One season only: no target has a training split. *)
Definition example_single_season : DataFrame :=
  {| columns := MODEL_COLUMNS;
     rows := [ model_row 2023 4 (Some 3%Z); model_row 2023 1 (Some 2%Z) ] |}.

(** Two seasons, and a holdout target so large that every candidate that
    predicts 0 is off by at least [10^18]. *)
Definition example_huge_target : DataFrame :=
  {| columns := MODEL_COLUMNS;
     rows := [ model_row 2022 3 None; model_row 2023 (2 * 10 ^ 18) None ] |}.

(** Stand-ins for scikit-learn: a fitted pipeline remembers only which
    candidate it is, and each candidate predicts a constant: ridge 3, hgb 2,
    rf 0. *)
Definition example_fit (s : train_models_team.strategy) (X : list (list cell))
    (y : list Qc) : train_models_team.strategy := s.

Definition example_model_predict (m : train_models_team.strategy)
    (X : list (list cell)) : list Qc :=
  (fun _ => match m with
            | train_models_team.ridge => Qc_of_Z 3
            | train_models_team.hgb => Qc_of_Z 2
            | train_models_team.rf => Qc_of_Z 0
            end) <$> X.

Definition example_sqrt (x : Qc) : Qc := x.

(** A library instance that reads its own printed dates back. *)
Definition example_lib_dates : Lib :=
  {| str_na := "nan"; str_num := fun _ => "0"; str_inf := fun _ => "inf";
     str_date := fun _ => "1970-01-01 00:00:00";
     parse_number := fun _ => NA;
     to_datetime_ymd := fun _ => Date 0;
     to_datetime := fun s => if bool_decide (s = "1970-01-01 00:00:00") then Date 0
                             else NA |}.

(** A server that fails twice and then answers, one that is down, and a disk
    with nothing on it. *)
Definition example_server (n : nat) (url : string) : string + string :=
  if (n <? 2)%nat then inr "503 Service Unavailable" else inl "team,season".

Definition example_server_down (n : nat) (url : string) : string + string :=
  inr ("503 Service Unavailable, request " +:+ pretty n).

Definition example_world : common.world :=
  {| common.disk := ∅; common.requests := []; common.slept := [] |}.

(** A folder of team files: one table that names no team, and a file that
    is no table. *)
Definition example_team_file : DataFrame :=
  {| columns := ["gameDate"; "season"; "goalsFor"];
     rows := [ {[ "gameDate" := Str "20240105"; "season" := Num (Qc_of_Z 2023);
                  "goalsFor" := Num (Qc_of_Z 3) ]};
               {[ "gameDate" := Str "20190105"; "season" := Num (Qc_of_Z 2018);
                  "goalsFor" := Num (Qc_of_Z 1) ]} ] |}.

Definition example_folder : list (string * DataFrame) :=
  [ ("LAK.csv", example_team_file); ("README.txt", example_raw_file) ].

(** The games of "BOS" of [example_bos] among other games of other teams. *)
Definition example_bos_elsewhere : DataFrame :=
  {| columns := ["team"; "gameDate"; "goalsFor"];
     rows := [ game "MTL" 1 7; game "BOS" 3 6; game "BOS" 1 2; game "BOS" 2 4;
               game "BOS" 6 12; game "BOS" 5 10; game "BOS" 4 8; game "MTL" 9 0;
               game "ANA" 3 3 ] |}.

(** A week of the schedule endpoint: a regular-season game, a pre-season
    game and a game without a home team, all on day 0. *)
Definition example_week : list project_upcoming.api_day :=
  [ {| project_upcoming.day_date := Str "1970-01-01 00:00:00";
       project_upcoming.day_games :=
         [ project_upcoming.mkGame (Num (Qc_of_Z 2023020001)) (Str "1970-01-01T23:00:00Z")
             (Str "BOS") (Str "TOR") (Num (Qc_of_Z 2));
           project_upcoming.mkGame (Num (Qc_of_Z 2023010002)) (Str "1970-01-01T23:00:00Z")
             (Str "MTL") (Str "OTT") (Num (Qc_of_Z 1));
           project_upcoming.mkGame (Num (Qc_of_Z 2023020003)) (Str "1970-01-01T23:30:00Z")
             NA (Str "NYR") (Num (Qc_of_Z 2)) ] |} ].

Definition example_isoformat (d : Z) : string := "1970-01-01".

(** The folders of the skater files: one season, one file. *)
Definition example_folders (season : Z) : option (list (string * DataFrame)) :=
  if bool_decide (season = 2023%Z) then Some [("BOS.csv", example_skaters)] else None.

(** Two games of "BOS" on one day. *)
Definition example_same_day : DataFrame :=
  {| columns := ["team"; "gameDate"; "goalsFor"];
     rows := [ game "BOS" 1 2; game "BOS" 1 4 ] |}.



End examples.

Export examples.

(** * Properties *)

(** ** Tables: columns and cells under assignment *)

Section TableFacts.

Implicit Types (df : DataFrame) (r : row) (c : string).

Lemma has_col_true df c : has_col df c = true ↔ c ∈ columns df.
Proof. unfold has_col. apply bool_decide_eq_true. Qed.

Lemma has_col_false df c : has_col df c = false ↔ c ∉ columns df.
Proof. unfold has_col. apply bool_decide_eq_false. Qed.

Lemma get_insert r c c' v :
  get (<[c := v]> r) c' = if decide (c = c') then v else get r c'.
Proof.
  unfold get. rewrite lookup_insert. by destruct (decide (c = c')).
Qed.

Lemma get_insert_eq r c v : get (<[c := v]> r) c = v.
Proof. rewrite get_insert. by rewrite decide_True. Qed.

Lemma get_insert_ne r c c' v : c ≠ c' → get (<[c := v]> r) c' = get r c'.
Proof. intros. rewrite get_insert. by rewrite decide_False. Qed.

Lemma columns_set_column c vals df :
  columns (set_column c vals df)
  = if has_col df c then columns df else columns df ++ [c].
Proof. done. Qed.

Lemma has_col_set_column c vals df c' :
  has_col (set_column c vals df) c' = has_col df c' || bool_decide (c' = c).
Proof.
  apply eq_true_iff_eq. rewrite orb_true_iff, !has_col_true, bool_decide_eq_true.
  rewrite columns_set_column. destruct (has_col df c) eqn:Hc.
  - apply has_col_true in Hc. split; [auto|]. intros [?| ->]; done.
  - rewrite elem_of_app, list_elem_of_singleton. done.
Qed.

Lemma has_col_set_column_same c vals df : has_col (set_column c vals df) c = true.
Proof. rewrite has_col_set_column, bool_decide_true by done. apply orb_true_r. Qed.

Lemma has_col_set_column_mono c vals df c' :
  has_col df c' = true → has_col (set_column c vals df) c' = true.
Proof. intros H. by rewrite has_col_set_column, H. Qed.

Lemma rows_map_column c (f : row → cell) df :
  rows (map_column c f df) = (fun r => <[c := f r]> r) <$> rows df.
Proof.
  unfold map_column, set_column; simpl.
  rewrite zip_with_fmap_r. apply zip_with_diag.
Qed.

Lemma nrows_map_column c (f : row → cell) df :
  nrows (map_column c f df) = nrows df.
Proof. unfold nrows. by rewrite rows_map_column, length_fmap. Qed.

Lemma has_col_map_column c (f : row → cell) df c' :
  has_col (map_column c f df) c' = has_col df c' || bool_decide (c' = c).
Proof. apply has_col_set_column. Qed.

Lemma get_map_column c (f : row → cell) df r' :
  r' ∈ rows (map_column c f df) →
  ∃ r, r ∈ rows df ∧ r' = <[c := f r]> r.
Proof.
  rewrite rows_map_column. intros (r & -> & Hr)%list_elem_of_fmap. eauto.
Qed.

End TableFacts.

(** ** The schema normaliser *)

Section NormaliserFacts.
Import common moneypuck_scrape.

Variable L : Lib.

Lemma has_col_alias_column target cands df c :
  c ≠ target →
  has_col (alias_column target cands df) c = has_col df c.
Proof.
  intros Hne. unfold alias_column.
  destruct (has_col df target); [done|].
  destruct (truthy _); [|done].
  rewrite has_col_map_column, bool_decide_false by done. apply orb_false_r.
Qed.

Lemma nrows_alias_column target cands df :
  nrows (alias_column target cands df) = nrows df.
Proof.
  unfold alias_column. destruct (has_col df target); [done|].
  destruct (truthy _); [|done]. apply nrows_map_column.
Qed.

Lemma standardize_unfold df :
  standardize_team_game_cols L df
  = if has_col (standardize_aliases L df) "situation" then standardize_aliases L df
    else map_column "situation" (fun _ => Str "all") (standardize_aliases L df).
Proof. done. Qed.

Lemma has_situation_before (df : DataFrame) :
  has_col (standardize_aliases L df) "situation" = has_col df "situation".
Proof.
  unfold standardize_aliases.
  rewrite has_col_alias_column by done.
  set (d3 := alias_column "gameId" _ _).
  assert (has_col d3 "situation" = has_col df "situation") as <-.
  { unfold d3. by rewrite !has_col_alias_column. }
  destruct (has_col d3 "gameDate").
  - rewrite has_col_map_column, bool_decide_false by done. apply orb_false_r.
  - destruct (truthy _); [|done].
    rewrite has_col_map_column, bool_decide_false by done. apply orb_false_r.
Qed.

Lemma nrows_standardize_aliases (df : DataFrame) : nrows (standardize_aliases L df) = nrows df.
Proof.
  unfold standardize_aliases. rewrite nrows_alias_column.
  set (d3 := alias_column "gameId" _ _).
  assert (nrows d3 = nrows df) as <-.
  { unfold d3. by rewrite !nrows_alias_column. }
  destruct (has_col d3 "gameDate"); [apply nrows_map_column|].
  destruct (truthy _); [apply nrows_map_column|done].
Qed.

Lemma standardize_has_situation df :
  has_col (standardize_team_game_cols L df) "situation" = true.
Proof.
  rewrite standardize_unfold.
  destruct (has_col (standardize_aliases L df) "situation") eqn:H; [done|].
  apply has_col_set_column_same.
Qed.

Lemma standardize_situation_all df r :
  has_col df "situation" = false →
  r ∈ rows (standardize_team_game_cols L df) →
  get r "situation" = Str "all".
Proof.
  intros Hno. rewrite standardize_unfold, has_situation_before, Hno.
  intros (r0 & _ & ->)%get_map_column. apply get_insert_eq.
Qed.

Lemma situation_all_passes r :
  get r "situation" = Str "all" → situation_is_all L r = true.
Proof.
  intros H. unfold situation_is_all. by rewrite H.
Qed.

Lemma elem_of_concat_rows (dfs : list DataFrame) d out r :
  concat dfs = Ok out → d ∈ dfs → r ∈ rows d → r ∈ rows out.
Proof.
  unfold concat. destruct dfs as [|d0 dfs']; [done|].
  intros [= <-] Hd Hr. simpl rows.
  change (r ∈ mjoin (rows <$> d0 :: dfs')).
  apply list_elem_of_join. exists (rows d). split; [done|].
  apply list_elem_of_fmap. eauto.
Qed.

Lemma concat_has_col (dfs : list DataFrame) d out c :
  concat dfs = Ok out → d ∈ dfs → has_col d c = true → has_col out c = true.
Proof.
  unfold concat. destruct dfs as [|d0 dfs']; [done|].
  intros [= <-] Hd Hc. apply has_col_true. simpl columns.
  apply elem_of_reverse, elem_of_remove_dups, elem_of_reverse.
  change (c ∈ mjoin (columns <$> d0 :: dfs')).
  apply list_elem_of_join. exists (columns d). split; [by apply has_col_true|].
  apply list_elem_of_fmap. eauto.
Qed.

End NormaliserFacts.

(** C10. [standardize_team_game_cols] always returns a table with a
    [situation] column and as many rows as its input.  When the input has no
    such column, every row reads ["all"] there, and in the loader, where the
    standardised files are concatenated and filtered on
    [situation == "all"], the filter does not raise and keeps every one of
    these rows. *)
Theorem situation_default (L : Lib) (df : DataFrame) :
  has_col (common.standardize_team_game_cols L df) "situation" = true
  ∧ nrows (common.standardize_team_game_cols L df) = nrows df
  ∧ (has_col df "situation" = false →
     (∀ r, r ∈ rows (common.standardize_team_game_cols L df) →
           get r "situation" = Str "all")
     ∧ ∀ files, df ∈ files →
         ∃ kept, moneypuck_scrape.load_standardized L files = Ok kept
                 ∧ ∀ r, r ∈ rows (common.standardize_team_game_cols L df) →
                        r ∈ rows kept).
Proof.
  split; [apply standardize_has_situation|]. split.
  { rewrite standardize_unfold.
    destruct (has_col _ "situation"); [|rewrite nrows_map_column];
      apply nrows_standardize_aliases. }
  intros Hno. split; [intros r; by apply standardize_situation_all|].
  intros files Hin. unfold moneypuck_scrape.load_standardized.
  assert (common.standardize_team_game_cols L df
          ∈ common.standardize_team_game_cols L <$> files) as Hin'.
  { apply list_elem_of_fmap. eauto. }
  destruct (moneypuck_scrape.concat (common.standardize_team_game_cols L <$> files))
    as [all_df| | | |] eqn:Hc;
    try (destruct files; [by apply elem_of_nil in Hin|discriminate Hc]).
  simpl. unfold moneypuck_scrape.filter_situation_all.
  rewrite (concat_has_col _ _ _ _ Hc Hin' (standardize_has_situation L df)).
  eexists. split; [done|]. intros r Hr. simpl.
  apply list_elem_of_filter. split.
  - apply situation_all_passes. by apply (standardize_situation_all L df).
  - by eapply elem_of_concat_rows.
Qed.

Lemma situation_default_witness :
  has_col example_raw_file "situation" = false
  ∧ ∀ files, example_raw_file ∈ files →
      ∃ kept, moneypuck_scrape.load_standardized example_lib files = Ok kept
              ∧ ∀ r, r ∈ rows (common.standardize_team_game_cols example_lib
                                 example_raw_file) →
                     r ∈ rows kept.
Proof.
  split; [reflexivity|].
  apply (situation_default example_lib example_raw_file). reflexivity.
Defined.


(** ** Team codes *)

Section TeamCodes.
Import common build_features.

Variable L : Lib.

Lemma TEAM_MAP_entries k v :
  TEAM_MAP !! k = Some v
  ↔ (k, v) ∈ [("LA", "LAK"); ("NJ", "NJD"); ("SJ", "SJS"); ("TB", "TBL"); ("WAS", "WSH")].
Proof.
  unfold TEAM_MAP. rewrite <- elem_of_list_to_map; [done|].
  compute_done.
Qed.



(** What [normalize_team_col] does to one row. *)
Lemma normalize_team_col_rows col df :
  Forall2 (fun r r' => ∀ c,
             get r' c = if bool_decide (c = col) && has_col df col
                        then Str (normalize_code (astype_str L (get r c)))
                        else get r c)
    (rows df) (rows (normalize_team_col L col df)).
Proof.
  unfold normalize_team_col.
  destruct (has_col df col) eqn:Hc.
  - rewrite rows_map_column. apply Forall2_fmap_r, Forall_Forall2_diag, Forall_forall.
    intros r _ c. rewrite get_insert.
    destruct (decide (col = c)) as [->|Hne].
    + by rewrite bool_decide_true.
    + by rewrite bool_decide_false.
  - apply Forall_Forall2_diag, Forall_forall. intros r _ c.
    by rewrite andb_false_r.
Qed.

Lemma normalize_team_col_columns col df :
  columns (normalize_team_col L col df) = columns df.
Proof.
  unfold normalize_team_col. destruct (has_col df col) eqn:Hc; [|done].
  unfold map_column. rewrite columns_set_column. by rewrite Hc.
Qed.

Lemma normalize_teams_columns df :
  columns (normalize_teams L df) = columns df.
Proof. unfold normalize_teams. by rewrite !normalize_team_col_columns. Qed.

Lemma normalize_teams_rows df :
  Forall2 (fun r r' => ∀ c,
             get r' c = if bool_decide (c ∈ ["team"; "team_opp"]) && has_col df c
                        then Str (normalize_code (astype_str L (get r c)))
                        else get r c)
    (rows df) (rows (normalize_teams L df)).
Proof.
  unfold normalize_teams.
  pose proof (normalize_team_col_rows "team" df) as H1.
  pose proof (normalize_team_col_rows "team_opp" (normalize_team_col L "team" df)) as H2.
  apply Forall2_same_length_lookup_2.
  { etrans; by eapply Forall2_length. }
  intros i r r2 Hr Hr2.
  destruct (Forall2_lookup_l _ _ _ _ _ H1 Hr) as (r1 & Hr1 & E1).
  destruct (Forall2_lookup_l _ _ _ _ _ H2 Hr1) as (r2' & Hr2' & E2).
  assert (r2' = r2) as -> by congruence.
  intros c. rewrite E2, !E1.
  assert (has_col (normalize_team_col L "team" df) "team_opp" = has_col df "team_opp") as ->.
  { unfold has_col. by rewrite normalize_team_col_columns. }
  destruct (decide (c = "team_opp")) as [->|Hopp].
  - simpl. by destruct (has_col df "team_opp").
  - rewrite (bool_decide_false (c = "team_opp")) by done. simpl.
    destruct (decide (c = "team")) as [->|Hteam].
    + done.
    + rewrite (bool_decide_false (c = "team")) by done.
      rewrite bool_decide_false; [done|].
      rewrite !elem_of_cons, elem_of_nil. tauto.
Qed.

End TeamCodes.




(** ** Ordering of cells and rows; [sort_values] *)

Section Ordering.

#[local] Instance cell_le_refl : Reflexive cell_le.
Proof. intros [| | [] | |]; simpl; done. Qed.

#[local] Instance cell_le_trans : Transitive cell_le.
Proof.
  intros [|x|[]|s|d] [|y|[]|t|e] [|z|[]|u|f]; simpl; try lia; try done.
  - apply transitivity.
  - apply transitivity.
Qed.

#[local] Instance cell_le_antisym : AntiSymm (=) cell_le.
Proof.
  intros [|x|[]|s|d] [|y|[]|t|e]; simpl; try lia; try done.
  - intros ??. f_equal. by apply (anti_symm Qcle).
  - intros ??. f_equal. by apply (anti_symm String.le).
  - intros ??. f_equal. lia.
Qed.

#[local] Instance cell_le_total : Total cell_le.
Proof.
  intros [|x|[]|s|d] [|y|[]|t|e]; simpl; try lia.
  - apply (total Qcle).
  - apply (total String.le).
Qed.

Lemma lex_le_refl k : lex_le k k.
Proof. induction k; simpl; [done|]. split; [reflexivity|done]. Qed.

Lemma lex_le_trans k1 k2 k3 : lex_le k1 k2 → lex_le k2 k3 → lex_le k1 k3.
Proof.
  revert k2 k3. induction k1 as [|a k1 IH]; intros [|b k2] [|c k3]; simpl; try done.
  intros [Hab H1] [Hbc H2]. split; [by etrans|].
  intros ->.
  assert (b = c) as -> by (by apply (anti_symm cell_le)).
  eauto.
Qed.

Lemma lex_le_total k1 k2 :
  length k1 = length k2 → lex_le k1 k2 ∨ lex_le k2 k1.
Proof.
  revert k2. induction k1 as [|a k1 IH]; intros [|b k2]; simpl; try done; [by left|].
  intros [= Hlen]. destruct (decide (a = b)) as [->|Hne].
  - destruct (IH k2 Hlen); [left|right]; (split; [reflexivity|done]).
  - destruct (total cell_le a b); [left|right]; (split; [done|congruence]).
Qed.

(** Keys that share a prefix are ordered by what follows it. *)
Lemma lex_le_app k k1 k2 : lex_le (k ++ k1) (k ++ k2) ↔ lex_le k1 k2.
Proof.
  induction k as [|a k IH]; simpl; [done|].
  rewrite <- IH. split; [intros [_ H]; by apply H|].
  intros H. split; [reflexivity|done].
Qed.

Lemma key_app by1 by2 r : key (by1 ++ by2) r = key by1 r ++ key by2 r.
Proof. unfold key. apply fmap_app. Qed.

Lemma length_key by_ r : length (key by_ r) = length by_.
Proof. unfold key. apply length_fmap. Qed.

Variable by_ : list string.

#[local] Instance row_le_trans : Transitive (row_le by_).
Proof. intros r1 r2 r3. apply lex_le_trans. Qed.

#[local] Instance row_le_total : Total (row_le by_).
Proof. intros r1 r2. apply lex_le_total. by rewrite !length_key. Qed.

Lemma insert_row_Permutation x l : insert_row by_ x l ≡ₚ x :: l.
Proof.
  induction l as [|y l IH]; simpl; [done|].
  destruct (decide (row_le by_ x y)); [done|].
  rewrite IH. apply Permutation_swap.
Qed.

Lemma sort_rows_Permutation l : sort_rows by_ l ≡ₚ l.
Proof.
  induction l as [|x l IH]; simpl; [done|].
  by rewrite insert_row_Permutation, IH.
Qed.

Lemma length_sort_rows l : length (sort_rows by_ l) = length l.
Proof. apply Permutation_length, sort_rows_Permutation. Qed.

Lemma insert_row_sorted x l :
  StronglySorted (row_le by_) l → StronglySorted (row_le by_) (insert_row by_ x l).
Proof.
  induction 1 as [|y l Hl IH Hy]; simpl.
  - repeat constructor.
  - destruct (decide (row_le by_ x y)) as [Hxy|Hxy].
    + constructor; [by constructor|].
      constructor; [done|].
      eapply Forall_impl; [exact Hy|]. intros z Hz. by etrans.
    + constructor; [done|].
      rewrite insert_row_Permutation. constructor; [|done].
      by destruct (total (row_le by_) x y).
Qed.

Lemma sort_rows_sorted l : StronglySorted (row_le by_) (sort_rows by_ l).
Proof.
  induction l as [|x l IH]; simpl; [constructor|]. by apply insert_row_sorted.
Qed.

(** In a sorted table an earlier row is never above a later one. *)
Lemma sorted_lookup_le (l : list row) i j ri rj :
  StronglySorted (row_le by_) l →
  l !! i = Some ri → l !! j = Some rj → i ≤ j → row_le by_ ri rj.
Proof.
  intros Hs. revert i j. induction Hs as [|x l Hl IH Hx]; intros i j Hi Hj Hij.
  - by rewrite lookup_nil in Hi.
  - destruct i as [|i], j as [|j]; simpl in *; simplify_eq.
    + unfold row_le. apply lex_le_refl.
    + rewrite Forall_forall in Hx. apply Hx. by eapply list_elem_of_lookup_2.
    + lia.
    + eapply IH; eauto. lia.
Qed.

(** Sorting looks at keys only: two tables whose rows are pairwise related
    by a relation that preserves keys are sorted into tables whose rows are
    again pairwise related. *)
Lemma insert_row_related (R : row → row → Prop) x x' l l' :
  (∀ r r', R r r' → key by_ r = key by_ r') →
  R x x' → Forall2 R l l' →
  Forall2 R (insert_row by_ x l) (insert_row by_ x' l').
Proof.
  intros HR Hx Hl. induction Hl as [|y y' l l' Hy Hl IH]; simpl.
  - by repeat constructor.
  - assert (row_le by_ x y ↔ row_le by_ x' y') as Hiff.
    { unfold row_le. by rewrite (HR _ _ Hx), (HR _ _ Hy). }
    destruct (decide (row_le by_ x y)), (decide (row_le by_ x' y')); try tauto.
    + by repeat constructor.
    + by constructor.
Qed.

Lemma sort_rows_related (R : row → row → Prop) l l' :
  (∀ r r', R r r' → key by_ r = key by_ r') →
  Forall2 R l l' →
  Forall2 R (sort_rows by_ l) (sort_rows by_ l').
Proof.
  intros HR Hl. induction Hl; simpl; [constructor|].
  by apply insert_row_related.
Qed.

End Ordering.

Lemma sort_values_ok by_ df :
  missing_col df by_ = None →
  sort_values by_ df = Ok {| columns := columns df; rows := sort_rows by_ (rows df) |}.
Proof. intros H. unfold sort_values. by rewrite H. Qed.

Lemma missing_col_None df cs :
  missing_col df cs = None ↔ ∀ c, c ∈ cs → has_col df c = true.
Proof.
  induction cs as [|c cs IH]; simpl.
  - split; [|done]. intros _ c Hc. by apply elem_of_nil in Hc.
  - destruct (has_col df c) eqn:Hc.
    + rewrite IH. split.
      * intros H c' [->|?]%elem_of_cons; auto.
      * intros H c' ?. apply H. by right.
    + split; [done|]. intros H. specialize (H c (list_elem_of_here _ _)). congruence.
Qed.

(** ** Shifted rolling means *)

Section Rolling.
Import build_features history.

Lemma nanmean_cons_NA l : nanmean (NA :: l) = nanmean l.
Proof. done. Qed.

Lemma length_shift1 x : length (shift1 x) = length x.
Proof. unfold shift1. rewrite length_take. simpl. lia. Qed.

Lemma last_n_fmap {A B} (f : A → B) n l : last_n n (f <$> l) = f <$> last_n n l.
Proof. unfold last_n. by rewrite length_fmap, fmap_drop. Qed.

(** The window of the shifted series that ends at place [k] holds the
    [min w k] values before place [k] of the series itself (and, when the
    window reaches the start, the missing value that the shift puts there). *)
Lemma window_shift1 w k x :
  0 < w → k < length x →
  nanmean (window w k (shift1 x)) = nanmean (last_n (min w k) (take k x)).
Proof.
  intros Hw Hk. unfold window, shift1, last_n.
  rewrite length_take, (Nat.min_l k (length x)) by lia.
  destruct (decide (k < w)) as [Hlt|Hge].
  - replace (S k - w) with 0 by lia. replace (k - min w k) with 0 by lia.
    rewrite !drop_0, take_take.
    replace (min (min w (S k)) (length x)) with (S k) by lia.
    done.
  - replace (min w (S k)) with w by lia. replace (k - min w k) with (k - w) by lia.
    replace (S k - w) with (S (k - w)) by lia.
    f_equal.
    replace (length x) with (S (k - w) + (length x - S (k - w))) at 1 by lia.
    rewrite <- take_drop_commute. simpl drop.
    rewrite take_take. replace (min w (length x - S (k - w))) with w by lia.
    rewrite take_drop_commute. by replace (k - w + w) with k by lia.
Qed.

Lemma prep_values_shift1 x : prep_values (shift1 x) = shift1 (prep_values x).
Proof.
  unfold shift1, prep_values. by rewrite fmap_take, length_fmap.
Qed.

Lemma rolling_shift_lookup w k x :
  0 < w → k < length x →
  rolling_mean w (shift1 x) !! k
  = Some (nanmean (last_n (min w k) (take k (prep_values x)))).
Proof.
  intros Hw Hk. unfold rolling_mean. cbv zeta.
  rewrite prep_values_shift1, list_lookup_imap.
  assert (length (prep_values x) = length x) as Hlen
    by (unfold prep_values; by rewrite length_fmap).
  destruct (lookup_lt_is_Some_2 (shift1 (prep_values x)) k) as [v ->].
  { by rewrite length_shift1, Hlen. }
  simpl. f_equal. apply window_shift1; [done|]. by rewrite Hlen.
Qed.

(** The group of a row, cut at the row's own place. *)
Lemma group_rows_split gcols (t : list row) i r :
  t !! i = Some r →
  group_rows gcols t r
  = group_rows gcols (take i t) r ++ r :: group_rows gcols (drop (S i) t) r.
Proof.
  intros Hi. unfold group_rows.
  rewrite <- (take_drop_middle t i r Hi) at 1.
  rewrite filter_app, filter_cons. by rewrite decide_True.
Qed.

(** What one pass of the inner loop writes at place [i]. *)
Lemma rolling_column_lookup gcols c w (t : list row) i r :
  t !! i = Some r →
  rolling_column gcols c w t !! i
  = Some (if existsb isna (key gcols r) then NA
          else mean_above gcols (fun g => inf_to_nan (get g c)) (Pos.to_nat w) t i r).
Proof.
  intros Hi. unfold rolling_column, groupby_apply.
  rewrite list_lookup_imap, Hi. simpl. f_equal.
  destruct (existsb isna (key gcols r)); [done|].
  unfold rank_in_group, mean_above, games_above.
  fold (group_rows gcols (take i t) r).
  set (past := group_rows gcols (take i t) r).
  rewrite (group_rows_split gcols t i r Hi). fold past.
  rewrite rolling_shift_lookup.
  - simpl. unfold prep_values. rewrite <- list_fmap_compose.
    rewrite fmap_app, take_app_length' by (by rewrite length_fmap).
    by rewrite last_n_fmap.
  - lia.
  - rewrite length_fmap, length_app. simpl. lia.
Qed.

Lemma length_rolling_column gcols c w (t : list row) :
  length (rolling_column gcols c w t) = length t.
Proof. unfold rolling_column, groupby_apply. apply length_imap. Qed.

(** The first game of an entity has no prior game, hence no value. *)
Lemma mean_above_first gcols value W t i r :
  games_above gcols t i r = [] → mean_above gcols value W t i r = NA.
Proof. unfold mean_above. by intros ->. Qed.

End Rolling.

(** ** Feature labels *)

Section FeatureNames.
Import build_features.

Lemma app_String a s1 s2 : String a s1 +:+ s2 = String a (s1 +:+ s2).
Proof. done. Qed.

Lemma all_digits_pretty_N_go x s :
  all_digits s = true → all_digits (pretty_N_go x s) = true.
Proof.
  revert s. induction (N.lt_wf_0 x) as [x _ IH]; intros s Hs.
  assert (x = 0 ∨ 0 < x)%N as [->|?] by lia; [by rewrite pretty_N_go_0|].
  rewrite pretty_N_go_step by done. apply IH; [by apply N.div_lt|].
  simpl. rewrite Hs, andb_true_r. unfold pretty_N_char. by repeat case_match.
Qed.

Lemma all_digits_pretty (w : positive) : all_digits (pretty w) = true.
Proof.
  unfold pretty, pretty_positive, pretty, pretty_N.
  rewrite decide_False by done. by apply all_digits_pretty_N_go.
Qed.

(** A run of digits ends at the first underscore. *)
Lemma digits_underscore_inj d d' c c' :
  all_digits d = true → all_digits d' = true →
  d +:+ String "_" c = d' +:+ String "_" c' → d = d' ∧ c = c'.
Proof.
  revert d'. induction d as [|a d IH]; intros [|a' d'] Hd Hd'.
  - by intros [= ->].
  - rewrite app_String. intros [= <- _]. simpl in Hd'. discriminate Hd'.
  - rewrite app_String. intros [= -> _]. simpl in Hd. discriminate Hd.
  - rewrite !app_String. intros [= -> H]. simpl in Hd, Hd'.
    apply andb_true_iff in Hd as [_ Hd]. apply andb_true_iff in Hd' as [_ Hd'].
    destruct (IH d' Hd Hd' H) as [-> ->]. done.
Qed.

(** The naming scheme is injective in the window and the source column. *)
Lemma feature_name_inj prefix w c w' c' :
  feature_name prefix w c = feature_name prefix w' c' → w = w' ∧ c = c'.
Proof.
  unfold feature_name. intros H%(inj (String.app prefix)).
  apply digits_underscore_inj in H as [Hw ->]; [|apply all_digits_pretty..].
  split; [|done]. by apply (inj pretty).
Qed.

End FeatureNames.

(** ** One pass of [rolling_features] on a table *)

Section RollWindow.
Import build_features history.

Variable L : Lib.
Variable gcols : list string.
Variable prefix : string.

Lemma key_insert_notin by_ n v (r : row) :
  n ∉ by_ → key by_ (<[n := v]> r) = key by_ r.
Proof.
  unfold key. induction by_ as [|b by_ IH]; [done|].
  intros Hn. apply not_elem_of_cons in Hn as [Hne Hn].
  rewrite !fmap_cons, get_insert_ne by done. f_equal. by apply IH.
Qed.

Lemma roll_window_lookup c w (g : list row) d i :
  rows (roll_window gcols prefix c g d w) !! i
  = (r ← rows d !! i; rg ← g !! i;
     Some (<[feature_name prefix w c :=
               if existsb isna (key gcols rg) then NA
               else mean_above gcols (fun x => inf_to_nan (get x c)) (Pos.to_nat w) g i rg]> r)).
Proof.
  unfold roll_window, set_column; simpl. rewrite lookup_zip_with.
  destruct (rows d !! i) as [r|] eqn:Hi; simpl; [|done].
  destruct (g !! i) as [rg|] eqn:Hg.
  - by rewrite (rolling_column_lookup _ _ _ _ _ _ Hg).
  - apply lookup_ge_None in Hg. rewrite (proj2 (lookup_ge_None _ _)); [done|].
    by rewrite length_rolling_column.
Qed.

Lemma roll_window_lookup_Some c w (g : list row) d i o :
  rows (roll_window gcols prefix c g d w) !! i = Some o →
  ∃ r rg, rows d !! i = Some r ∧ g !! i = Some rg
    ∧ o = <[feature_name prefix w c :=
              if existsb isna (key gcols rg) then NA
              else mean_above gcols (fun x => inf_to_nan (get x c)) (Pos.to_nat w) g i rg]> r.
Proof.
  rewrite roll_window_lookup.
  destruct (rows d !! i) as [r|]; simpl; [|done].
  destruct (g !! i) as [rg|]; simpl; [|done].
  intros [= <-]. eauto.
Qed.

Lemma length_roll_window c w (g : list row) d :
  length g = length (rows d) →
  length (rows (roll_window gcols prefix c g d w)) = length (rows d).
Proof.
  intros Hg. unfold roll_window, set_column; simpl.
  rewrite length_zip_with, length_rolling_column. lia.
Qed.

Lemma has_col_roll_window c w (g : list row) d c' :
  has_col d c' = true → has_col (roll_window gcols prefix c g d w) c' = true.
Proof. apply has_col_set_column_mono. Qed.

Lemma fmap_related {A B C} (f : A → C) (g : B → C) l k :
  Forall2 (fun a b => f a = g b) l k → f <$> l = g <$> k.
Proof. induction 1 as [|???? H ? IH]; [done|]. by rewrite !fmap_cons, H, IH. Qed.

(** The mean over the prior games only reads group keys and values. *)
Lemma mean_above_agree (v0 v : row → cell) W (s t : list row) i r0 r :
  Forall2 (fun r0 r => key gcols r = key gcols r0 ∧ v r = v0 r0) s t →
  key gcols r = key gcols r0 →
  mean_above gcols v W t i r = mean_above gcols v0 W s i r0.
Proof.
  intros HF Hk. unfold mean_above, games_above.
  assert (Forall2 (fun r0 r => key gcols r = key gcols r0 ∧ v r = v0 r0)
            (filter (fun g => key gcols g = key gcols r0) (take i s))
            (filter (fun g => key gcols g = key gcols r) (take i t))) as HG.
  { apply Forall2_filter; [|by apply Forall2_take].
    intros x y [Hxy _]. by rewrite Hxy, Hk. }
  rewrite <- (Forall2_length _ _ _ HG). f_equal. symmetry.
  apply fmap_related. unfold last_n.
  rewrite <- (Forall2_length _ _ _ HG).
  eapply Forall2_impl; [by apply Forall2_drop|]. by intros ?? [_ ?].
Qed.

End RollWindow.

(** ** The loops of [rolling_features] *)

Section RollingLoops.
Import build_features history.

Variable L : Lib.
Variable gcols : list string.
Variable prefix : string.
Variables value_cols : list string.
Variable windows : list positive.

(** The sorted input [s], and the column and window under study. *)
Variable s : list row.
Variable c : string.
Variable w : positive.

Hypothesis value_not_key : ∀ c', c' ∈ value_cols → c' ∉ gcols.
Hypothesis feature_fresh : ∀ c' w', c' ∈ value_cols → w' ∈ windows →
  feature_name prefix w' c' ∉ gcols ++ value_cols.
Hypothesis c_value : c ∈ value_cols.
Hypothesis w_window : w ∈ windows.

(** A table in the loop still has the group keys and, up to coercion, the
    values of the sorted input. *)
Local Abbreviation agree t :=
  (Forall2 (fun r0 r : row =>
              key gcols r = key gcols r0
              ∧ ∀ c', c' ∈ value_cols →
                  to_numeric L (get r c') = to_numeric L (get r0 c')) s t).

(** Column [c'] has been coerced. *)
Local Abbreviation coerced c' t :=
  (Forall (fun r : row => get r c' = to_numeric L (get r c')) t).

(** The feature column under study holds the mean of the prior games. *)
Local Abbreviation settled t :=
  (∀ i (r0 o : row), s !! i = Some r0 → t !! i = Some o →
     get o (feature_name prefix w c)
     = if existsb isna (key gcols r0) then NA
       else mean_above gcols (fun g => inf_to_nan (to_numeric L (get g c))) (Pos.to_nat w) s i r0).

Lemma to_numeric_is_float x : is_float (to_numeric L x) = true.
Proof.
  destruct x; simpl; try done.
  destruct (is_float (parse_number L s0)) eqn:H; done.
Qed.

Lemma to_numeric_float x : is_float x = true → to_numeric L x = x.
Proof. by destruct x. Qed.

Lemma to_numeric_idemp x : to_numeric L (to_numeric L x) = to_numeric L x.
Proof. apply to_numeric_float, to_numeric_is_float. Qed.

Lemma roll_window_keeps c' w' (g : list row) d :
  c' ∈ value_cols → w' ∈ windows →
  agree g → coerced c' g → agree (rows d) →
  agree (rows (roll_window gcols prefix c' g d w'))
  ∧ (settled (rows d) ∨ (c' = c ∧ w' = w) →
     settled (rows (roll_window gcols prefix c' g d w'))).
Proof.
  intros Hc' Hw' Hg Hco Hag.
  pose proof (feature_fresh c' w' Hc' Hw') as Hfr.
  apply not_elem_of_app in Hfr as [Hfr1 Hfr2].
  assert (∀ c'', c'' ∈ value_cols → feature_name prefix w' c' ≠ c'') as Hne.
  { intros c'' ? Heq. by rewrite Heq in Hfr2. }
  split.
  - apply Forall2_same_length_lookup_2.
    { rewrite length_roll_window; [by eapply Forall2_length|].
      by rewrite <- (Forall2_length _ _ _ Hg), <- (Forall2_length _ _ _ Hag). }
    intros i r0 o Hr0 Ho.
    apply roll_window_lookup_Some in Ho as (r & rg & Hr & Hrg & ->).
    destruct (Forall2_lookup_lr _ _ _ _ _ _ Hag Hr0 Hr) as [Hk Hv].
    split; [by rewrite key_insert_notin|].
    intros c'' Hc''. rewrite get_insert_ne by auto. auto.
  - intros Hset i r0 o Hr0 Ho.
    apply roll_window_lookup_Some in Ho as (r & rg & Hr & Hrg & ->).
    destruct (decide (feature_name prefix w' c' = feature_name prefix w c))
      as [Heq|Hneq].
    + apply feature_name_inj in Heq as [-> ->]. rewrite get_insert_eq.
      destruct (Forall2_lookup_lr _ _ _ _ _ _ Hg Hr0 Hrg) as [Hk Hv].
      rewrite Hk. destruct (existsb isna (key gcols r0)); [done|].
      apply mean_above_agree; [|done].
      apply Forall2_same_length_lookup_2; [by eapply Forall2_length|].
      intros j a b Ha Hb.
      destruct (Forall2_lookup_lr _ _ _ _ _ _ Hg Ha Hb) as [Hk' Hv'].
      split; [done|].
      rewrite (Forall_lookup_1 _ _ _ _ Hco Hb). f_equal. by apply Hv'.
    + rewrite get_insert_ne by done.
      destruct Hset as [Hset|[-> ->]]; [by eapply Hset|done].
Qed.

Lemma roll_windows_keep c' ws (g : list row) d :
  c' ∈ value_cols → ws ⊆ windows →
  agree g → coerced c' g → agree (rows d) →
  agree (rows (foldl (roll_window gcols prefix c' g) d ws))
  ∧ (settled (rows d) ∨ (c' = c ∧ w ∈ ws) →
     settled (rows (foldl (roll_window gcols prefix c' g) d ws))).
Proof.
  intros Hc'. revert d. induction ws as [|w' ws IH]; intros d Hws Hg Hco Hag; simpl.
  - split; [done|]. intros [?|[_ H]]; [done|]. by apply elem_of_nil in H.
  - assert (w' ∈ windows) as Hw' by (apply Hws; left).
    assert (ws ⊆ windows) as Hws' by (intros x ?; apply Hws; by right).
    destruct (roll_window_keeps c' w' g d Hc' Hw' Hg Hco Hag) as (Hag' & Hset').
    destruct (IH _ Hws' Hg Hco Hag') as [Hag'' Hset''].
    split; [done|]. intros H. apply Hset''.
    destruct H as [H|[-> [->|H]%elem_of_cons]]; auto.
Qed.

Lemma has_col_roll_windows c' ws (g : list row) d x :
  has_col d x = true → has_col (foldl (roll_window gcols prefix c' g) d ws) x = true.
Proof.
  revert d. induction ws as [|w' ws IH]; intros d H; simpl; [done|].
  by apply IH, has_col_roll_window.
Qed.

Lemma roll_value_col_keeps c' d :
  c' ∈ value_cols →
  agree (rows d) →
  agree (rows (roll_value_col L gcols windows prefix d c'))
  ∧ (settled (rows d) ∨ (c' = c ∧ has_col d c = true) →
     settled (rows (roll_value_col L gcols windows prefix d c'))).
Proof.
  intros Hc' Hag. unfold roll_value_col.
  destruct (has_col d c') eqn:Hhas.
  - set (d1 := map_column c' (fun r => to_numeric L (get r c')) d).
    assert (agree (rows d1)) as Hag1.
    { unfold d1. rewrite rows_map_column. apply Forall2_fmap_r.
      eapply Forall2_impl; [exact Hag|]. intros r0 r [Hk Hv]. simpl.
      split; [by rewrite key_insert_notin by auto|].
      intros c'' Hc''. rewrite get_insert.
      destruct (decide (c' = c'')) as [<-|]; [|auto].
      rewrite to_numeric_idemp. auto. }
    assert (coerced c' (rows d1)) as Hco1.
    { unfold d1. rewrite rows_map_column. apply Forall_fmap, Forall_forall.
      intros r _. simpl. by rewrite get_insert_eq, to_numeric_idemp. }
    destruct (roll_windows_keep c' windows (rows d1) d1 Hc' (reflexivity _)
                Hag1 Hco1 Hag1) as [Hag2 Hset2].
    split; [done|]. intros H. apply Hset2.
    destruct H as [H|[-> _]]; [left|by right].
    intros i r0 o Hr0 Ho. unfold d1 in Ho. rewrite rows_map_column in Ho.
    rewrite list_lookup_fmap in Ho. apply fmap_Some in Ho as (r & Hr & ->).
    rewrite get_insert_ne; [by eapply H|].
    intros Heq.
    pose proof (feature_fresh c w c_value w_window) as Hfr.
    apply not_elem_of_app in Hfr as [_ Hfr]. by rewrite <- Heq in Hfr.
  - split; [done|]. intros [H|[-> Hc]]; [done|congruence].
Qed.

Lemma has_col_roll_value_col c' d x :
  has_col d x = true → has_col (roll_value_col L gcols windows prefix d c') x = true.
Proof.
  intros H. unfold roll_value_col. destruct (has_col d c'); [|done].
  apply has_col_roll_windows. by apply has_col_set_column_mono.
Qed.

Lemma roll_value_cols_keep cs d :
  cs ⊆ value_cols →
  agree (rows d) →
  agree (rows (foldl (roll_value_col L gcols windows prefix) d cs))
  ∧ (settled (rows d) ∨ (c ∈ cs ∧ has_col d c = true) →
     settled (rows (foldl (roll_value_col L gcols windows prefix) d cs))).
Proof.
  revert d. induction cs as [|c' cs IH]; intros d Hcs Hag; simpl.
  - split; [done|]. intros [?|[H _]]; [done|]. by apply elem_of_nil in H.
  - assert (c' ∈ value_cols) as Hc' by (apply Hcs; left).
    assert (cs ⊆ value_cols) as Hcs' by (intros x ?; apply Hcs; by right).
    destruct (roll_value_col_keeps c' d Hc' Hag) as [Hag' Hset'].
    destruct (IH _ Hcs' Hag') as [Hag'' Hset''].
    split; [done|]. intros H. apply Hset''.
    destruct H as [H|[[->|H]%elem_of_cons Hhas]]; auto.
    right. split; [done|]. by apply has_col_roll_value_col.
Qed.

End RollingLoops.

Lemma cell_is_Num (x : cell) (q : Qc) :
  match x with Num q' => Qeq_bool q' q | _ => false end = true → x = Num q.
Proof.
  destruct x; try done. intros H%Qeq_bool_eq. f_equal. by apply Qc_is_canon.
Qed.

(** The model run on the scenario: the window-5 feature of "BOS" on days 1
    to 6 is missing, 2, 3, 4, 5, 6. *)
Example rolling_example_values :
  match build_features.rolling_features example_lib example_bos ["team"] "gameDate"
          ["goalsFor"] build_features.WINDOWS "team_" with
  | Ok out =>
      (fun o => match get o "team_5_goalsFor" with
                | Num q => Some (this q)
                | _ => None
                end) <$> take 6 (rows out)
  | _ => []
  end
  = [None; Some (2 # 1); Some (3 # 1); Some (4 # 1); Some (5 # 1); Some (6 # 1)]%Q.
Proof. vm_compute. reflexivity. Qed.

(** ** What a row's features depend on *)

Section Causality.
Import build_features history.

Variable L : Lib.
Variable gcols : list string.
Variable prefix : string.
Variable windows : list positive.

Lemma mean_above_take v W (t : list row) n i r :
  i ≤ n → mean_above gcols v W (take n t) i r = mean_above gcols v W t i r.
Proof.
  intros Hi. unfold mean_above, games_above.
  rewrite take_take. by replace (min i n) with i by lia.
Qed.

Lemma has_col_columns d d' x : columns d = columns d' → has_col d x = has_col d' x.
Proof. unfold has_col. by intros ->. Qed.

(** Two tables with the same labels and the same first [n] rows. *)
Local Abbreviation same_prefix n d d' :=
  (columns d = columns d' ∧ take n (rows d) = take n (rows d')).

Lemma take_lookup_eq {A} n (l l' : list A) i :
  take n l = take n l' → i < n → l !! i = l' !! i.
Proof.
  intros H Hi. by rewrite <- (lookup_take_lt l n i), <- (lookup_take_lt l' n i), H.
Qed.

Lemma roll_window_prefix c w n (g g' : list row) d d' :
  take n g = take n g' →
  same_prefix n d d' →
  same_prefix n (roll_window gcols prefix c g d w) (roll_window gcols prefix c g' d' w).
Proof.
  intros Hg [Hcols Hrows]. split.
  - unfold roll_window. rewrite !columns_set_column.
    by rewrite (has_col_columns d d'), Hcols.
  - apply list_eq. intros i. rewrite !lookup_take.
    case_decide as Hi; [|done].
    rewrite !roll_window_lookup, <- (take_lookup_eq n _ _ i Hrows Hi),
      <- (take_lookup_eq n _ _ i Hg Hi).
    destruct (rows d !! i) as [r|]; [|done]. simpl.
    destruct (g !! i) as [rg|]; [|done]. simpl. do 2 f_equal.
    destruct (existsb isna (key gcols rg)); [done|].
    rewrite <- (mean_above_take _ _ g n), <- (mean_above_take _ _ g' n) by lia.
    by rewrite Hg.
Qed.

Lemma map_column_prefix x (f : row → cell) n d d' :
  same_prefix n d d' →
  same_prefix n (map_column x f d) (map_column x f d').
Proof.
  intros [Hcols Hrows]. split.
  - unfold map_column. rewrite !columns_set_column.
    by rewrite (has_col_columns d d'), Hcols.
  - by rewrite !rows_map_column, <- !fmap_take, Hrows.
Qed.

Lemma roll_windows_prefix c ws n (g g' : list row) d d' :
  take n g = take n g' →
  same_prefix n d d' →
  same_prefix n (foldl (roll_window gcols prefix c g) d ws)
    (foldl (roll_window gcols prefix c g') d' ws).
Proof.
  intros Hg. revert d d'. induction ws as [|w ws IH]; intros d d' H; simpl; [done|].
  by apply IH, roll_window_prefix.
Qed.

Lemma roll_value_col_prefix c n d d' :
  same_prefix n d d' →
  same_prefix n (roll_value_col L gcols windows prefix d c)
    (roll_value_col L gcols windows prefix d' c).
Proof.
  intros H. unfold roll_value_col.
  rewrite <- (has_col_columns d d') by apply H.
  destruct (has_col d c); [|done].
  pose proof (map_column_prefix c (fun r => to_numeric L (get r c)) n d d' H) as H1.
  apply roll_windows_prefix; [apply H1|exact H1].
Qed.

Lemma roll_value_cols_prefix cs n d d' :
  same_prefix n d d' →
  same_prefix n (foldl (roll_value_col L gcols windows prefix) d cs)
    (foldl (roll_value_col L gcols windows prefix) d' cs).
Proof.
  revert d d'. induction cs as [|c cs IH]; intros d d' H; simpl; [done|].
  by apply IH, roll_value_col_prefix.
Qed.

Lemma length_roll_value_cols cs d :
  length (rows (foldl (roll_value_col L gcols windows prefix) d cs)) = length (rows d).
Proof.
  revert d. induction cs as [|c cs IH]; intros d; simpl; [done|].
  rewrite IH. unfold roll_value_col. destruct (has_col d c); [|done].
  assert (∀ ws (g : list row) d0, length g = length (rows d0) →
            length (rows (foldl (roll_window gcols prefix c g) d0 ws))
            = length (rows d0)) as Hws.
  { induction ws as [|w ws IHws]; intros g d0 Hg; simpl; [done|].
    rewrite IHws; rewrite length_roll_window; done. }
  rewrite Hws by done. apply nrows_map_column.
Qed.

End Causality.

(** C1.  Take two input tables with the same labels whose rows agree pairwise
    except that rows of entity [E] dated [T2] or later may differ in any cell
    outside the group and date columns.  Then [rolling_features] succeeds on
    both, and every game of [E] dated [T1 < T2] sits at the same place of both
    outputs with the same cells, hence with the same rolling feature value
    for every window length and every value column. *)
Theorem no_leakage (L : Lib) (df df' : DataFrame) (group_cols : list string)
    (sort_col : string) (value_cols : list string) (windows : list positive)
    (prefix : string) (E : list cell) (T1 T2 : Z) :
  columns df = columns df' →
  Forall2 (fun r r' : row =>
             r = r'
             ∨ (key group_cols r = E ∧ key group_cols r' = E
                ∧ ∃ d, get r sort_col = Date d ∧ get r' sort_col = Date d
                       ∧ (T2 ≤ d)%Z))
    (rows df) (rows df') →
  (T1 < T2)%Z →
  (∀ k, k ∈ group_cols ++ [sort_col] → has_col df k = true) →
  ∃ out out',
    build_features.rolling_features L df group_cols sort_col value_cols windows prefix
    = Ok out
    ∧ build_features.rolling_features L df' group_cols sort_col value_cols windows prefix
      = Ok out'
    ∧ columns out = columns out'
    ∧ ∀ i r, sort_rows (group_cols ++ [sort_col]) (rows df) !! i = Some r →
        key group_cols r = E → get r sort_col = Date T1 →
        sort_rows (group_cols ++ [sort_col]) (rows df') !! i = Some r
        ∧ is_Some (rows out !! i)
        ∧ rows out !! i = rows out' !! i.
Proof.
  intros Hcols Hrel HT Hkeys.
  set (by_ := group_cols ++ [sort_col]).
  unfold build_features.rolling_features.
  rewrite !sort_values_ok.
  2:{ apply missing_col_None. intros k Hk.
      rewrite <- (has_col_columns df df') by done. by apply Hkeys. }
  2:{ by apply missing_col_None. }
  do 2 eexists. split; [reflexivity|]. split; [reflexivity|].
  set (s := sort_rows by_ (rows df)). set (s' := sort_rows by_ (rows df')).
  set (d := {| columns := columns df; rows := s |}).
  set (d' := {| columns := columns df'; rows := s' |}).
  assert (∀ n, take n s = take n s' →
            columns (foldl (build_features.roll_value_col L group_cols windows prefix)
                       d value_cols)
            = columns (foldl (build_features.roll_value_col L group_cols windows prefix)
                         d' value_cols)
            ∧ take n (rows (foldl (build_features.roll_value_col L group_cols windows
                                     prefix) d value_cols))
              = take n (rows (foldl (build_features.roll_value_col L group_cols windows
                                       prefix) d' value_cols))) as Hfold.
  { intros n Hn. by apply roll_value_cols_prefix. }
  split; [by apply (Hfold 0)|].
  assert (Forall2 (fun r r' : row =>
             r = r'
             ∨ (key group_cols r = E ∧ key group_cols r' = E
                ∧ ∃ d, get r sort_col = Date d ∧ get r' sort_col = Date d
                       ∧ (T2 ≤ d)%Z)) s s') as Hs.
  { apply sort_rows_related; [|done].
    intros r r' [->|(Hk & Hk' & dd & Hd & Hd' & _)]; [done|].
    unfold by_. rewrite !key_app, Hk, Hk'. unfold key. simpl. by rewrite Hd, Hd'. }
  intros i r Hr HE Hdate.
  assert (take (S i) s = take (S i) s') as Hpre.
  { apply list_eq. intros j. rewrite !lookup_take. case_decide as Hj; [|done].
    destruct (s !! j) as [a|] eqn:Ha.
    - destruct (Forall2_lookup_l _ _ _ _ _ Hs Ha) as (b & Hb & HR).
      rewrite Hb. destruct HR as [->|(Hk & _ & dd & Hd & _ & Hge)]; [done|].
      exfalso.
      assert (row_le by_ a r) as Hle.
      { eapply (sorted_lookup_le by_ s j i); eauto using sort_rows_sorted. lia. }
      unfold row_le, by_ in Hle. rewrite !key_app, Hk, HE in Hle.
      apply lex_le_app in Hle. unfold key in Hle. simpl in Hle.
      rewrite Hd, Hdate in Hle. destruct Hle as [Hle _]. simpl in Hle. lia.
    - symmetry. apply lookup_ge_None. apply lookup_ge_None in Ha.
      by rewrite <- (Forall2_length _ _ _ Hs). }
  split.
  { rewrite <- (take_lookup_eq (S i) s s' i Hpre) by lia. done. }
  split.
  { apply lookup_lt_is_Some_2. rewrite length_roll_value_cols. simpl.
    by eapply lookup_lt_Some. }
  apply (take_lookup_eq (S i)); [|lia]. by apply Hfold.
Qed.

Lemma no_leakage_witness :
  ∃ out out',
    build_features.rolling_features example_lib example_bos ["team"] "gameDate"
      ["goalsFor"] build_features.WINDOWS "team_" = Ok out
    ∧ build_features.rolling_features example_lib example_bos_rescored ["team"]
        "gameDate" ["goalsFor"] build_features.WINDOWS "team_" = Ok out'
    ∧ sort_rows ["team"; "gameDate"] (rows example_bos) !! 3 = Some (game "BOS" 4 8)
    ∧ is_Some (rows out !! 3)
    ∧ rows out !! 3 = rows out' !! 3.
Proof.
  destruct (no_leakage example_lib example_bos example_bos_rescored ["team"]
              "gameDate" ["goalsFor"] build_features.WINDOWS "team_"
              [Str "BOS"] 4 5)
    as (out & out' & Hout & Hout' & _ & Hrows).
  - reflexivity.
  - repeat first
      [ apply Forall2_nil_2
      | apply Forall2_cons_2;
        [ first [ left; reflexivity
                | right; split; [reflexivity|]; split; [reflexivity|];
                  eexists; split; [reflexivity|]; split; [reflexivity|]; lia ] | ] ].
  - lia.
  - intros k Hk. repeat (apply elem_of_cons in Hk as [->|Hk]; [reflexivity|]).
    by apply elem_of_nil in Hk.
  - destruct (Hrows 3 (game "BOS" 4 8) eq_refl eq_refl eq_refl) as (_ & Hsome & Heq).
    exists out, out'. repeat split; assumption || reflexivity.
Defined.

(** ** The projector *)

Section ProjectorFacts.
Import project_upcoming.



End ProjectorFacts.

Section ProjectRow.
Import project_upcoming.

Variable predict : string → list cell → Qc.
Variable feat_cols : list string.
Variable r : row.

Local Abbreviation hp := (predict_team predict "home" feat_cols r).
Local Abbreviation ap := (predict_team predict "away" feat_cols r).
Local Abbreviation o := (project_row predict feat_cols r).









End ProjectRow.

Lemma elem_of_sort_rows by_ (l : list row) x : x ∈ sort_rows by_ l ↔ x ∈ l.
Proof. by rewrite (sort_rows_Permutation by_ l). Qed.

(** Every row [main] writes is [project_row] of a row of the joined
    schedule. *)
Lemma main_rows_projected L predict team_feat df_sched out x :
  project_upcoming.main L predict team_feat df_sched = Ok (Some out) →
  x ∈ rows out →
  ∃ feat_cols r, x = project_upcoming.project_row predict feat_cols r.
Proof.
  unfold project_upcoming.main. intros H Hx.
  destruct (project_upcoming.team_latest L team_feat) as [[fc latest]| | | |];
    simpl in H; try discriminate H.
  repeat (case_match; simpl in H; try discriminate H).
  repeat match type of H with
         | (?m ≫= _) = _ => destruct m; simpl in H; try discriminate H
         end.
  case_match; [discriminate H|].
  injection H as <-. simpl in Hx.
  apply elem_of_sort_rows, list_elem_of_fmap in Hx as (r & -> & _). eauto.
Qed.

(** ** Per-60 rates *)

Section Per60.
Import build_features.

Lemma per60_cell_rate (x t : Qc) :
  t ≠ 0%Qc → per60_cell (Num x) (Num t) = Num (Qc_of_Z 60 * x / t)%Qc.
Proof.
  intros Ht. unfold per60_cell, replace_zero_nan.
  rewrite bool_decide_false by done. simpl. by rewrite bool_decide_false.
Qed.

Lemma fdiv_missing y : fdiv y NA = NA.
Proof. by destruct y. Qed.

Lemma per60_cell_zero x : per60_cell x (Num 0%Qc) = NA.
Proof.
  unfold per60_cell, replace_zero_nan. rewrite bool_decide_true by done.
  apply fdiv_missing.
Qed.

Lemma per60_cell_missing x : per60_cell x NA = NA.
Proof. unfold per60_cell. apply fdiv_missing. Qed.

End Per60.

(** C5 (as amended).  [per60] raises exactly when one of its two columns is
    absent from the table (the KeyError of the lookup), whatever the cells
    hold.  On a table with both columns it returns one value per row: 60
    times the count divided by the ice time where both are numbers and the
    ice time is not zero, and a missing value, neither an infinity nor an
    exception, where the ice time is zero or missing. *)
Theorem per60_guard (L : Lib) (df : DataFrame) (num_col toi_col : string) :
  (has_col df num_col = false →
     build_features.per60 L df num_col toi_col = KeyError num_col)
  ∧ (has_col df num_col = true → has_col df toi_col = false →
     build_features.per60 L df num_col toi_col = KeyError toi_col)
  ∧ (has_col df num_col = true → has_col df toi_col = true →
     ∃ out, build_features.per60 L df num_col toi_col = Ok out
       ∧ length out = nrows df
       ∧ ∀ i r, rows df !! i = Some r →
           ∃ v, out !! i = Some v
             ∧ (∀ x t, to_numeric L (get r num_col) = Num x →
                       to_numeric L (get r toi_col) = Num t → t ≠ 0%Qc →
                       v = Num (Qc_of_Z 60 * x / t)%Qc)
             ∧ (to_numeric L (get r toi_col) = Num 0%Qc → v = NA)
             ∧ (to_numeric L (get r toi_col) = NA → v = NA)).
Proof.
  unfold build_features.per60. split; [|split].
  - by intros ->.
  - by intros -> ->.
  - intros -> ->. simpl. eexists. split; [reflexivity|].
    split; [by rewrite length_fmap|].
    intros i r Hr. rewrite list_lookup_fmap, Hr. simpl. eexists. split; [reflexivity|].
    split; [|split].
    + intros x t -> -> Ht. by apply per60_cell_rate.
    + intros ->. apply per60_cell_zero.
    + intros ->. apply per60_cell_missing.
Qed.

Lemma per60_guard_witness :
  ∃ out, build_features.per60 example_lib example_skaters "goals" "icetime_min" = Ok out
    ∧ out !! 0 = Some (Num (Qc_of_Z 3))
    ∧ out !! 1 = Some NA.
Proof.
  destruct (per60_guard example_lib example_skaters "goals" "icetime_min")
    as (_ & _ & H).
  destruct (H eq_refl eq_refl) as (out & Hout & _ & Hrows).
  exists out. split; [exact Hout|]. split.
  - destruct (Hrows 0 (skater_game 1 1 20 1) eq_refl) as (v & -> & Hv & _).
    f_equal.
    assert (Qc_of_Z 20 ≠ 0%Qc) as Hne.
    { intros E. apply (f_equal this) in E. discriminate E. }
    rewrite (Hv (Qc_of_Z 1) (Qc_of_Z 20) eq_refl eq_refl Hne).
    f_equal. apply Qc_is_canon. reflexivity.
  - destruct (Hrows 1 (skater_game 2 2 0 0) eq_refl) as (v & -> & _ & Hv & _).
    f_equal. apply Hv. change (Num (Qc_of_Z 0) = Num 0%Qc).
    f_equal. apply Qc_is_canon. reflexivity.
Defined.

(** C5 as stated fails in its last part: [per60] does raise on some input.
    Reading a column the table does not have raises KeyError. *)
Lemma per60_raises_counterexample :
  build_features.per60 example_lib example_skaters "goals" "icetime"
  = KeyError "icetime"
  ∧ ¬ (∀ L df num_col toi_col,
         is_ok (build_features.per60 L df num_col toi_col) = true).
Proof.
  split; [reflexivity|]. intros H.
  specialize (H example_lib example_skaters "goals" "icetime"). discriminate H.
Qed.

(** ** Which columns the feature build requires *)

Section RequiredColumns.
Import common build_features.

Variable L : Lib.

Lemma first_labels_fresh seen cols x :
  x ∈ (first_labels seen cols).*1 → x ∉ seen.
Proof.
  revert seen. induction cols as [|c cs IH]; intros seen; simpl.
  - by intros ?%elem_of_nil.
  - case_bool_decide as Hin; [apply IH|].
    rewrite fmap_cons. intros [->|Hx]%elem_of_cons; [done|].
    apply IH in Hx. by apply not_elem_of_cons in Hx as [_ ?].
Qed.

Lemma first_labels_NoDup seen cols : NoDup (first_labels seen cols).*1.
Proof.
  revert seen. induction cols as [|c cs IH]; intros seen; simpl; [constructor|].
  case_bool_decide; [apply IH|].
  rewrite fmap_cons. constructor; [|apply IH].
  intros Hx%first_labels_fresh. apply Hx. left.
Qed.

(** The second check of [strip_and_dedup_columns] never fires. *)
Lemma strip_and_dedup_columns_ok df : is_ok (strip_and_dedup_columns df) = true.
Proof.
  unfold strip_and_dedup_columns. simpl.
  rewrite bool_decide_true; [done|]. apply first_labels_NoDup.
Qed.

Lemma select_columns_ok cs df :
  (∀ x, x ∈ cs → has_col df x = true) → is_ok (select_columns cs df) = true.
Proof.
  intros H. unfold select_columns.
  by rewrite (proj2 (missing_col_None df cs) H).
Qed.

Lemma keep_out_present base p df x :
  x ∈ keep_out base p df → has_col df x = true.
Proof.
  unfold keep_out. rewrite elem_of_app, !list_elem_of_filter.
  intros [[? _]|[_ ?]]; [done|]. by apply has_col_true.
Qed.

Lemma rolling_features_ok df gcols sort_col value_cols windows p :
  (∀ k, k ∈ gcols ++ [sort_col] → has_col df k = true) →
  ∃ out, rolling_features L df gcols sort_col value_cols windows p = Ok out
    ∧ ∀ x, has_col df x = true → has_col out x = true.
Proof.
  intros Hk. unfold rolling_features.
  rewrite sort_values_ok by (by apply missing_col_None).
  eexists. split; [reflexivity|]. intros x Hx.
  assert (has_col (mkDF (columns df) (sort_rows (gcols ++ [sort_col]) (rows df))) x
          = true) as Hd0 by done.
  revert Hd0.
  generalize (mkDF (columns df) (sort_rows (gcols ++ [sort_col]) (rows df))).
  clear Hk Hx.
  induction value_cols as [|c cs IH]; intros d0 Hd0; simpl; [done|].
  by apply IH, has_col_roll_value_col.
Qed.

Lemma pick_col_present df cands c : pick_col df cands = Some c → has_col df c = true.
Proof.
  induction cands as [|a cands IH]; simpl; [done|].
  destruct (has_col df a) eqn:Ha; [|done]. by intros [= <-].
Qed.

Lemma pick_col_None df cands :
  pick_col df cands = None ↔ ∀ c, c ∈ cands → has_col df c = false.
Proof.
  induction cands as [|a cands IH]; simpl.
  - split; [|done]. intros _ c Hc. by apply elem_of_nil in Hc.
  - destruct (has_col df a) eqn:Ha.
    + split; [done|]. intros H. specialize (H a (list_elem_of_here _ _)). congruence.
    + rewrite IH. split.
      * intros H c [->|?]%elem_of_cons; auto.
      * intros H c ?. apply H. by right.
Qed.

Lemma ensure_int_has_col col df df1 x :
  ensure_int L col df = Ok df1 → has_col df1 x = has_col df x.
Proof.
  unfold ensure_int. destruct (has_col df col) eqn:Hc; [|by intros [= <-]].
  case_match; [|done]. intros [= <-].
  rewrite has_col_set_column. destruct (has_col df x) eqn:Hx; [done|].
  simpl. apply bool_decide_eq_false. intros ->. congruence.
Qed.

Lemma add_per60_ok toi_col count_cols df :
  has_col df toi_col = true →
  (∀ c, c ∈ count_cols → has_col df c = true) →
  ∃ out, add_per60 L toi_col count_cols df = Ok out
    ∧ ∀ x, has_col df x = true → has_col out x = true.
Proof.
  revert df. induction count_cols as [|c cs IH]; intros df Htoi Hcs; simpl.
  - eauto.
  - unfold per60. rewrite (Hcs c (list_elem_of_here _ _)), Htoi. simpl.
    edestruct (IH (set_column (c +:+ "_per60")
                     ((fun r => per60_cell (to_numeric L (get r c))
                                  (to_numeric L (get r toi_col))) <$> rows df) df))
      as (out & Hout & Hmono).
    + by apply has_col_set_column_mono.
    + intros c' Hc'. apply has_col_set_column_mono, Hcs. by right.
    + exists out. split; [done|]. intros x Hx.
      by apply Hmono, has_col_set_column_mono.
Qed.

Lemma is_ok_bind {A B} (x : result A) (f : A → result B) :
  is_ok (x ≫= f) = true ↔ ∃ a, x = Ok a ∧ is_ok (f a) = true.
Proof.
  destruct x; simpl; split; try done; try (by intros (? & ? & ?)); eauto.
  by intros (? & [= <-] & ?).
Qed.

Lemma finish_ok base p pid (df : DataFrame) :
  is_ok (out ← select_columns (keep_out base p df) df;
         strip_and_dedup_columns (rename_column pid "playerId" out)) = true.
Proof.
  apply is_ok_bind.
  destruct (select_columns (keep_out base p df) df) as [out| | | |] eqn:Hsel.
  - exists out. split; [done|]. apply strip_and_dedup_columns_ok.
  - pose proof (select_columns_ok (keep_out base p df) df
                  (keep_out_present base p df)) as H. by rewrite Hsel in H.
  - pose proof (select_columns_ok (keep_out base p df) df
                  (keep_out_present base p df)) as H. by rewrite Hsel in H.
  - pose proof (select_columns_ok (keep_out base p df) df
                  (keep_out_present base p df)) as H. by rewrite Hsel in H.
  - pose proof (select_columns_ok (keep_out base p df) df
                  (keep_out_present base p df)) as H. by rewrite Hsel in H.
Qed.

Lemma keys_present (df : DataFrame) pid :
  has_col df "team" = true → has_col df pid = true → has_col df "gameDate" = true →
  ∀ k, k ∈ ["team"; pid] ++ ["gameDate"] → has_col df k = true.
Proof.
  intros ??? k Hk. simpl in Hk.
  repeat (apply elem_of_cons in Hk as [->|Hk]; [done|]). by apply elem_of_nil in Hk.
Qed.

(** The skater stage succeeds as soon as the player id, the ice time, the
    team and the date are there and the player ids are integers. *)
Lemma skater_features_ok sk pid toi :
  pick_col sk PID_CANDIDATES = Some pid →
  pick_col sk TOI_CANDIDATES = Some toi →
  has_col sk "team" = true → has_col sk "gameDate" = true →
  is_ok (ensure_int L pid sk) = true →
  is_ok (skater_features L sk) = true.
Proof.
  intros Hpid Htoi Hteam Hdate Hint. unfold skater_features. rewrite Hpid, Htoi.
  destruct (ensure_int L pid sk) as [sk1| | | |] eqn:He; try discriminate Hint.
  simpl.
  pose proof (ensure_int_has_col pid sk sk1) as Hsame.
  set (toi' := if bool_decide (toi ≠ "icetime_min") && has_col sk1 "icetime_min"
               then "icetime_min" else toi).
  assert (has_col sk1 toi' = true) as Htoi'.
  { unfold toi'. destruct (bool_decide (toi ≠ "icetime_min")); simpl.
    - destruct (has_col sk1 "icetime_min") eqn:H; [done|].
      rewrite Hsame by done. by eapply pick_col_present.
    - rewrite Hsame by done. by eapply pick_col_present. }
  set (count_cols := filter (fun c => has_col sk1 c = true) count_candidates).
  destruct (add_per60_ok toi' count_cols sk1 Htoi') as (sk2 & -> & Hmono2).
  { intros c Hc. unfold count_cols in Hc. by apply list_elem_of_filter in Hc as [? _]. }
  simpl.
  destruct (rolling_features_ok sk2 ["team"; pid] "gameDate"
              (toi' :: ((fun c => c +:+ "_per60") <$> count_cols)) WINDOWS "sk_")
    as (sk3 & -> & Hmono3).
  { apply keys_present; apply Hmono2; rewrite Hsame by done; try done.
    by eapply pick_col_present. }
  simpl. apply finish_ok.
Qed.

(** The goalie stage succeeds as soon as the player id, the team and the
    date are there and the player ids are integers: no ice time is needed. *)
Lemma goalie_features_ok go pid :
  pick_col go PID_CANDIDATES = Some pid →
  has_col go "team" = true → has_col go "gameDate" = true →
  is_ok (ensure_int L pid go) = true →
  is_ok (goalie_features L go) = true.
Proof.
  intros Hpid Hteam Hdate Hint. unfold goalie_features. rewrite Hpid.
  destruct (ensure_int L pid go) as [go1| | | |] eqn:He; try discriminate Hint.
  simpl.
  pose proof (ensure_int_has_col pid go go1) as Hsame.
  match goal with
  | |- context [rolling_features L ?d ?g ?sc ?vc ?ws ?p] =>
      destruct (rolling_features_ok d g sc vc ws p) as (go3 & -> & Hmono3)
  end.
  { apply keys_present.
    - repeat case_match; apply has_col_set_column_mono; by rewrite Hsame.
    - repeat case_match; apply has_col_set_column_mono; rewrite Hsame by done;
        by eapply pick_col_present.
    - repeat case_match; apply has_col_set_column_mono; by rewrite Hsame. }
  simpl. apply finish_ok.
Qed.

End RequiredColumns.

(** C6 (as amended).  The skater build aborts with its RuntimeError when no
    alias of the player id or no alias of the ice time is a column of the
    skater table.  The goalie build aborts with its RuntimeError when no
    alias of the player id is a column of the goalie table; a goalie table
    without any ice-time column is not an error.  Given the columns just
    named as required, [team] and [gameDate], and integral player ids, both
    builds succeed, whichever other columns are absent. *)
Theorem required_columns (L : Lib) :
  (∀ sk,
     (∀ c, c ∈ build_features.PID_CANDIDATES → has_col sk c = false)
     ∨ (∀ c, c ∈ build_features.TOI_CANDIDATES → has_col sk c = false) →
     build_features.skater_features L sk
     = RuntimeError "Skater playerId or TOI column not found.")
  ∧ (∀ go,
       (∀ c, c ∈ build_features.PID_CANDIDATES → has_col go c = false) →
       build_features.goalie_features L go
       = RuntimeError "Goalie playerId column not found.")
  ∧ (∀ sk pid toi,
       build_features.pick_col sk build_features.PID_CANDIDATES = Some pid →
       build_features.pick_col sk build_features.TOI_CANDIDATES = Some toi →
       has_col sk "team" = true → has_col sk "gameDate" = true →
       is_ok (build_features.ensure_int L pid sk) = true →
       is_ok (build_features.skater_features L sk) = true)
  ∧ (∀ go pid,
       build_features.pick_col go build_features.PID_CANDIDATES = Some pid →
       has_col go "team" = true → has_col go "gameDate" = true →
       is_ok (build_features.ensure_int L pid go) = true →
       is_ok (build_features.goalie_features L go) = true).
Proof.
  split; [|split; [|split]].
  - intros sk [H|H]; apply pick_col_None in H; unfold build_features.skater_features;
      rewrite H.
    + done.
    + by case_match.
  - intros go H. apply pick_col_None in H. unfold build_features.goalie_features.
    by rewrite H.
  - apply skater_features_ok.
  - apply goalie_features_ok.
Qed.

Lemma required_columns_witness :
  is_ok (build_features.skater_features example_lib example_skaters) = true
  ∧ is_ok (build_features.goalie_features example_lib example_goalies) = true
  ∧ build_features.skater_features example_lib example_goalies
    = RuntimeError "Skater playerId or TOI column not found.".
Proof.
  destruct (required_columns example_lib) as (Hsk_err & _ & Hsk & Hgo).
  split; [|split].
  - apply (Hsk example_skaters "playerId" "icetime_min"); reflexivity.
  - apply (Hgo example_goalies "playerId"); reflexivity.
  - apply Hsk_err. right. intros c Hc.
    repeat (apply elem_of_cons in Hc as [->|Hc]; [reflexivity|]).
    by apply elem_of_nil in Hc.
Defined.

(** C6 as stated fails for the goalie table: with no alias of the ice-time
    column present the goalie build does not abort. *)
Lemma goalie_toi_not_required_counterexample :
  Forall (fun c => has_col example_goalies c = false) build_features.TOI_CANDIDATES
  ∧ is_ok (build_features.goalie_features example_lib example_goalies) = true.
Proof. split; [by repeat constructor|]. vm_compute. reflexivity. Qed.

(** ** Left joins *)

Section LeftJoin.

Variables left_on right_on : list string.

(** The rows one left row contributes to the join. *)
Local Abbreviation joined right l :=
  (match matches left_on right_on right l with
   | [] => [l]
   | ms => (fun r : row => l ∪ r) <$> ms
   end).

Lemma merge_left_rows left right out :
  merge_left left_on right_on left right = Ok out →
  rows out = rows left ≫= (fun l => joined (rows right) l).
Proof.
  unfold merge_left. repeat case_match; try done. by intros [= <-].
Qed.






(** With at most one right row per key, one left row matches at most one
    right row. *)
Lemma unique_key_filter {A B} `{EqDecision B} (f : A → B) (l : list A) k :
  NoDup (f <$> l) → length (filter (fun x => f x = k) l) ≤ 1.
Proof.
  induction l as [|a l IH]; [simpl; lia|].
  rewrite fmap_cons, NoDup_cons. intros [Ha Hl].
  rewrite filter_cons. destruct (decide (f a = k)) as [Hk|Hk]; [|by apply IH].
  destruct (filter (fun x => f x = k) l) as [|x xs] eqn:Hf; [simpl; lia|].
  exfalso. apply Ha.
  assert (x ∈ filter (fun x => f x = k) l) as Hx by (rewrite Hf; left).
  apply list_elem_of_filter in Hx as [Hfx Hx].
  apply list_elem_of_fmap. exists x. split; [congruence|done].
Qed.

Lemma matches_unique right l :
  NoDup (key right_on <$> right) →
  length (matches left_on right_on right l) ≤ 1.
Proof. apply unique_key_filter. Qed.


End LeftJoin.

(** ** The model-table assembler *)

Section Assembler.
Import common build_model_tables.

Lemma get_select (cs : list string) (r : row) k :
  k ∈ cs → get (filter (fun kv : string * cell => kv.1 ∈ cs) r) k = get r k.
Proof.
  intros Hk. unfold get. rewrite map_lookup_filter.
  destruct (r !! k) as [v|]; simpl; [|done]. by rewrite option_guard_True.
Qed.

Lemma select_columns_rows cs df out :
  select_columns cs df = Ok out →
  columns out = cs
  ∧ rows out = (fun r : row => filter (fun kv : string * cell => kv.1 ∈ cs) r) <$> rows df.
Proof. unfold select_columns. case_match; [done|]. by intros [= <-]. Qed.

Lemma get_rename_row old new (r : row) k :
  k ≠ old → k ≠ new →
  get (match r !! old with
       | Some v => <[new := v]> (delete old r)
       | None => r
       end) k = get r k.
Proof.
  intros Ho Hn. destruct (r !! old); [|done].
  rewrite get_insert_ne by done. unfold get. by rewrite lookup_delete_ne.
Qed.

Lemma rename_column_rows old new df :
  ∃ h : row → row,
    rows (rename_column old new df) = h <$> rows df
    ∧ ∀ r k, k ≠ old → k ≠ new → get (h r) k = get r k.
Proof.
  unfold rename_column. case_bool_decide.
  - exists id. split; [by rewrite list_fmap_id|done].
  - eexists. split; [reflexivity|]. intros r k ??. by apply get_rename_row.
Qed.

















End Assembler.

(** ** The trainer: splits and skipped targets *)

Section TrainerSplits.
Import train_models_team.

Variable L : Lib.
Variable fitted : Type.
Variable fit : strategy → list (list cell) → list Qc → fitted.
Variable predict : fitted → list (list cell) → list Qc.
Variable sqrt : Qc → Qc.

Lemma max_season_spec seasons hs :
  max_season seasons = Some hs →
  hs ∈ seasons ∧ ∀ s, s ∈ seasons → (s ≤ hs)%Z.
Proof.
  destruct seasons as [|s0 ss]; [done|]. simpl. intros [= <-].
  induction ss as [|s ss [IHin IHle]]; simpl.
  - split; [left|]. intros s ->%list_elem_of_singleton. lia.
  - split.
    + destruct (Z.max_spec s (foldr Z.max s0 ss)) as [[_ ->]|[_ ->]].
      * apply elem_of_cons in IHin as [->|?]; [left|right; by right].
      * right; left.
    + intros x Hx.
      assert (x = s ∨ x ∈ s0 :: ss) as [->|Hx'].
      { apply elem_of_cons in Hx as [->|Hx]; [right; left|].
        apply elem_of_cons in Hx as [->|Hx]; [by left|right; by right]. }
      * lia.
      * specialize (IHle x Hx'). lia.
Qed.

Lemma holdout_of_spec df hs :
  holdout_of L df = Ok hs →
  (∃ r, r ∈ rows df ∧ season_of L r = Some hs)
  ∧ ∀ r s, r ∈ rows df → season_of L r = Some s → (s ≤ hs)%Z.
Proof.
  unfold holdout_of.
  destruct (max_season (omap (season_of L) (rows df))) as [m|] eqn:Hm; [|done].
  intros [= <-]. apply max_season_spec in Hm as [Hin Hle]. split.
  - apply list_elem_of_omap in Hin as (r & ? & ?). eauto.
  - intros r s Hr Hs. apply Hle. apply list_elem_of_omap. eauto.
Qed.

Lemma holdout_of_ok df r s :
  r ∈ rows df → season_of L r = Some s → is_ok (holdout_of L df) = true.
Proof.
  intros Hr Hs. unfold holdout_of.
  destruct (omap (season_of L) (rows df)) as [|x xs] eqn:Ho; [|done].
  assert (s ∈ omap (season_of L) (rows df)) as Hin.
  { apply list_elem_of_omap. eauto. }
  rewrite Ho in Hin. by apply elem_of_nil in Hin.
Qed.

Lemma elem_of_train_split y hs df r :
  r ∈ train_split L y hs df
  ↔ r ∈ rows df ∧ isna (get r y) = false
    ∧ ∃ s, season_of L r = Some s ∧ (s < hs)%Z.
Proof.
  unfold train_split, season_before, has_target.
  rewrite !list_elem_of_filter, negb_true_iff. split.
  - intros (Hs & Hy & Hr). repeat split; try done.
    destruct (season_of L r) as [s|]; [|done].
    exists s. split; [done|]. by apply bool_decide_eq_true in Hs.
  - intros (Hr & Hy & s & Hs & Hlt). rewrite Hs. repeat split; try done.
    by apply bool_decide_eq_true.
Qed.

Lemma elem_of_test_split y hs df r :
  r ∈ test_split L y hs df
  ↔ r ∈ rows df ∧ isna (get r y) = false ∧ season_of L r = Some hs.
Proof.
  unfold test_split, season_is, has_target.
  rewrite !list_elem_of_filter, negb_true_iff, bool_decide_eq_true. tauto.
Qed.

Lemma train_target_skip hs feat_cols df st y :
  train_split L y hs df = [] ∨ test_split L y hs df = [] →
  train_target L fitted fit predict sqrt hs feat_cols df st y = Ok st.
Proof.
  intros H. unfold train_target.
  destruct H as [-> | ->]; simpl; [by rewrite orb_true_r|done].
Qed.

Lemma train_targets_app hs feat_cols df ys1 ys2 st :
  train_targets L fitted fit predict sqrt hs feat_cols df (ys1 ++ ys2) st
  = train_targets L fitted fit predict sqrt hs feat_cols df ys1 st
    ≫= train_targets L fitted fit predict sqrt hs feat_cols df ys2.
Proof.
  revert st. induction ys1 as [|y ys1 IH]; intros st; simpl; [done|].
  destruct (train_target L fitted fit predict sqrt hs feat_cols df st y); simpl; auto.
Qed.

Lemma train_targets_skip hs feat_cols df ys1 y ys2 st :
  train_split L y hs df = [] ∨ test_split L y hs df = [] →
  train_targets L fitted fit predict sqrt hs feat_cols df (ys1 ++ y :: ys2) st
  = train_targets L fitted fit predict sqrt hs feat_cols df (ys1 ++ ys2) st.
Proof.
  intros H. rewrite !train_targets_app.
  destruct (train_targets L fitted fit predict sqrt hs feat_cols df ys1 st);
    simpl; try done.
  by rewrite train_target_skip.
Qed.

End TrainerSplits.

(** C7.  [holdout_season] is the maximum season of the table: some row has
    it and no row has a later one.  For every target column the training
    split is exactly the rows with a target and a season before the holdout
    season, the holdout split exactly the rows with a target and the holdout
    season.  A target one of whose splits is empty leaves the run's state as
    it is, with no artifact written and no report row added, and the loop goes
    on over the remaining targets as if the target were not in the list. *)
Theorem trainer_split_and_skip (L : Lib) (fitted : Type)
    (fit : train_models_team.strategy → list (list cell) → list Qc → fitted)
    (predict : fitted → list (list cell) → list Qc) (sqrt : Qc → Qc)
    (df : DataFrame) (hs : Z) :
  train_models_team.holdout_of L df = Ok hs →
  ((∃ r, r ∈ rows df ∧ train_models_team.season_of L r = Some hs)
   ∧ ∀ r s, r ∈ rows df → train_models_team.season_of L r = Some s → (s ≤ hs)%Z)
  ∧ (∀ y r,
       r ∈ train_models_team.train_split L y hs df
       ↔ r ∈ rows df ∧ isna (get r y) = false
         ∧ ∃ s, train_models_team.season_of L r = Some s ∧ (s < hs)%Z)
  ∧ (∀ y r,
       r ∈ train_models_team.test_split L y hs df
       ↔ r ∈ rows df ∧ isna (get r y) = false
         ∧ train_models_team.season_of L r = Some hs)
  ∧ (∀ feat_cols y,
       train_models_team.train_split L y hs df = []
       ∨ train_models_team.test_split L y hs df = [] →
       (∀ st, train_models_team.train_target L fitted fit predict sqrt hs feat_cols
                df st y = Ok st)
       ∧ ∀ ys1 ys2 st,
           train_models_team.train_targets L fitted fit predict sqrt hs feat_cols df
             (ys1 ++ y :: ys2) st
           = train_models_team.train_targets L fitted fit predict sqrt hs feat_cols df
               (ys1 ++ ys2) st).
Proof.
  intros Hhs. split; [by apply holdout_of_spec|].
  split; [intros y r; apply elem_of_train_split|].
  split; [intros y r; apply elem_of_test_split|].
  intros feat_cols y Hempty. split.
  - intros st. by apply train_target_skip.
  - intros ys1 ys2 st. by apply train_targets_skip.
Qed.

Lemma trainer_split_and_skip_witness :
  train_models_team.holdout_of example_lib example_model_table = Ok 2023%Z
  ∧ train_models_team.train_split example_lib "y_xGoalsFor" 2023 example_model_table
    = []
  ∧ ∀ st,
      train_models_team.train_target example_lib train_models_team.strategy
        example_fit example_model_predict example_sqrt 2023 ["team_5_goalsFor"]
        example_model_table st "y_xGoalsFor" = Ok st.
Proof.
  split; [reflexivity|]. split; [reflexivity|].
  destruct (trainer_split_and_skip example_lib train_models_team.strategy
              example_fit example_model_predict example_sqrt
              example_model_table 2023 eq_refl) as (_ & _ & _ & Hskip).
  apply (Hskip ["team_5_goalsFor"] "y_xGoalsFor"). left. reflexivity.
Defined.

(** ** The trainer: selection among the candidates *)

Section TrainerSelection.
Import train_models_team.

Variable L : Lib.
Variable fitted : Type.
Variable fit : strategy → list (list cell) → list Qc → fitted.
Variable predict : fitted → list (list cell) → list Qc.
Variable sqrt : Qc → Qc.

Variables (y : string) (hs : Z) (feat_cols : list string).
Variables (X_train : list (list cell)) (y_train : list Qc).
Variables (X_test : list (list cell)) (y_test : list Qc).

(** Holdout errors of candidate [s], and its report row. *)
Local Abbreviation mae s :=
  (mean_absolute_error y_test (predict (fit s X_train y_train) X_test)).
Local Abbreviation rmse s :=
  (sqrt (mean_squared_error y_test (predict (fit s X_train y_train) X_test))).
Local Abbreviation row_of s :=
  (report_row y s hs (mae s) (rmse s) (length X_train) (length X_test)
     (length feat_cols)).
Local Abbreviation step :=
  (try_candidate fitted fit predict sqrt y hs feat_cols X_train y_train X_test y_test).

Lemma try_candidates_spec cands st b :
  ∃ st' b',
    foldl step (st, b) cands = (st', b')
    ∧ report_rows fitted st' = report_rows fitted st ++ ((fun s => row_of s) <$> cands)
    ∧ artifacts fitted st' = artifacts fitted st
    ∧ (∀ s, s ∈ cands → pipelines fitted st' s = Some (fit s X_train y_train))
    ∧ (∀ s, s ∈ cands → (best_mae b' ≤ mae s)%Qc)
    ∧ ((best b' = best b ∧ best_mae b' = best_mae b)
       ∨ (∃ s, s ∈ cands ∧ best b' = Some (s, mae s, rmse s)
               ∧ best_mae b' = mae s ∧ (mae s < best_mae b)%Qc)).
Proof.
  revert st b. induction cands as [|s cands IH]; intros st b.
  - exists st, b. simpl. rewrite app_nil_r.
    repeat split; try done; try (by intros ? ?%elem_of_nil). by left.
  - simpl.
    set (st1 := {| pipelines := _; artifacts := _; report_rows := _ |}).
    assert (∀ b1, (best_mae b1 ≤ mae s)%Qc →
              ((best b1 = best b ∧ best_mae b1 = best_mae b)
               ∨ (best b1 = Some (s, mae s, rmse s) ∧ best_mae b1 = mae s
                  ∧ (mae s < best_mae b)%Qc)) →
              ∃ st' b', foldl step (st1, b1) cands = (st', b')
                ∧ report_rows fitted st'
                  = report_rows fitted st ++ ((fun s => row_of s) <$> s :: cands)
                ∧ artifacts fitted st' = artifacts fitted st
                ∧ (∀ s0, s0 ∈ s :: cands →
                         pipelines fitted st' s0 = Some (fit s0 X_train y_train))
                ∧ (∀ s0, s0 ∈ s :: cands → (best_mae b' ≤ mae s0)%Qc)
                ∧ ((best b' = best b ∧ best_mae b' = best_mae b)
                   ∨ (∃ s0, s0 ∈ s :: cands ∧ best b' = Some (s0, mae s0, rmse s0)
                            ∧ best_mae b' = mae s0 ∧ (mae s0 < best_mae b)%Qc)))
      as Hstep.
    { intros b1 Hle Hb1.
      destruct (IH st1 b1) as (st' & b' & Hfold & Hrep & Hart & Hpipe & Hmin & Hbest).
      exists st', b'. split; [done|]. split.
      { rewrite Hrep. unfold st1. simpl. by rewrite <- app_assoc. }
      split; [done|].
      assert ((best_mae b' ≤ best_mae b1)%Qc) as Hmono.
      { destruct Hbest as [[_ ->]|(s0 & _ & _ & -> & Hlt)]; [reflexivity|].
        by apply Qclt_le_weak. }
      split; [|split].
      - intros s0 [->|Hs0]%elem_of_cons; [|by apply Hpipe].
        destruct (decide (s ∈ cands)) as [Hin|Hnin]; [by apply Hpipe|].
        assert (∀ cs st2 b2, s ∉ cs →
                  pipelines fitted (foldl step (st2, b2) cs).1 s
                  = pipelines fitted st2 s) as Hkeep.
        { induction cs as [|c cs IHcs]; intros st2 b2 Hn; [done|].
          apply not_elem_of_cons in Hn as [Hne Hn]. simpl.
          case_bool_decide; rewrite IHcs by done; simpl; by rewrite decide_False. }
        specialize (Hkeep cands st1 b1 Hnin). rewrite Hfold in Hkeep. simpl in Hkeep.
        rewrite Hkeep. unfold st1. simpl. by rewrite decide_True.
      - intros s0 [->|Hs0]%elem_of_cons; [by etrans|by apply Hmin].
      - destruct Hbest as [[Hb Hm]|(s0 & Hs0 & Hb & Hm & Hlt)].
        + destruct Hb1 as [[Hb1 Hm1]|(Hb1 & Hm1 & Hlt1)].
          * left. split; congruence.
          * right. exists s. split; [left|]. split; [congruence|].
            split; [congruence|done].
        + right. exists s0. split; [by right|]. split; [done|]. split; [done|].
          destruct Hb1 as [[_ Hm1]|(_ & Hm1 & Hlt1)].
          * by rewrite <- Hm1.
          * rewrite Hm1 in Hlt. by etrans. }
    case_bool_decide as Hlt.
    + apply Hstep; [reflexivity|]. right. done.
    + apply Hstep; [by apply Qcnot_lt_le|]. by left.
Qed.

End TrainerSelection.

Section TrainerTarget.
Import train_models_team.

Variable L : Lib.
Variable fitted : Type.
Variable fit : strategy → list (list cell) → list Qc → fitted.
Variable predict : fitted → list (list cell) → list Qc.
Variable sqrt : Qc → Qc.

(** A target with two non-empty splits.  When some candidate has a holdout
    MAE below the initial [best_mae], the artifact written for the target is
    a candidate of lowest MAE, fitted on the training split, and the report
    gains one row per candidate.  When no candidate has, [best] is still
    [None] after the loop and unpacking it raises. *)
Lemma train_target_selects hs feat_cols df st y y_train y_test :
  train_split L y hs df ≠ [] → test_split L y hs df ≠ [] →
  target_vector y (train_split L y hs df) = Ok y_train →
  target_vector y (test_split L y hs df) = Ok y_test →
  let X_train := matrix feat_cols (train_split L y hs df) in
  let X_test := matrix feat_cols (test_split L y hs df) in
  let mae s := mean_absolute_error y_test (predict (fit s X_train y_train) X_test) in
  let rmse s :=
    sqrt (mean_squared_error y_test (predict (fit s X_train y_train) X_test)) in
  ((∃ s, s ∈ CANDIDATES ∧ (mae s < BEST_MAE_INIT)%Qc) →
   ∃ s_best st',
     train_target L fitted fit predict sqrt hs feat_cols df st y = Ok st'
     ∧ s_best ∈ CANDIDATES
     ∧ (∀ s, s ∈ CANDIDATES → (mae s_best ≤ mae s)%Qc)
     ∧ artifacts fitted st'
       = <["team_" +:+ y +:+ ".joblib" := (s_best, fit s_best X_train y_train)]>
           (artifacts fitted st)
     ∧ report_rows fitted st'
       = report_rows fitted st
         ++ ((fun s => report_row y s hs (mae s) (rmse s) (length X_train)
                         (length X_test) (length feat_cols)) <$> CANDIDATES))
  ∧ ((∀ s, s ∈ CANDIDATES → (BEST_MAE_INIT ≤ mae s)%Qc) →
     train_target L fitted fit predict sqrt hs feat_cols df st y
     = TypeError "cannot unpack non-iterable NoneType object").
Proof.
  intros Htrain Htest Hytrain Hytest X_train X_test mae rmse.
  unfold train_target.
  rewrite (bool_decide_false (length (test_split L y hs df) = 0)),
    (bool_decide_false (length (train_split L y hs df) = 0)).
  2:{ by destruct (train_split L y hs df). }
  2:{ by destruct (test_split L y hs df). }
  rewrite Hytrain, Hytest. unfold mbind, result_bind. cbv beta iota.
  destruct (try_candidates_spec fitted fit predict sqrt y hs feat_cols
              X_train y_train X_test y_test CANDIDATES st
              {| best := None; best_mae := BEST_MAE_INIT |})
    as (st' & b' & Hfold & Hrep & Hart & Hpipe & Hmin & Hbest).
  fold X_train X_test. rewrite Hfold. simpl in Hbest. split.
  - intros (s & Hs & Hlt).
    destruct Hbest as [[Hb Hm]|(s0 & Hs0 & Hb & Hm & _)].
    + exfalso. specialize (Hmin s Hs). rewrite Hm in Hmin.
      by apply (Qcle_not_lt _ _ Hmin).
    + rewrite Hb, (Hpipe s0 Hs0). exists s0. eexists. split; [reflexivity|].
      split; [done|]. split.
      { intros s1 Hs1. fold (mae s0) in Hm. rewrite <- Hm. by apply Hmin. }
      simpl. by rewrite Hart.
  - intros Hall.
    destruct Hbest as [[-> _]|(s0 & Hs0 & _ & _ & Hlt)]; [done|].
    exfalso. by apply (Qcle_not_lt _ _ (Hall s0 Hs0)).
Qed.

End TrainerTarget.

(** The trainer on a table with two seasons: ridge and hgb tie on the
    holdout MAE, the first of them is written, the report has the three
    rows of the trained target, and the target without a training split
    leaves no trace. *)
Example trainer_example :
  match train_models_team.main example_lib train_models_team.strategy example_fit
          example_model_predict example_sqrt example_model_table with
  | Ok (written, report) =>
      ((fun kv => (kv.1, kv.2.1)) <$> map_to_list written,
       (fun r => (get r "target", get r "model")) <$> rows report)
  | _ => ([], [])
  end
  = ([("team_y_goalsFor.joblib", train_models_team.ridge)],
     [(Str "y_goalsFor", Str "ridge"); (Str "y_goalsFor", Str "hgb");
      (Str "y_goalsFor", Str "rf")]).
Proof. vm_compute. reflexivity. Qed.

(** C8: the code at its failing inputs.  On a table with a single season
    every target is skipped, [report_rows] stays empty, and sorting the
    report by [target] raises KeyError instead of writing an empty report.
    On a table whose holdout errors all reach [1e18] no candidate beats the
    initial [best_mae], [best] stays [None], and unpacking it raises
    TypeError instead of writing the candidate of lowest MAE. *)
Theorem selection_defects :
  train_models_team.main example_lib train_models_team.strategy example_fit
    example_model_predict example_sqrt example_single_season
  = KeyError "target"
  ∧ train_models_team.main example_lib train_models_team.strategy example_fit
      example_model_predict example_sqrt example_huge_target
    = TypeError "cannot unpack non-iterable NoneType object".
Proof. split; vm_compute; reflexivity. Qed.
(** * Further properties *)

(** ** Text: [strip], [replace], [endswith] *)

Section TextFacts.

Lemma string_app_nil_r (s : string) : s +:+ "" = s.
Proof. induction s as [|a s IH]; [done|]. by rewrite app_String, IH. Qed.

Lemma string_app_assoc (s t u : string) : (s +:+ t) +:+ u = s +:+ (t +:+ u).
Proof. induction s as [|a s IH]; [done|]. by rewrite !app_String, IH. Qed.

Lemma rev_string_acc (acc s : string) : rev_string acc s = rev_string "" s +:+ acc.
Proof.
  revert acc. induction s as [|a s IH]; intros acc; [done|]. simpl.
  rewrite (IH (String a acc)), (IH (String a "")).
  by rewrite string_app_assoc.
Qed.

Lemma rev_string_append (s t : string) :
  rev_string "" (s +:+ t) = rev_string "" t +:+ rev_string "" s.
Proof.
  induction s as [|a s IH]; simpl.
  - by rewrite string_app_nil_r.
  - rewrite (rev_string_acc (String a "") (s +:+ t)), IH,
      (rev_string_acc (String a "") s).
    by rewrite string_app_assoc.
Qed.

Lemma rev_string_involutive (s : string) : rev_string "" (rev_string "" s) = s.
Proof.
  induction s as [|a s IH]; [done|]. simpl.
  rewrite (rev_string_acc (String a "") s), rev_string_append. simpl.
  by rewrite IH.
Qed.

(** A string that does not start with white space. *)
Local Abbreviation no_leading_space s :=
  (match s with String a _ => is_space a = false | EmptyString => True end).

Lemma lstrip_fixed (s : string) : no_leading_space s → lstrip s = s.
Proof. destruct s as [|a s]; [done|]. simpl. by intros ->. Qed.

Lemma lstrip_split (s : string) :
  ∃ p, s = p +:+ lstrip s ∧ no_leading_space (lstrip s).
Proof.
  induction s as [|a s (p & Hp & Hn)]; [by exists ""|]. simpl.
  destruct (is_space a) eqn:Ha.
  - exists (String a p). by rewrite app_String, <- Hp.
  - exists "". simpl. by rewrite Ha.
Qed.

Lemma strip_idemp (s : string) : strip (strip s) = strip s.
Proof.
  unfold strip, rstrip.
  destruct (lstrip_split s) as (_ & _ & Hl).
  set (l := lstrip s) in *.
  destruct (lstrip_split (rev_string "" l)) as (p & Hp & Hu).
  set (u := lstrip (rev_string "" l)) in *.
  assert (no_leading_space (rev_string "" u)) as Ht.
  { apply (f_equal (rev_string "")) in Hp.
    rewrite rev_string_involutive, rev_string_append in Hp.
    destruct (rev_string "" u) as [|b t] eqn:Hb; [done|].
    rewrite Hp in Hl. by rewrite app_String in Hl. }
  rewrite (lstrip_fixed _ Ht), rev_string_involutive.
  by rewrite (lstrip_fixed u Hu).
Qed.

End TextFacts.

(** ** Column labels: [strip_and_dedup_columns], [first_existing_col] *)

Section LabelFacts.
Import common.

Lemma first_labels_elem seen cols c' c :
  (c', c) ∈ first_labels seen cols
  ↔ ∃ pre post, cols = pre ++ c :: post ∧ strip c = c' ∧ (c' ∉ seen)
                ∧ ∀ x, x ∈ pre → strip x ≠ c'.
Proof.
  revert seen. induction cols as [|c0 cs IH]; intros seen; simpl.
  { split; [by intros ?%elem_of_nil|]. by intros ([|??] & ? & ? & _). }
  case_bool_decide as Hseen.
  - rewrite IH. split.
    + intros (pre & post & -> & Hc & Hn & Hpre).
      exists (c0 :: pre), post. repeat split; try done.
      intros x [->|Hx]%elem_of_cons; [congruence|by apply Hpre].
    + intros ([|x pre] & post & Heq & Hc & Hn & Hpre); simplify_eq/=; [done|].
      exists pre, post. repeat split; try done.
      intros y Hy. apply Hpre. by right.
  - rewrite elem_of_cons, IH. split.
    + intros [[= -> ->]|(pre & post & -> & Hc & Hn & Hpre)].
      * exists [], cs. repeat split; try done. by intros ? ?%elem_of_nil.
      * apply not_elem_of_cons in Hn as [Hne Hn].
        exists (c0 :: pre), post. repeat split; try done.
        intros x [->|Hx]%elem_of_cons; [done|by apply Hpre].
    + intros ([|x pre] & post & Heq & Hc & Hn & Hpre); simplify_eq/=; [by left|].
      right. exists pre, post. repeat split; try done.
      * apply not_elem_of_cons. split; [|done].
        intros Heq. by apply (Hpre x); [left|].
      * intros y Hy. apply Hpre. by right.
Qed.

Lemma first_labels_stripped seen cols c :
  c ∈ (first_labels seen cols).*1 → strip c = c.
Proof.
  intros ([c' c0] & -> & H)%list_elem_of_fmap. simpl.
  apply first_labels_elem in H as (_ & _ & _ & <- & _). apply strip_idemp.
Qed.

Lemma first_labels_clean seen l :
  NoDup l → (∀ c, c ∈ l → strip c = c ∧ c ∉ seen) →
  first_labels seen l = (fun c => (c, c)) <$> l.
Proof.
  revert seen. induction l as [|c l IH]; intros seen Hnd Hl; [done|]. cbn [first_labels fmap list_fmap].
  apply NoDup_cons in Hnd as [Hc Hnd].
  destruct (Hl c) as [Hs Hn]; [by left|]. rewrite Hs.
  rewrite bool_decide_false by done. f_equal.
  apply IH; [done|]. intros x Hx. destruct (Hl x) as [? ?]; [by right|].
  split; [done|]. apply not_elem_of_cons. split; [|done]. by intros ->.
Qed.

Lemma lookup_list_to_map_diag (f : string → cell) (l : list string) k :
  (list_to_map ((fun c => (c, f c)) <$> l) : row) !! k
  = if decide (k ∈ l) then Some (f k) else None.
Proof.
  induction l as [|c l IH].
  { rewrite fmap_nil, list_to_map_nil, lookup_empty.
    by destruct (decide (k ∈ [])) as [?%elem_of_nil|]. }
  rewrite fmap_cons, list_to_map_cons.
  destruct (decide (c = k)) as [->|Hne].
  - rewrite lookup_insert_eq, decide_True; [done|by left].
  - rewrite lookup_insert_ne by done. rewrite IH.
    destruct (decide (k ∈ l)) as [Hin|Hnin].
    + rewrite decide_True; [done|by right].
    + rewrite decide_False; [done|]. apply not_elem_of_cons. by split.
Qed.

Lemma lookup_relabelled (m : list (string * string)) (r : row) k c :
  NoDup m.*1 → (k, c) ∈ m →
  (list_to_map ((fun p => (p.1, get r p.2)) <$> m) : row) !! k = Some (get r c).
Proof.
  intros Hnd Hin. apply elem_of_list_to_map.
  - by rewrite <- list_fmap_compose.
  - apply list_elem_of_fmap. by exists (k, c).
Qed.

Lemma lookup_relabelled_None (m : list (string * string)) (r : row) k :
  k ∉ m.*1 →
  (list_to_map ((fun p => (p.1, get r p.2)) <$> m) : row) !! k = None.
Proof.
  intros Hn. apply not_elem_of_list_to_map.
  by rewrite <- list_fmap_compose.
Qed.

End LabelFacts.

(** X1.  [strip_and_dedup_columns] never raises: the check for labels that
    are still duplicated cannot fail.  The labels of the result are the
    stripped labels of the input, each once, the rows are as many as before,
    and under a label every row holds the cell of the first input column
    whose stripped label it is. *)
Theorem strip_and_dedup_columns_total (df : DataFrame) :
  ∃ out, common.strip_and_dedup_columns df = Ok out
    ∧ NoDup (columns out)
    ∧ (∀ c, c ∈ columns out ↔ ∃ c0, c0 ∈ columns df ∧ strip c0 = c)
    ∧ Forall2 (fun r o : row =>
                 ∀ pre c0 post, columns df = pre ++ c0 :: post →
                   (∀ x, x ∈ pre → strip x ≠ strip c0) →
                   get o (strip c0) = get r c0)
        (rows df) (rows out).
Proof.
  unfold common.strip_and_dedup_columns. cbv zeta. simpl columns.
  pose proof (first_labels_NoDup [] (columns df)) as Hnd.
  rewrite bool_decide_true by done.
  eexists. split; [reflexivity|]. split; [done|]. split.
  - intros c. simpl. rewrite list_elem_of_fmap. split.
    + intros ([c' c0] & -> & H). simpl.
      apply first_labels_elem in H as (pre & post & Hcols & Hc & _).
      exists c0. split; [|done]. rewrite Hcols, elem_of_app. right. by left.
    + intros (c0 & Hin & <-).
      assert (∀ cols seen, c0 ∈ cols → strip c0 ∉ seen →
                ∃ c1, (strip c0, c1) ∈ common.first_labels seen cols) as Hex.
      { induction cols as [|x cols IH]; intros seen Hx Hs; [by apply elem_of_nil in Hx|].
        cbn [common.first_labels]. case_bool_decide as Hseen.
        - apply elem_of_cons in Hx as [->|Hx]; [done|]. by apply IH.
        - destruct (decide (strip x = strip c0)) as [Heq|Hne].
          + exists x. rewrite Heq. by left.
          + apply elem_of_cons in Hx as [->|Hx]; [done|].
            destruct (IH (strip x :: seen) Hx) as (c1 & Hc1).
            { apply not_elem_of_cons. split; [congruence|done]. }
            exists c1. by right. }
      destruct (Hex (columns df) [] Hin) as (c1 & Hc1); [apply not_elem_of_nil|].
      by exists (strip c0, c1).
  - simpl. apply Forall2_fmap_r, Forall_Forall2_diag, Forall_forall.
    intros r _ pre c0 post Hcols Hpre. unfold get at 1.
    erewrite lookup_relabelled; [done|done|].
    apply first_labels_elem. exists pre, post. repeat split; try done.
    apply not_elem_of_nil.
Qed.

(** X2.  Cleaning the labels twice is cleaning them once:
    [strip_and_dedup_columns] returns its own result unchanged. *)
Theorem strip_and_dedup_columns_idempotent (df : DataFrame) :
  common.strip_and_dedup_columns df ≫= common.strip_and_dedup_columns
  = common.strip_and_dedup_columns df.
Proof.
  unfold common.strip_and_dedup_columns at 2 3. cbv zeta. simpl columns.
  pose proof (first_labels_NoDup [] (columns df)) as Hnd.
  rewrite bool_decide_true by done.
  set (m := common.first_labels [] (columns df)) in *.
  unfold mbind, result_bind.
  unfold common.strip_and_dedup_columns. cbv zeta. simpl columns.
  assert (common.first_labels [] m.*1 = (fun c => (c, c)) <$> m.*1) as Hm.
  { apply first_labels_clean; [done|]. intros c Hc. split; [|apply not_elem_of_nil].
    by eapply first_labels_stripped. }
  rewrite Hm.
  assert (((fun c : string => (c, c)) <$> m.*1).*1 = m.*1) as Hid.
  { rewrite <- list_fmap_compose. apply list_fmap_id. }
  rewrite Hid, bool_decide_true by done.
  do 2 f_equal. simpl rows. rewrite <- list_fmap_compose.
  apply list_fmap_ext. intros _ r _. simpl.
  rewrite <- list_fmap_compose. apply map_eq. intros k.
  etrans;
    [exact (lookup_list_to_map_diag
              (fun c => get (list_to_map ((fun p => (p.1, get r p.2)) <$> m) : row) c)
              m.*1 k)|].
  destruct (decide (k ∈ m.*1)) as [Hin|Hnin].
  - apply list_elem_of_fmap in Hin as ([k' c] & -> & Hin). simpl.
    unfold get at 1. by rewrite !(lookup_relabelled m r k' c).
  - by rewrite lookup_relabelled_None.
Qed.

(** X3.  The three column look-ups of the pipeline ([first_existing_col] and
    the two [pick_col]) are one function: it returns the first candidate
    that labels a column, and [None] exactly when no candidate does. *)
Theorem first_existing_col_spec (df : DataFrame) (cands : list string) :
  build_features.pick_col df cands = common.first_existing_col df cands
  ∧ build_model_tables.pick_col df cands = common.first_existing_col df cands
  ∧ (∀ c, common.first_existing_col df cands = Some c
          ↔ ∃ pre post, cands = pre ++ c :: post ∧ has_col df c = true
                        ∧ ∀ x, x ∈ pre → has_col df x = false)
  ∧ (common.first_existing_col df cands = None
     ↔ ∀ x, x ∈ cands → has_col df x = false).
Proof.
  split; [by induction cands as [|c cs IH]; simpl; [|rewrite IH]|].
  split; [by induction cands as [|c cs IH]; simpl; [|rewrite IH]|].
  split.
  - intros c. induction cands as [|c0 cs IH]; simpl.
    { split; [done|]. by intros ([|??] & ? & ? & _). }
    destruct (has_col df c0) eqn:H0.
    + split.
      * intros [= ->]. exists [], cs. repeat split; try done.
        by intros ? ?%elem_of_nil.
      * intros ([|x pre] & post & Heq & Hc & Hpre); simplify_eq/=; [done|].
        rewrite Hpre in H0; [done|by left].
    + rewrite IH. split.
      * intros (pre & post & -> & Hc & Hpre). exists (c0 :: pre), post.
        repeat split; try done.
        intros x [->|Hx]%elem_of_cons; [done|by apply Hpre].
      * intros ([|x pre] & post & Heq & Hc & Hpre); simplify_eq/=; [congruence|].
        exists pre, post. repeat split; try done. intros y Hy. apply Hpre. by right.
  - induction cands as [|c0 cs IH]; simpl.
    { split; [by intros _ ? ?%elem_of_nil|done]. }
    destruct (has_col df c0) eqn:H0.
    + split; [done|]. intros H. rewrite H in H0; [done|by left].
    + rewrite IH. split.
      * intros H x [->|Hx]%elem_of_cons; [done|by apply H].
      * intros H x Hx. apply H. by right.
Qed.

(** ** The schema normaliser keeps what it is given *)

Section NormaliserKeeps.
Import common.

Variable L : Lib.
Variable df : DataFrame.

(** [cur] extends [df]: the labels of [df] come first, and every cell of
    [df] outside [gameDate] is still there. *)
Local Abbreviation extends cur :=
  (columns df `prefix_of` columns cur
   ∧ Forall2 (fun r r' : row =>
                ∀ c, has_col df c = true → c ≠ "gameDate" → get r' c = get r c)
       (rows df) (rows cur)).

Lemma extends_map_column T (f : row → cell) cur :
  has_col cur T = false ∨ T = "gameDate" →
  extends cur → extends (map_column T f cur).
Proof.
  intros HT [Hpre Hrows]. split.
  - unfold map_column. rewrite columns_set_column.
    destruct (has_col cur T); [done|]. by apply prefix_app_r.
  - rewrite rows_map_column. apply Forall2_fmap_r.
    eapply Forall2_impl; [exact Hrows|]. intros r r' Hr c Hc Hne. simpl.
    rewrite get_insert_ne; [by apply Hr|].
    intros <-. destruct HT as [HT| ->]; [|done].
    apply has_col_true in Hc. apply has_col_false in HT. apply HT.
    destruct Hpre as [k ->]. apply elem_of_app. by left.
Qed.

Lemma extends_alias_column T cands cur :
  extends cur → extends (alias_column T cands cur).
Proof.
  intros H. unfold alias_column.
  destruct (has_col cur T) eqn:HT; [done|].
  destruct (truthy _); [|done]. apply extends_map_column; auto.
Qed.

Lemma extends_standardize : extends (standardize_team_game_cols L df).
Proof.
  assert (extends df) as H0.
  { split; [done|]. apply Forall_Forall2_diag, Forall_forall. done. }
  rewrite standardize_unfold.
  assert (extends (standardize_aliases L df)) as H1.
  { unfold standardize_aliases.
    apply extends_alias_column.
    set (d3 := alias_column "gameId" _ _).
    assert (extends d3) as H3 by (by do 3 apply extends_alias_column).
    destruct (has_col d3 "gameDate").
    - apply extends_map_column; auto.
    - destruct (truthy _); [|done]. apply extends_map_column; auto. }
  destruct (has_col (standardize_aliases L df) "situation") eqn:Hs; [done|].
  apply extends_map_column; auto.
Qed.

End NormaliserKeeps.

(** X4.  [standardize_team_game_cols] only adds: the labels of its input
    come first in its result, in their order, and every cell of the input
    is kept as it is, the cells of [gameDate] excepted, which are parsed; a
    label the result has and the input has not is one of the six canonical
    ones. *)
Theorem standardize_keeps_input (L : Lib) (df : DataFrame) :
  columns df `prefix_of` columns (common.standardize_team_game_cols L df)
  ∧ Forall2 (fun r r' : row =>
               ∀ c, has_col df c = true → c ≠ "gameDate" → get r' c = get r c)
      (rows df) (rows (common.standardize_team_game_cols L df))
  ∧ ∀ c, has_col (common.standardize_team_game_cols L df) c = true →
         has_col df c = true
         ∨ c ∈ ["team"; "team_opp"; "gameId"; "gameDate"; "home_or_away"; "situation"].
Proof.
  destruct (extends_standardize L df) as [Hpre Hrows].
  split; [done|]. split; [done|].
  intros c. rewrite standardize_unfold.
  assert (∀ T (f : row → cell) cur, has_col (map_column T f cur) c = true →
            has_col cur c = true ∨ c = T) as Hmap.
  { intros T f cur. rewrite has_col_map_column.
    intros [?|?%bool_decide_eq_true]%orb_true_iff; auto. }
  assert (∀ T cands cur, has_col (common.alias_column T cands cur) c = true →
            has_col cur c = true ∨ c = T) as Halias.
  { intros T cands cur. unfold common.alias_column.
    destruct (has_col cur T); [by left|]. destruct (common.truthy _); [|by left].
    apply Hmap. }
  assert (has_col (common.standardize_aliases L df) c = true →
          has_col df c = true
          ∨ c ∈ ["team"; "team_opp"; "gameId"; "gameDate"; "home_or_away"]) as Hal.
  { unfold common.standardize_aliases.
    intros [H| ->]%Halias; [|right; compute_done].
    assert (has_col (common.alias_column "gameId" ["game_id"; "gamePk"; "id"]
              (common.alias_column "team_opp"
                 ["opposingTeam"; "opponentTeam"; "oppTeam"; "opponent"]
                 (common.alias_column "team" ["playerTeam"; "teamAbbrev"; "teamCode"] df)))
              c = true ∨ c = "gameDate") as [H3| ->]; [| |right; compute_done].
    { match type of H with
      | has_col (if ?b then _ else _) _ = _ => destruct b
      end; [by apply Hmap in H|].
      match type of H with
      | has_col (match ?t with _ => _ end) _ = _ => destruct t
      end; [by apply Hmap in H|by left]. }
    apply Halias in H3 as [H3| ->]; [|right; compute_done].
    apply Halias in H3 as [H3| ->]; [|right; compute_done].
    apply Halias in H3 as [H3| ->]; [by left|right; compute_done]. }
  assert (∀ x, x ∈ ["team"; "team_opp"; "gameId"; "gameDate"; "home_or_away"] →
            x ∈ ["team"; "team_opp"; "gameId"; "gameDate"; "home_or_away"; "situation"])
    as Hsub.
  { intros x Hx.
    change (x ∈ ["team"; "team_opp"; "gameId"; "gameDate"; "home_or_away"]
                ++ ["situation"]).
    apply elem_of_app. by left. }
  destruct (has_col (common.standardize_aliases L df) "situation").
  - intros [?|?]%Hal; [by left|right; by apply Hsub].
  - intros [[?|?]%Hal| ->]%Hmap; [by left|right; by apply Hsub|right; compute_done].
Qed.

(** ** Team codes, once more *)

Section CodesAgain.
Import common build_features.

Lemma normalize_code_idemp s :
  TEAM_MAP !! normalize_code s = None
  ∧ strip (normalize_code s) = normalize_code s
  ∧ normalize_code (normalize_code s) = normalize_code s.
Proof.
  assert (normalize_code s
          = match TEAM_MAP !! strip s with Some v => v | None => strip s end) as ->.
  { unfold normalize_code, replace. by destruct (TEAM_MAP !! strip s). }
  destruct (TEAM_MAP !! strip s) as [v|] eqn:Hv.
  - apply TEAM_MAP_entries in Hv.
    repeat (apply elem_of_cons in Hv as [[= _ ->]|Hv]; [by vm_compute|]).
    by apply elem_of_nil in Hv.
  - split; [done|]. split; [apply strip_idemp|].
    unfold normalize_code, replace. by rewrite strip_idemp, Hv.
Qed.

End CodesAgain.

(** X5.  Cleaned team codes are stable.  No cleaned code is one of the short
    aliases, a cleaned code carries no surrounding white space, and cleaning
    it again changes nothing, on a single code and on a table.  The
    projector cleans the schedule with the same alias map. *)
Theorem team_codes_stable (L : Lib) (df : DataFrame) :
  (∀ s, common.TEAM_MAP !! build_features.normalize_code s = None
        ∧ strip (build_features.normalize_code s) = build_features.normalize_code s
        ∧ build_features.normalize_code (build_features.normalize_code s)
          = build_features.normalize_code s)
  ∧ columns (build_features.normalize_teams L (build_features.normalize_teams L df))
    = columns (build_features.normalize_teams L df)
  ∧ Forall2 (fun r r' : row => ∀ c, get r' c = get r c)
      (rows (build_features.normalize_teams L df))
      (rows (build_features.normalize_teams L (build_features.normalize_teams L df)))
  ∧ project_upcoming.TEAM_MAP = common.TEAM_MAP.
Proof.
  split; [apply normalize_code_idemp|].
  split; [by rewrite !normalize_teams_columns|].
  split; [|done].
  pose proof (normalize_teams_rows L df) as H1.
  pose proof (normalize_teams_rows L (build_features.normalize_teams L df)) as H2.
  apply Forall2_same_length_lookup_2; [by eapply Forall2_length|].
  intros i r1 r2 Hr1 Hr2.
  destruct (Forall2_lookup_r _ _ _ _ _ H1 Hr1) as (r0 & Hr0 & E1).
  destruct (Forall2_lookup_l _ _ _ _ _ H2 Hr1) as (r2' & Hr2' & E2).
  assert (r2' = r2) as -> by congruence.
  intros c. rewrite E2.
  assert (has_col (build_features.normalize_teams L df) c = has_col df c) as ->.
  { unfold has_col. by rewrite normalize_teams_columns. }
  destruct (bool_decide (c ∈ ["team"; "team_opp"]) && has_col df c) eqn:Hc; [|done].
  rewrite !E1, Hc. simpl. f_equal. apply normalize_code_idemp.
Qed.

(** ** Medians and units *)

Section Minutes.
Import common.

Lemma Qc_of_Z_neq_0 (z : Z) : z ≠ 0%Z → Qc_of_Z z ≠ 0%Qc.
Proof.
  intros Hz E. apply (f_equal (fun q => Qnum (this q))) in E. simpl in E. done.
Qed.

Lemma fdiv_Num_const (x : Qc) (z : Z) :
  z ≠ 0%Z → fdiv (Num x) (Num (Qc_of_Z z)) = Num (x / Qc_of_Z z)%Qc.
Proof.
  intros Hz. unfold fdiv. by rewrite bool_decide_false by by apply Qc_of_Z_neq_0.
Qed.

(** The median of values that all satisfy a property kept by the mean of
    two is a number with that property. *)
Lemma nanmedian_closed (P : Qc → Prop) (y : list cell) :
  (∀ a b, P a → P b → P ((a + b) / Qc_of_Z 2)%Qc) →
  (∀ v, v ∈ y → v = NA ∨ ∃ q, v = Num q ∧ P q) →
  (∃ v, v ∈ y ∧ isna v = false) →
  ∃ m, nanmedian y = Num m ∧ P m.
Proof.
  intros Havg Hall (v0 & Hv0 & Hna0). unfold nanmedian.
  set (s := merge_sort cell_le (filter (fun c => isna c = false) y)).
  assert (∀ v, v ∈ s → ∃ q, v = Num q ∧ P q) as Hs.
  { intros v Hv. unfold s in Hv. rewrite merge_sort_Permutation in Hv.
    apply list_elem_of_filter in Hv as [Hna Hv].
    destruct (Hall v Hv) as [->|?]; done. }
  assert (length s ≠ 0) as Hlen.
  { assert (v0 ∈ s) as Hin.
    { unfold s. rewrite merge_sort_Permutation. by apply list_elem_of_filter. }
    destruct s; [by apply elem_of_nil in Hin|done]. }
  assert (∀ i, i < length s → ∃ q, default NA (s !! i) = Num q ∧ P q) as Hat.
  { intros i Hi. destruct (lookup_lt_is_Some_2 s i Hi) as [v Hv].
    rewrite Hv. simpl. apply Hs. by eapply list_elem_of_lookup_2. }
  destruct (length s) as [|n] eqn:Hn; [done|].
  destruct (Nat.odd (S n)) eqn:Hodd.
  - apply Hat. apply Nat.div_lt; lia.
  - assert (2 ≤ S n) as H2.
    { destruct n; [done|lia]. }
    destruct (Hat (S n / 2 - 1)) as (a & -> & Ha).
    { pose proof (Nat.div_lt (S n) 2). lia. }
    destruct (Hat (S n / 2)) as (b & -> & Hb).
    { apply Nat.div_lt; lia. }
    simpl fadd. rewrite fdiv_Num_const by done. eauto.
Qed.

Lemma nanmedian_all_missing (y : list cell) :
  (∀ v, v ∈ y → v = NA) → nanmedian y = NA.
Proof.
  intros Hall. unfold nanmedian.
  assert (filter (fun c => isna c = false) y = []) as ->; [|done].
  induction y as [|v y IH]; [done|].
  rewrite filter_cons. rewrite (Hall v) by by left. simpl.
  apply IH. intros x Hx. apply Hall. by right.
Qed.

Lemma Qc_mean_above (c a b : Qc) :
  (c < a)%Qc → (c < b)%Qc → (c < (a + b) / Qc_of_Z 2)%Qc.
Proof.
  unfold Qclt. intros Ha Hb. simpl. rewrite !Qred_correct.
  apply Qlt_shift_div_l; [reflexivity|]. unfold inject_Z. lra.
Qed.

Lemma Qc_mean_below (c a b : Qc) :
  (a ≤ c)%Qc → (b ≤ c)%Qc → ((a + b) / Qc_of_Z 2 ≤ c)%Qc.
Proof.
  unfold Qcle. intros Ha Hb. simpl. rewrite !Qred_correct.
  apply Qle_shift_div_r; [reflexivity|]. unfold inject_Z. lra.
Qed.

Lemma isna_fdiv_const (L : Lib) (v : cell) (z : Z) :
  z ≠ 0%Z →
  isna (fdiv (to_numeric L v) (Num (Qc_of_Z z))) = isna (to_numeric L v).
Proof.
  intros Hz. pose proof (to_numeric_is_float L v) as Hf.
  destruct (to_numeric L v); try done. by rewrite fdiv_Num_const.
Qed.

End Minutes.

(** X6.  [ensure_minutes] keeps the length of the column and which of its
    values are missing.  A column with a value present and all of them above
    200 is read as seconds and divided by 60; a column with no value above
    200, an empty one included, only goes through the conversion to
    numbers. *)
Theorem ensure_minutes_units (L : Lib) (x : list cell) :
  length (common.ensure_minutes L x) = length x
  ∧ Forall2 (fun v v' => isna v' = isna (to_numeric L v)) x (common.ensure_minutes L x)
  ∧ ((∃ v, v ∈ x ∧ isna (to_numeric L v) = false) →
     (∀ v, v ∈ x → to_numeric L v = NA
                   ∨ ∃ q, to_numeric L v = Num q ∧ (Qc_of_Z 200 < q)%Qc) →
     common.ensure_minutes L x
     = (fun v => fdiv (to_numeric L v) (Num (Qc_of_Z 60))) <$> x)
  ∧ ((∀ v, v ∈ x → to_numeric L v = NA
                   ∨ ∃ q, to_numeric L v = Num q ∧ (q ≤ Qc_of_Z 200)%Qc) →
     common.ensure_minutes L x = to_numeric L <$> x).
Proof.
  unfold common.ensure_minutes. cbv zeta.
  set (y := to_numeric L <$> x).
  set (med := match y with [] => NA | _ => nanmedian y end).
  assert (∀ P : Qc → Prop,
            (∀ v, v ∈ x → to_numeric L v = NA ∨ ∃ q, to_numeric L v = Num q ∧ P q) →
            ∀ v, v ∈ y → v = NA ∨ ∃ q, v = Num q ∧ P q) as Hy.
  { intros P HP v (v0 & -> & Hv0)%list_elem_of_fmap. by apply HP. }
  split; [|split; [|split]].
  - assert (length y = length x) as Hlen by apply length_fmap.
    destruct med as [|m| | |]; try done.
    case_bool_decide; [|done]. by rewrite length_fmap.
  - assert (Forall2 (fun v v' => isna v' = isna (to_numeric L v)) x y) as Hxy.
    { apply Forall2_fmap_r, Forall_Forall2_diag, Forall_forall. done. }
    destruct med as [|m| | |]; try done.
    case_bool_decide; [|done].
    unfold y. rewrite <- list_fmap_compose.
    apply Forall2_fmap_r, Forall_Forall2_diag, Forall_forall.
    intros v _. simpl. by apply isna_fdiv_const.
  - intros (v0 & Hv0 & Hna) Hall.
    destruct (nanmedian_closed (fun q => Qc_of_Z 200 < q)%Qc y) as (m & Hm & Hgt).
    { intros a b. apply Qc_mean_above. }
    { by apply Hy. }
    { exists (to_numeric L v0). split; [|done]. apply list_elem_of_fmap. eauto. }
    assert (med = Num m) as ->.
    { rewrite <- Hm. unfold med, y. by destruct x; [apply elem_of_nil in Hv0|]. }
    rewrite bool_decide_true by done. unfold y. by rewrite <- list_fmap_compose.
  - intros Hall. destruct x as [|x0 xs]; [done|].
    assert (med = nanmedian y) as -> by done.
    destruct (decide (Exists (fun v => isna v = false) y)) as [Hex%Exists_exists|Hno].
    + destruct (nanmedian_closed (fun q => q ≤ Qc_of_Z 200)%Qc y) as (m & Hm & Hle).
      { intros a b. apply Qc_mean_below. }
      { by apply Hy. }
      { done. }
      rewrite Hm. rewrite bool_decide_false; [done|]. by apply Qcle_not_lt.
    + rewrite nanmedian_all_missing; [done|].
      intros v Hv. destruct (isna v) eqn:E; [by destruct v|].
      exfalso. apply Hno, Exists_exists. eauto.
Qed.

(** ** Downloads *)

Section Downloads.
Import common.

Variable http_get : nat → string → string + string.
Variables (url out_path : string) (backoff sleep_s : Qc).

(** The pauses after the failed passes [i], ..., [i + j - 1]. *)
Local Abbreviation pauses i j := ((fun k => (backoff ^ (i + k))%Qc) <$> seq 0 j).

Lemma pauses_S i j :
  pauses i (S j) = (backoff ^ i)%Qc :: pauses (S i) j.
Proof.
  cbn [seq fmap list_fmap]. rewrite Nat.add_0_r. f_equal.
  rewrite <- fmap_S_seq, <- list_fmap_compose.
  apply list_fmap_ext. intros _ k _. simpl. by rewrite Nat.add_succ_r.
Qed.

Lemma try_download_success tries i last w j content :
  j < tries →
  (∀ j', j' < j → ∃ e, http_get (length (requests w) + j') url = inr e) →
  http_get (length (requests w) + j) url = inl content →
  try_download http_get url out_path backoff sleep_s tries i last w
  = (Returned true,
     {| disk := <[out_path := content]> (disk w);
        requests := requests w ++ replicate (S j) url;
        slept := slept w ++ pauses i j ++ [sleep_s] |}).
Proof.
  revert i last w j. induction tries as [|tries IH]; intros i last w j Hj Hfail Hok; [lia|].
  simpl. destruct j as [|j].
  - rewrite Nat.add_0_r in Hok. by rewrite Hok.
  - destruct (Hfail 0) as [e He]; [lia|]. rewrite Nat.add_0_r in He. rewrite He.
    rewrite (IH _ _ _ j); cbn [disk requests slept].
    + rewrite pauses_S. f_equal. f_equal; by rewrite <- app_assoc.
    + lia.
    + intros j' Hj'. rewrite length_app. simpl.
      destruct (Hfail (S j')) as [e' He']; [lia|]. exists e'.
      by rewrite <- He', <- Nat.add_assoc.
    + rewrite length_app. simpl. by rewrite <- Hok, <- Nat.add_assoc.
Qed.

Lemma try_download_failure tries i last w (errs : nat → string) :
  (∀ j, j < tries → http_get (length (requests w) + j) url = inr (errs j)) →
  try_download http_get url out_path backoff sleep_s tries i last w
  = (match tries with
     | O => match last with Some e => Raised e | None => RaisedNone end
     | S t => Raised (errs t)
     end,
     {| disk := disk w;
        requests := requests w ++ replicate tries url;
        slept := slept w ++ pauses i tries |}).
Proof.
  revert i last w errs.
  induction tries as [|tries IH]; intros i last w errs Hfail.
  { simpl. rewrite !app_nil_r. by destruct w. }
  cbn [try_download].
  pose proof (Hfail 0) as H0. rewrite Nat.add_0_r in H0. rewrite H0 by lia.
  rewrite (IH _ _ _ (fun j => errs (S j))); cbn [disk requests slept].
  - rewrite pauses_S. f_equal.
    + by destruct tries.
    + f_equal; by rewrite <- app_assoc.
  - intros j Hj. rewrite length_app. simpl.
    rewrite <- (Hfail (S j)) by lia. by rewrite <- Nat.add_assoc.
Qed.

End Downloads.

(** X7.  [download_with_retries], when the file is not taken from disk: if
    request number [j] of the call, with [j < max_tries], is the first to be
    answered, the call returns [True] after exactly [j + 1] requests of
    [url]; the file then holds that answer, nothing else on disk changes,
    and the pauses were [backoff ** 0], ..., [backoff ** (j - 1)] and then
    [sleep_s]. *)
Theorem download_with_retries_first_success
    (http_get : nat → string → string + string) (url out_path : string)
    (max_tries : nat) (force : bool) (backoff sleep_s : Qc) (w : common.world)
    (j : nat) (content : string) :
  force = true ∨ common.nonempty_file w out_path = false →
  j < max_tries →
  (∀ j', j' < j → ∃ e, http_get (length (common.requests w) + j') url = inr e) →
  http_get (length (common.requests w) + j) url = inl content →
  common.download_with_retries http_get url out_path max_tries force backoff sleep_s w
  = (common.Returned true,
     {| common.disk := <[out_path := content]> (common.disk w);
        common.requests := common.requests w ++ replicate (S j) url;
        common.slept := common.slept w
                        ++ ((fun k => (backoff ^ k)%Qc) <$> seq 0 j) ++ [sleep_s] |}).
Proof.
  intros Hgo Hj Hfail Hok. unfold common.download_with_retries.
  assert (negb force && common.nonempty_file w out_path = false) as ->.
  { destruct Hgo as [-> | ->]; [done|apply andb_false_r]. }
  by apply try_download_success.
Qed.

(** X8.  [download_with_retries], when the file is not taken from disk and
    every request fails: the call sends exactly [max_tries] requests, pauses
    [backoff ** i] after the failure of pass [i], leaves the disk as it was
    and raises the exception of the last request.  With [max_tries = 0] it
    sends nothing and executes [raise None]. *)
Theorem download_with_retries_all_fail
    (http_get : nat → string → string + string) (url out_path : string)
    (max_tries : nat) (force : bool) (backoff sleep_s : Qc) (w : common.world)
    (errs : nat → string) :
  force = true ∨ common.nonempty_file w out_path = false →
  (∀ j, j < max_tries →
        http_get (length (common.requests w) + j) url = inr (errs j)) →
  common.download_with_retries http_get url out_path max_tries force backoff sleep_s w
  = (match max_tries with
     | O => common.RaisedNone
     | S t => common.Raised (errs t)
     end,
     {| common.disk := common.disk w;
        common.requests := common.requests w ++ replicate max_tries url;
        common.slept := common.slept w
                        ++ ((fun k => (backoff ^ k)%Qc) <$> seq 0 max_tries) |}).
Proof.
  intros Hgo Hfail. unfold common.download_with_retries.
  assert (negb force && common.nonempty_file w out_path = false) as ->.
  { destruct Hgo as [-> | ->]; [done|apply andb_false_r]. }
  by rewrite (try_download_failure _ _ _ _ _ _ _ _ _ errs).
Qed.

Section Scrape.
Import common moneypuck_scrape.

Variable http_get : nat → string → string + string.

Lemma try_download_requests url out_path backoff sleep_s tries i last w :
  ∃ k, k ≤ tries
    ∧ requests (try_download http_get url out_path backoff sleep_s tries i last w).2
      = requests w ++ replicate k url
    ∧ (0 < tries → 0 < k).
Proof.
  revert i last w. induction tries as [|tries IH]; intros i last w.
  { exists 0. simpl. rewrite app_nil_r. split; [done|]. split; [done|lia]. }
  cbn [try_download]. destruct (http_get _ _) as [content|e].
  - exists 1. simpl. split; [lia|]. split; [done|lia].
  - destruct (IH (S i) (Some e)
                {| disk := disk w; requests := requests w ++ [url];
                   slept := slept w ++ [(backoff ^ i)%Qc] |}) as (k & Hk & Hreq & _).
    exists (S k). split; [lia|]. split; [|lia].
    rewrite Hreq. simpl. by rewrite <- app_assoc.
Qed.

Lemma download_requests url out_path max_tries force backoff sleep_s w :
  ∃ k, k ≤ max_tries
    ∧ requests (download_with_retries http_get url out_path max_tries force
                  backoff sleep_s w).2
      = requests w ++ replicate k url
    ∧ (force = true → 0 < max_tries → 0 < k).
Proof.
  unfold download_with_retries.
  destruct (negb force && nonempty_file w out_path) eqn:Hc.
  - exists 0. simpl. rewrite app_nil_r. split; [lia|]. split; [done|].
    intros ->. done.
  - destruct (try_download_requests url out_path backoff sleep_s max_tries 0 None w)
      as (k & ? & ? & ?). exists k. auto.
Qed.

Lemma scrape_entities_requests season season_type raw_dir end_season entities w :
  ∃ new,
    requests (scrape_entities http_get season season_type raw_dir end_season
                entities w).2 = requests w ++ new
    ∧ length new ≤ 6 * length entities
    ∧ ∀ u, u ∈ new →
        ∃ entity, entity ∈ entities ∧ u = season_summary_url season season_type entity.
Proof.
  revert w. induction entities as [|entity rest IH]; intros w.
  { exists []. simpl. rewrite app_nil_r. split; [done|]. split; [done|].
    by intros ? ?%elem_of_nil. }
  cbn [scrape_entities]. cbv zeta.
  destruct (download_requests (season_summary_url season season_type entity)
              (summary_path raw_dir season season_type entity) 6
              (bool_decide (season = end_season)) (Qc_of_Z 2) (Q2Qc (15 # 100)) w)
    as (k & Hk & Hreq & _).
  destruct (download_with_retries _ _ _ _ _ _ _ _) as [o w'] eqn:Hd.
  simpl in Hreq.
  assert (∀ u, u ∈ replicate k (season_summary_url season season_type entity) →
            ∃ e, e ∈ entity :: rest ∧ u = season_summary_url season season_type e)
    as Hfirst.
  { intros u [-> _]%elem_of_replicate. exists entity. split; [by left|done]. }
  assert (length (replicate k (season_summary_url season season_type entity))
          ≤ 6 * length (entity :: rest)) as Hlen.
  { rewrite length_replicate. simpl. lia. }
  destruct o as [b|e|]; try (eexists; split; [exact Hreq|]; split; done).
  destruct (IH w') as (new & Hnew & Hlen' & Hall).
  exists (replicate k (season_summary_url season season_type entity) ++ new).
  split; [by rewrite Hnew, Hreq, <- app_assoc|]. split.
  - rewrite length_app, length_replicate. simpl. lia.
  - intros u [Hu|Hu]%elem_of_app; [by apply Hfirst|].
    destruct (Hall u Hu) as (e & He & ->). exists e. split; [by right|done].
Qed.

Lemma scrape_entities_grows season season_type raw_dir entity rest w :
  length (requests w)
  < length (requests (scrape_entities http_get season season_type raw_dir season
                        (entity :: rest) w).2).
Proof.
  cbn [scrape_entities]. cbv zeta. rewrite bool_decide_true by done.
  destruct (download_requests (season_summary_url season season_type entity)
              (summary_path raw_dir season season_type entity)
              6 true (Qc_of_Z 2) (Q2Qc (15 # 100)) w) as (k & _ & Hreq & Hpos).
  specialize (Hpos eq_refl ltac:(lia)).
  destruct (download_with_retries _ _ _ _ _ _ _ _) as [o w'].
  simpl in Hreq.
  assert (length (requests w) < length (requests w')) as Hlt.
  { rewrite Hreq, length_app, length_replicate. lia. }
  destruct o as [b|e|]; try done.
  destruct (scrape_entities_requests season season_type raw_dir season rest w')
    as (n & -> & _).
  rewrite length_app. lia.
Qed.

End Scrape.

(** X9.  [scrape_season_summaries] asks for nothing but the four summaries
    of its season, at most six times each.  For a season other than
    [end_season] whose four files are on disk and not empty it sends no
    request at all and leaves the world as it is; for [end_season] it always
    sends a request, files on disk or not. *)
Theorem scrape_season_summaries_requests
    (http_get : nat → string → string + string) (season : Z)
    (season_type raw_dir : string) (end_season : Z) (w : common.world) :
  (∃ new,
     common.requests
       (moneypuck_scrape.scrape_season_summaries http_get season season_type raw_dir
          end_season w).2 = common.requests w ++ new
     ∧ length new ≤ 24
     ∧ (∀ u, u ∈ new →
          ∃ entity, entity ∈ ["skaters"; "goalies"; "lines"; "teams"]
                    ∧ u = moneypuck_scrape.season_summary_url season season_type entity)
     ∧ (season = end_season → new ≠ []))
  ∧ (season ≠ end_season →
     (∀ entity, entity ∈ ["skaters"; "goalies"; "lines"; "teams"] →
        common.nonempty_file w
          (moneypuck_scrape.summary_path raw_dir season season_type entity) = true) →
     moneypuck_scrape.scrape_season_summaries http_get season season_type raw_dir
       end_season w = (common.Returned true, w)).
Proof.
  unfold moneypuck_scrape.scrape_season_summaries. split.
  - destruct (scrape_entities_requests http_get season season_type raw_dir end_season
                ["skaters"; "goalies"; "lines"; "teams"] w)
      as (new & Hnew & Hlen & Hall).
    exists new. split; [done|]. split; [done|]. split; [done|].
    intros -> ->. rewrite app_nil_r in Hnew.
    pose proof (scrape_entities_grows http_get end_season season_type raw_dir
                  "skaters" ["goalies"; "lines"; "teams"] w) as Hlt.
    rewrite Hnew in Hlt. lia.
  - intros Hne Hcached.
    cbn [moneypuck_scrape.scrape_entities]. cbv zeta.
    unfold common.download_with_retries.
    rewrite bool_decide_false by done. simpl negb. cbn [andb].
    rewrite !Hcached by compute_done. done.
Qed.

(** ** The loaders of the scraper *)

Section Loaders.
Import common moneypuck_scrape.

Variable L : Lib.

Lemma startswith_app (p s : string) : startswith p (p +:+ s) = true.
Proof.
  induction p as [|a p IH]; [done|]. simpl. by rewrite bool_decide_true, IH.
Qed.

Lemma endswith_app (suffix s : string) : endswith suffix (s +:+ suffix) = true.
Proof. unfold endswith. rewrite rev_string_append. apply startswith_app. Qed.

(** A file name made of a code without a dot and the extension gives the
    code back. *)
Lemma str_replace_csv (code : string) :
  (∀ p q, code ≠ p +:+ String "."%char q) →
  str_replace ".csv" "" (code +:+ ".csv") = code.
Proof.
  unfold str_replace. induction code as [|a code IH]; intros Hdot; [done|].
  rewrite app_String. cbn [replace_from].
  assert (a ≠ "."%char) as Ha.
  { intros ->. by apply (Hdot "" code). }
  assert (startswith ".csv" (String a (code +:+ ".csv")) = false) as ->.
  { cbn [startswith]. by rewrite bool_decide_false by done. }
  f_equal. apply IH. intros p q ->. by apply (Hdot (String a p) q).
Qed.

Lemma concat_rows_inv (dfs : list DataFrame) out r :
  concat dfs = Ok out → r ∈ rows out → ∃ d, d ∈ dfs ∧ r ∈ rows d.
Proof.
  unfold concat. destruct dfs as [|d0 dfs']; [done|].
  intros [= <-] Hr. simpl rows in Hr.
  change (r ∈ mjoin (rows <$> d0 :: dfs')) in Hr.
  apply list_elem_of_join in Hr as (rs & Hr & (d & -> & Hd)%list_elem_of_fmap).
  eauto.
Qed.

Lemma concat_has_col_inv (dfs : list DataFrame) out c :
  concat dfs = Ok out → has_col out c = true → ∃ d, d ∈ dfs ∧ has_col d c = true.
Proof.
  unfold concat. destruct dfs as [|d0 dfs']; [done|].
  intros [= <-] Hc. apply has_col_true in Hc. simpl columns in Hc.
  rewrite elem_of_reverse, elem_of_remove_dups, elem_of_reverse in Hc.
  change (c ∈ mjoin (columns <$> d0 :: dfs')) in Hc.
  apply list_elem_of_join in Hc as (cs & Hc & (d & -> & Hd)%list_elem_of_fmap).
  exists d. split; [done|]. by apply has_col_true.
Qed.

Lemma filter_between_rows c lo hi df out r :
  filter_between c lo hi df = Ok out →
  columns out = columns df
  ∧ (r ∈ rows out
     ↔ r ∈ rows df ∧ ∃ q, get r c = Num q ∧ (Qc_of_Z lo ≤ q)%Qc ∧ (q ≤ Qc_of_Z hi)%Qc).
Proof.
  unfold filter_between. destruct (has_col df c); [|done]. simpl.
  destruct (forallb _ _); [|done]. intros [= <-]. split; [done|]. simpl.
  rewrite list_elem_of_filter. split.
  - intros [Hb Hr]. split; [done|]. apply andb_true_iff in Hb as [Hge Hle].
    destruct (get r c) as [|q|[]| |]; try done.
    simpl in Hge, Hle. apply bool_decide_eq_true in Hge, Hle. eauto.
  - intros [Hr (q & -> & Hge & Hle)]. split; [|done]. simpl.
    by rewrite !bool_decide_true.
Qed.

Lemma filter_situation_all_rows df out r :
  filter_situation_all L df = Ok out →
  columns out = columns df
  ∧ (r ∈ rows out ↔ r ∈ rows df ∧ situation_is_all L r = true).
Proof.
  unfold filter_situation_all. destruct (has_col df "situation"); [|done].
  intros [= <-]. split; [done|]. simpl. rewrite list_elem_of_filter. tauto.
Qed.

Lemma reparse_game_date_rows df out r :
  reparse_game_date L df = Ok out →
  columns out = columns df
  ∧ (r ∈ rows out
     ↔ ∃ r0, r0 ∈ rows df
             ∧ r = <["gameDate" := parse_game_date L (get r0 "gameDate")]> r0).
Proof.
  unfold reparse_game_date. destruct (has_col df "gameDate") eqn:Hd; [|done].
  intros [= <-]. split.
  - unfold map_column. by rewrite columns_set_column, Hd.
  - rewrite rows_map_column, list_elem_of_fmap. split.
    + intros (r0 & -> & Hr0). eauto.
    + intros (r0 & Hr0 & ->). eauto.
Qed.

Lemma situation_is_all_insert_date (r : row) v :
  situation_is_all L (<["gameDate" := v]> r) = situation_is_all L r.
Proof. unfold situation_is_all. by rewrite get_insert_ne. Qed.

Lemma collect_Ok {A B} (f : A → result B) (l : list A) (bs : list B) :
  collect f l = Ok bs → Forall2 (fun a b => f a = Ok b) l bs.
Proof.
  revert bs. induction l as [|a l IH]; intros bs; simpl.
  { intros [= <-]. constructor. }
  destruct (f a) as [b| | | |] eqn:Hb; try done. simpl.
  destruct (collect f l) as [bs'| | | |]; try done. simpl.
  intros [= <-]. constructor; [done|]. by apply IH.
Qed.

End Loaders.

Section LoaderRows.
Import common moneypuck_scrape.

Variable L : Lib.

Lemma filter_none {A} (P : A → Prop) `{!∀ x, Decision (P x)} (l : list A) :
  (∀ x, x ∈ l → ¬ P x) → filter P l = [].
Proof.
  induction l as [|a l IH]; intros Hl; [done|].
  rewrite filter_cons_False by (apply Hl; by left).
  apply IH. intros x Hx. apply Hl. by right.
Qed.

Lemma filter_all {A} (P : A → Prop) `{!∀ x, Decision (P x)} (l : list A) :
  (∀ x, x ∈ l → P x) → filter P l = l.
Proof.
  induction l as [|a l IH]; intros Hl; [done|].
  rewrite filter_cons_True by (apply Hl; by left). f_equal.
  apply IH. intros x Hx. apply Hl. by right.
Qed.

Lemma has_col_standardize_other df c :
  c ∉ ["team"; "team_opp"; "gameId"; "gameDate"; "home_or_away"; "situation"] →
  has_col (standardize_team_game_cols L df) c = has_col df c.
Proof.
  intros Hc.
  assert (c ≠ "team" ∧ c ≠ "team_opp" ∧ c ≠ "gameId" ∧ c ≠ "gameDate"
          ∧ c ≠ "home_or_away" ∧ c ≠ "situation") as (?&?&?&?&?&?).
  { repeat split; intros ->; apply Hc; compute_done. }
  assert (∀ T (f : row → cell) cur, c ≠ T →
            has_col (map_column T f cur) c = has_col cur c) as Hmap.
  { intros T f cur HT. rewrite has_col_map_column, bool_decide_false by done.
    apply orb_false_r. }
  rewrite standardize_unfold.
  assert (has_col (standardize_aliases L df) c = has_col df c) as Hal.
  { unfold standardize_aliases. rewrite has_col_alias_column by done.
    set (d3 := alias_column "gameId" _ _).
    assert (has_col d3 c = has_col df c) as <-.
    { unfold d3. by rewrite !has_col_alias_column. }
    destruct (has_col d3 "gameDate"); [by apply Hmap|].
    destruct (truthy _); [by apply Hmap|done]. }
  destruct (has_col (standardize_aliases L df) "situation"); [done|].
  by rewrite Hmap.
Qed.

Lemma nrows_standardize df : nrows (standardize_team_game_cols L df) = nrows df.
Proof.
  rewrite standardize_unfold.
  destruct (has_col _ "situation"); [|rewrite nrows_map_column];
    apply nrows_standardize_aliases.
Qed.

End LoaderRows.

(** X10.  Both loaders need a file: when the listing holds no name that ends
    in [.csv], or for the player loader when no folder of a season in range
    exists or the range is empty, [pd.concat] is given nothing and the loader
    raises ValueError. *)
Theorem loaders_need_a_file (L : Lib) (start_season end_season : Z) :
  (∀ folder,
     (∀ f, f ∈ folder → endswith ".csv" f.1 = false) →
     moneypuck_scrape.load_all_team_gbg_raw L folder start_season end_season
     = ValueError "No objects to concatenate")
  ∧ (∀ folders,
       (∀ season fs f, (start_season ≤ season ≤ end_season)%Z →
          folders season = Some fs → f ∈ fs → endswith ".csv" f.1 = false) →
       moneypuck_scrape.load_team_player_gbg L folders start_season end_season
       = ValueError "No objects to concatenate").
Proof.
  split.
  - intros folder Hno. unfold moneypuck_scrape.load_all_team_gbg_raw. cbv zeta.
    rewrite filter_none; [done|]. intros f Hf. rewrite (Hno f Hf). done.
  - intros folders Hno. unfold moneypuck_scrape.load_team_player_gbg. cbv zeta.
    assert (∀ ss : list Z,
              (∀ x, x ∈ ss → (start_season ≤ x ≤ end_season)%Z) →
              (ss ≫= λ season,
                 match folders season with
                 | Some folder =>
                     (fun f : string * DataFrame => (season, f.2))
                     <$> filter (fun f : string * DataFrame => endswith ".csv" f.1 = true)
                           folder
                 | None => []
                 end) = []) as Hnil.
    { induction ss as [|x ss IH]; intros Hss; [done|].
      rewrite bind_cons, IH by (intros y Hy; apply Hss; by right).
      rewrite app_nil_r. destruct (folders x) as [fs|] eqn:Hx; [|done].
      rewrite filter_none; [done|]. intros f Hf.
      rewrite (Hno x fs f); [done| |done|done]. apply Hss. by left. }
    rewrite Hnil; [done|].
    intros x (i & -> & Hi)%list_elem_of_fmap. apply elem_of_seq in Hi. lia.
Qed.

(** X11.  What [load_all_team_gbg_raw] returns: a table with the columns
    [situation] and [gameDate] in which every row is an all-situations row,
    has its season, when there is a season column, between [start_season] and
    [end_season], and is a row of one of the [.csv] files of the folder,
    standardised, with its date parsed once more; where the file names no
    team, under [team] or an alias of it, the row carries the file name
    without [.csv] as its team. *)
Theorem load_all_team_gbg_raw_rows (L : Lib) (folder : list (string * DataFrame))
    (start_season end_season : Z) (out : DataFrame) :
  moneypuck_scrape.load_all_team_gbg_raw L folder start_season end_season = Ok out →
  has_col out "situation" = true
  ∧ has_col out "gameDate" = true
  ∧ ∀ r, r ∈ rows out →
      moneypuck_scrape.situation_is_all L r = true
      ∧ (has_col out "season" = true →
         ∃ q, get r "season" = Num q
              ∧ (Qc_of_Z start_season ≤ q)%Qc ∧ (q ≤ Qc_of_Z end_season)%Qc)
      ∧ ∃ fn df r0,
          (fn, df) ∈ folder ∧ endswith ".csv" fn = true
          ∧ r0 ∈ rows (moneypuck_scrape.with_file_team fn
                         (common.standardize_team_game_cols L df))
          ∧ r = <["gameDate" := common.parse_game_date L (get r0 "gameDate")]> r0
          ∧ (has_col (common.standardize_team_game_cols L df) "team" = false →
             get r "team" = Str (str_replace ".csv" "" fn)).
Proof.
  unfold moneypuck_scrape.load_all_team_gbg_raw. cbv zeta.
  set (csvs := filter _ folder). set (dfs := _ <$> csvs).
  destruct (moneypuck_scrape.concat dfs) as [all1| | | |] eqn:H1; try done.
  unfold mbind at 1, result_bind at 1. cbv beta iota.
  destruct (if has_col all1 "season" then _ else _) as [all2| | | |] eqn:H2; try done.
  unfold mbind at 1, result_bind at 1. cbv beta iota.
  destruct (moneypuck_scrape.filter_situation_all L all2) as [all3| | | |] eqn:H3;
    try done.
  unfold mbind at 1, result_bind at 1. cbv beta iota.
  intros H4.
  pose proof (λ r, filter_situation_all_rows L all2 all3 r H3) as Hs3.
  pose proof (λ r, reparse_game_date_rows L all3 out r H4) as Hs4.
  assert (columns all2 = columns all1
          ∧ ∀ r, r ∈ rows all2 →
              r ∈ rows all1
              ∧ (has_col all1 "season" = true →
                 ∃ q, get r "season" = Num q
                      ∧ (Qc_of_Z start_season ≤ q)%Qc ∧ (q ≤ Qc_of_Z end_season)%Qc))
    as [Hc2 Hs2].
  { destruct (has_col all1 "season") eqn:Hseason.
    - split; [by apply (filter_between_rows _ _ _ _ _ (∅ : row) H2)|].
      intros r Hr. apply (filter_between_rows _ _ _ _ _ r H2) in Hr as [? ?]. auto.
    - injection H2 as <-. split; [done|]. intros r Hr. split; [done|]. done. }
  assert (columns out = columns all1) as Hcols.
  { destruct (Hs4 ∅) as [-> _]. destruct (Hs3 ∅) as [-> _]. done. }
  assert (∀ c, has_col out c = has_col all1 c) as Hhas.
  { intros c. unfold has_col. by rewrite Hcols. }
  split.
  { unfold moneypuck_scrape.filter_situation_all in H3.
    destruct (has_col all2 "situation") eqn:E; [|done].
    rewrite Hhas. unfold has_col in *. by rewrite <- Hc2. }
  split.
  { unfold moneypuck_scrape.reparse_game_date in H4.
    destruct (has_col all3 "gameDate") eqn:E; [|done].
    rewrite Hhas. unfold has_col in *. destruct (Hs3 ∅) as [Hc3 _].
    by rewrite <- Hc2, <- Hc3. }
  intros r Hr. apply Hs4 in Hr as (r3 & Hr3 & ->).
  apply Hs3 in Hr3 as [Hr2 Hall]. apply Hs2 in Hr2 as [Hr1 Hseason].
  split; [by rewrite situation_is_all_insert_date|].
  split.
  { rewrite Hhas, get_insert_ne by done. exact Hseason. }
  destruct (concat_rows_inv dfs all1 r3 H1 Hr1) as (d & Hd & Hrd).
  apply list_elem_of_fmap in Hd as ([fn df] & -> & Hf).
  apply list_elem_of_filter in Hf as [Hcsv Hf]. cbn [fst snd] in Hcsv, Hrd |- *.
  exists fn, df, r3. repeat split; try done.
  intros Hno. rewrite get_insert_ne by done.
  unfold moneypuck_scrape.with_file_team in Hrd. rewrite Hno in Hrd.
  cbn [negb orb] in Hrd.
  apply get_map_column in Hrd as (r0 & _ & ->). apply get_insert_eq.
Qed.

Section PlayerLoader.
Import common moneypuck_scrape.

Variable L : Lib.

Lemma load_player_file_rows start_season end_season season df out r :
  load_player_file L start_season end_season season df = Ok out →
  r ∈ rows out →
  ∃ q, get r "season" = Num q
       ∧ (Qc_of_Z start_season ≤ q)%Qc ∧ (q ≤ Qc_of_Z end_season)%Qc.
Proof.
  unfold load_player_file. cbv zeta.
  destruct (filter_between _ _ _ _) as [d1| | | |] eqn:H1; try done.
  unfold mbind, result_bind. cbv beta iota. intros H2 Hr.
  apply (reparse_game_date_rows L d1 out r H2) in Hr as (r0 & Hr0 & ->).
  apply (filter_between_rows _ _ _ _ _ r0 H1) in Hr0 as (_ & q & Hq & Hge & Hle).
  exists q. by rewrite get_insert_ne.
Qed.

Lemma has_col_standardize_date df :
  has_col (standardize_team_game_cols L df) "gameDate"
  = has_col df "gameDate" || has_col df "date".
Proof.
  assert (∀ T (f : row → cell) cur, "gameDate" ≠ T →
            has_col (map_column T f cur) "gameDate" = has_col cur "gameDate") as Hmap.
  { intros T f cur HT. rewrite has_col_map_column, bool_decide_false by done.
    apply orb_false_r. }
  rewrite standardize_unfold.
  assert (has_col (standardize_aliases L df) "gameDate"
          = has_col df "gameDate" || has_col df "date") as Hal.
  { unfold standardize_aliases. rewrite has_col_alias_column by done.
    set (d3 := alias_column "gameId" _ _).
    assert (∀ c, c ∉ ["team"; "team_opp"; "gameId"] → has_col d3 c = has_col df c)
      as Hd3.
    { intros c Hc. unfold d3.
      rewrite !has_col_alias_column; [done|..]; intros ->; apply Hc; compute_done. }
    rewrite <- !Hd3 by compute_done.
    destruct (has_col d3 "gameDate") eqn:Hg.
    - apply has_col_set_column_same.
    - cbn [first_existing_col]. destruct (has_col d3 "date"); [|done].
      apply has_col_set_column_same. }
  destruct (has_col (standardize_aliases L df) "situation"); [done|].
  by rewrite Hmap.
Qed.

End PlayerLoader.

(** X12.  What [load_team_player_gbg] returns: a table with a [situation]
    column in which every row is an all-situations row whose season lies
    between [start_season] and [end_season]. *)
Theorem load_team_player_gbg_rows (L : Lib)
    (folders : Z → option (list (string * DataFrame)))
    (start_season end_season : Z) (out : DataFrame) :
  moneypuck_scrape.load_team_player_gbg L folders start_season end_season = Ok out →
  has_col out "situation" = true
  ∧ ∀ r, r ∈ rows out →
      moneypuck_scrape.situation_is_all L r = true
      ∧ ∃ q, get r "season" = Num q
             ∧ (Qc_of_Z start_season ≤ q)%Qc ∧ (q ≤ Qc_of_Z end_season)%Qc.
Proof.
  unfold moneypuck_scrape.load_team_player_gbg. cbv zeta.
  destruct (moneypuck_scrape.collect _ _) as [dfs| | | |] eqn:H1; try done.
  unfold mbind at 1, result_bind at 1. cbv beta iota.
  destruct (moneypuck_scrape.concat dfs) as [out1| | | |] eqn:H2; try done.
  unfold mbind at 1, result_bind at 1. cbv beta iota.
  intros H3. apply collect_Ok in H1.
  split.
  { unfold moneypuck_scrape.filter_situation_all in H3.
    destruct (has_col out1 "situation") eqn:E; [|done]. by injection H3 as <-. }
  intros r Hr.
  apply (filter_situation_all_rows L out1 out r H3) in Hr as [Hr Hall].
  split; [done|].
  destruct (concat_rows_inv dfs out1 r H2 Hr) as (d & Hd & Hrd).
  apply list_elem_of_lookup in Hd as [i Hi].
  destruct (Forall2_lookup_r _ _ _ _ _ H1 Hi) as ([season df] & _ & Hload).
  by eapply load_player_file_rows.
Qed.

(** X13.  One file of the player loader.  A file without a season column is
    given the season of its folder, so that, the folder being one of the
    range, none of its rows is filtered out.  A file that has no date, under
    [gameDate] or [date], makes the loader raise KeyError. *)
Theorem load_player_file_season_default (L : Lib) (start_season end_season season : Z)
    (df : DataFrame) :
  has_col df "season" = false →
  (start_season ≤ season ≤ end_season)%Z →
  (has_col df "gameDate" = true ∨ has_col df "date" = true →
   ∃ out,
     moneypuck_scrape.load_player_file L start_season end_season season df = Ok out
     ∧ nrows out = nrows df
     ∧ ∀ r, r ∈ rows out → get r "season" = Num (Qc_of_Z season))
  ∧ (has_col df "gameDate" = false → has_col df "date" = false →
     moneypuck_scrape.load_player_file L start_season end_season season df
     = KeyError "gameDate").
Proof.
  intros Hno Hrange.
  unfold moneypuck_scrape.load_player_file. cbv zeta.
  rewrite (has_col_standardize_other L df "season"), Hno by compute_done.
  set (d0 := common.standardize_team_game_cols L df).
  set (d1 := map_column "season" (fun _ => Num (Qc_of_Z season)) d0).
  assert (nrows d1 = nrows df) as Hn1.
  { unfold d1. rewrite nrows_map_column. apply nrows_standardize. }
  assert (∀ r, r ∈ rows d1 → get r "season" = Num (Qc_of_Z season)) as Hs1.
  { intros r (r0 & _ & ->)%get_map_column. apply get_insert_eq. }
  assert (has_col d1 "gameDate" = has_col df "gameDate" || has_col df "date") as Hd1.
  { unfold d1. rewrite has_col_map_column, bool_decide_false by done.
    rewrite orb_false_r. apply has_col_standardize_date. }
  assert (filter_between "season" start_season end_season d1
          = Ok {| columns := columns d1; rows := rows d1 |}) as Hf.
  { unfold filter_between.
    assert (has_col d1 "season" = true) as -> by apply has_col_set_column_same.
    cbn [negb].
    assert (forallb (fun r => is_float (get r "season")) (rows d1) = true) as ->.
    { apply forallb_forall. intros r Hr%list_elem_of_In. by rewrite (Hs1 r Hr). }
    do 2 f_equal. apply filter_all. intros r Hr. rewrite (Hs1 r Hr). simpl.
    rewrite !bool_decide_true; [done|apply (proj1 (Z2Qc_inj_le _ _)); lia..]. }
  rewrite Hf. unfold mbind, result_bind. cbv beta iota.
  unfold moneypuck_scrape.reparse_game_date.
  assert (has_col {| columns := columns d1; rows := rows d1 |} "gameDate"
          = has_col d1 "gameDate") as -> by done.
  rewrite Hd1. split.
  - intros Hdate.
    assert (has_col df "gameDate" || has_col df "date" = true) as ->.
    { destruct Hdate as [-> | ->]; [done|apply orb_true_r]. }
    eexists. split; [reflexivity|]. split.
    + by rewrite nrows_map_column.
    + intros r (r0 & Hr0 & ->)%get_map_column.
      rewrite get_insert_ne by done. by apply Hs1.
  - by intros -> ->.
Qed.

(** X14.  From a listed file to its address and its team.  For a file name
    made of a code without a dot and [.csv], the name ends in [.csv], removing
    the extension gives the code, the address [scrape_team_player_gbg] asks
    for is the address of the index followed by the file name, and a team
    table without a team column gets the code as its team. *)
Theorem listed_file_round_trip (code : string) :
  (∀ p q, code ≠ p +:+ String "."%char q) →
  endswith ".csv" (code +:+ ".csv") = true
  ∧ str_replace ".csv" "" (code +:+ ".csv") = code
  ∧ (∀ season season_type kind,
       moneypuck_scrape.listed_file_url season season_type kind (code +:+ ".csv")
       = moneypuck_scrape.team_player_gbg_index season season_type kind
         +:+ (code +:+ ".csv"))
  ∧ ∀ df r, has_col df "team" = false →
      r ∈ rows (moneypuck_scrape.with_file_team (code +:+ ".csv") df) →
      get r "team" = Str code.
Proof.
  intros Hdot. split; [apply endswith_app|].
  split; [by apply str_replace_csv|]. split.
  - intros season season_type kind.
    unfold moneypuck_scrape.listed_file_url, moneypuck_scrape.team_player_gbg_file_url.
    by rewrite str_replace_csv.
  - intros df r Hno. unfold moneypuck_scrape.with_file_team. rewrite Hno.
    cbn [negb orb]. intros (r0 & _ & ->)%get_map_column.
    rewrite get_insert_eq. by rewrite str_replace_csv.
Qed.

(** ** The scraper's properties on concrete inputs *)

Lemma download_with_retries_first_success_witness :
  common.download_with_retries example_server "https://moneypuck.com/x.csv" "raw/x.csv"
    6 false (Qc_of_Z 2) (Q2Qc (15 # 100)) example_world
  = (common.Returned true,
     {| common.disk := {[ "raw/x.csv" := "team,season" ]};
        common.requests := replicate 3 "https://moneypuck.com/x.csv";
        common.slept := [Qc_of_Z 2 ^ 0; Qc_of_Z 2 ^ 1; Q2Qc (15 # 100)]%Qc |}).
Proof.
  apply (download_with_retries_first_success example_server
           "https://moneypuck.com/x.csv" "raw/x.csv" 6 false (Qc_of_Z 2)
           (Q2Qc (15 # 100)) example_world 2 "team,season").
  - right. reflexivity.
  - lia.
  - intros [|[|j']] Hj'; [eexists; reflexivity..|lia].
  - reflexivity.
Defined.

Lemma download_with_retries_all_fail_witness :
  common.download_with_retries example_server_down "https://moneypuck.com/x.csv"
    "raw/x.csv" 3 true (Qc_of_Z 2) (Q2Qc (15 # 100)) example_world
  = (common.Raised "503 Service Unavailable, request 2",
     {| common.disk := ∅;
        common.requests := replicate 3 "https://moneypuck.com/x.csv";
        common.slept := [Qc_of_Z 2 ^ 0; Qc_of_Z 2 ^ 1; Qc_of_Z 2 ^ 2]%Qc |}).
Proof.
  etrans.
  - apply (download_with_retries_all_fail example_server_down
             "https://moneypuck.com/x.csv" "raw/x.csv" 3 true (Qc_of_Z 2)
             (Q2Qc (15 # 100)) example_world
             (fun j => "503 Service Unavailable, request " +:+ pretty j)).
    + left. reflexivity.
    + intros j _. reflexivity.
  - vm_compute. reflexivity.
Defined.

Lemma load_all_team_gbg_raw_rows_witness :
  ∃ out,
    moneypuck_scrape.load_all_team_gbg_raw example_lib_dates example_folder 2019 2025
    = Ok out
    ∧ has_col out "gameDate" = true
    ∧ (∀ r, r ∈ rows out → moneypuck_scrape.situation_is_all example_lib_dates r = true)
    ∧ (fun r => (get r "team", get r "season", get r "situation", get r "gameDate"))
      <$> rows out
      = [(Str "LAK", Num (Qc_of_Z 2023), Str "all", Date 0)].
Proof.
  destruct (moneypuck_scrape.load_all_team_gbg_raw example_lib_dates example_folder
              2019 2025) as [out| | | |] eqn:Hout; try (vm_compute in Hout; discriminate).
  destruct (load_all_team_gbg_raw_rows example_lib_dates example_folder 2019 2025
              out Hout) as (_ & Hdate & Hrows).
  exists out. split; [reflexivity|]. split; [exact Hdate|]. split.
  - intros r Hr. by destruct (Hrows r Hr).
  - vm_compute in Hout. injection Hout as <-. reflexivity.
Defined.

Lemma load_team_player_gbg_rows_witness :
  ∃ out,
    moneypuck_scrape.load_team_player_gbg example_lib_dates example_folders 2019 2025
    = Ok out
    ∧ nrows out = 3
    ∧ ∀ r, r ∈ rows out → ∃ q, get r "season" = Num q
             ∧ (Qc_of_Z 2019 ≤ q)%Qc ∧ (q ≤ Qc_of_Z 2025)%Qc.
Proof.
  destruct (moneypuck_scrape.load_team_player_gbg example_lib_dates example_folders
              2019 2025) as [out| | | |] eqn:Hout; try (vm_compute in Hout; discriminate).
  exists out. split; [reflexivity|]. split.
  - vm_compute in Hout. injection Hout as <-. reflexivity.
  - intros r Hr.
    by destruct (load_team_player_gbg_rows example_lib_dates example_folders 2019 2025
                   out Hout) as (_ & Hrows); destruct (Hrows r Hr).
Defined.

Lemma load_player_file_season_default_witness :
  ∃ out,
    moneypuck_scrape.load_player_file example_lib_dates 2019 2025 2023 example_skaters
    = Ok out
    ∧ nrows out = 3
    ∧ ∀ r, r ∈ rows out → get r "season" = Num (Qc_of_Z 2023).
Proof.
  destruct (load_player_file_season_default example_lib_dates 2019 2025 2023
              example_skaters eq_refl ltac:(lia)) as [Hok _].
  destruct Hok as (out & Hout & Hn & Hrows); [left; reflexivity|].
  exists out. split; [exact Hout|]. split; [exact Hn|exact Hrows].
Defined.

Lemma listed_file_round_trip_witness :
  str_replace ".csv" "" "BOS.csv" = "BOS"
  ∧ moneypuck_scrape.listed_file_url 2023 "regular" "skaters" "BOS.csv"
    = "https://moneypuck.com/moneypuck/playerData/teamPlayerGameByGame/2023/regular/skaters/BOS.csv".
Proof.
  destruct (listed_file_round_trip "BOS") as (_ & Hcode & Hurl & _).
  - intros [|a [|b [|c [|d p]]]] q Heq; discriminate Heq.
  - split; [exact Hcode|]. etrans; [apply Hurl|]. vm_compute. reflexivity.
Defined.

(** ** More on [rolling_features] *)

Section RollingValues.
Import build_features history.

Variable L : Lib.
Variable df : DataFrame.
Variables (group_cols : list string) (sort_col : string).
Variables (value_cols : list string) (windows : list positive) (prefix : string).

Hypothesis keys_present : ∀ k, k ∈ group_cols ++ [sort_col] → has_col df k = true.
Hypothesis value_not_key : ∀ c', c' ∈ value_cols → c' ∉ group_cols.
Hypothesis feature_fresh : ∀ c' w', c' ∈ value_cols → w' ∈ windows →
  feature_name prefix w' c' ∉ group_cols ++ value_cols.

Local Abbreviation sorted := (sort_rows (group_cols ++ [sort_col]) (rows df)).

(** The table [rolling_features] returns, row by row. *)
Lemma rolling_features_values c w :
  c ∈ value_cols → has_col df c = true → w ∈ windows →
  ∃ out,
    rolling_features L df group_cols sort_col value_cols windows prefix = Ok out
    ∧ length (rows out) = length sorted
    ∧ ∀ i r, sorted !! i = Some r →
        ∃ o, rows out !! i = Some o
          ∧ key group_cols o = key group_cols r
          ∧ get o (feature_name prefix w c)
            = if existsb isna (key group_cols r) then NA
              else mean_above group_cols (fun g => inf_to_nan (to_numeric L (get g c)))
                     (Pos.to_nat w) sorted i r.
Proof.
  intros Hc Hhas Hw. unfold rolling_features.
  rewrite sort_values_ok by (by apply missing_col_None).
  eexists. split; [reflexivity|].
  set (d := {| columns := columns df; rows := sorted |}).
  assert (Forall2 (fun r0 r : row =>
            key group_cols r = key group_cols r0
            ∧ ∀ c', c' ∈ value_cols →
                to_numeric L (get r c') = to_numeric L (get r0 c')) sorted (rows d))
    as Hag.
  { apply Forall_Forall2_diag, Forall_forall. done. }
  destruct (roll_value_cols_keep L group_cols prefix value_cols windows sorted c w
              value_not_key feature_fresh Hc Hw value_cols d (reflexivity _) Hag)
    as [Hag' Hset].
  split; [symmetry; by eapply Forall2_length|].
  intros i r Hr.
  destruct (Forall2_lookup_l _ _ _ _ _ Hag' Hr) as (o & Ho & Hk & _).
  exists o. split; [done|]. split; [done|].
  by apply (Hset (or_intror (conj Hc Hhas)) i r o Hr Ho).
Qed.

End RollingValues.

Section MeanBounds.

Variables lo hi : Qc.

(** A cell that is missing or a number between [lo] and [hi]. *)
Local Abbreviation bounded x :=
  (x = NA ∨ ∃ q, x = Num q ∧ (lo ≤ q)%Qc ∧ (q ≤ hi)%Qc).

Lemma fsum_bounds (v : list cell) :
  (∀ x, x ∈ v → ∃ q, x = Num q ∧ (lo ≤ q)%Qc ∧ (q ≤ hi)%Qc) →
  ∃ t, fsum v = Num t
       ∧ (lo * Qc_of_Z (Z.of_nat (length v)) ≤ t)%Qc
       ∧ (t ≤ hi * Qc_of_Z (Z.of_nat (length v)))%Qc.
Proof.
  induction v as [|x v IH]; intros Hv.
  { exists 0%Qc. split; [done|]. unfold Qcle. simpl. rewrite !Qred_correct.
    change (inject_Z (Z.of_nat 0)) with 0%Q. split; lra. }
  destruct (Hv x) as (q & -> & Hlo & Hhi); [by left|].
  destruct IH as (t & Ht & Htlo & Hthi); [intros y Hy; apply Hv; by right|].
  exists (q + t)%Qc. split; [unfold fsum in *; simpl; by rewrite Ht|].
  rewrite length_cons, Nat2Z.inj_succ.
  unfold Qcle in *. simpl in *. rewrite !Qred_correct in *.
  unfold Z.succ. rewrite inject_Z_plus. change (inject_Z 1) with 1%Q.
  split; lra.
Qed.

Lemma nanmean_bounds (l : list cell) :
  (∀ x, x ∈ l → bounded x) → bounded (nanmean l).
Proof.
  intros Hl. unfold nanmean. cbv zeta.
  set (v := filter (fun x => isna x = false) l).
  assert (∀ x, x ∈ v → ∃ q, x = Num q ∧ (lo ≤ q)%Qc ∧ (q ≤ hi)%Qc) as Hv.
  { intros x [Hna Hx]%list_elem_of_filter. by destruct (Hl x Hx) as [->|?]. }
  destruct v as [|x v'] eqn:Ev; [by left|]. rewrite <- Ev in *.
  destruct (fsum_bounds v Hv) as (t & -> & Htlo & Hthi). right.
  assert (0 < length v) as Hpos by (rewrite Ev; simpl; lia).
  assert (Z.of_nat (length v) ≠ 0%Z) as Hnz by lia.
  rewrite fdiv_Num_const by done.
  eexists. split; [reflexivity|].
  assert (0 < inject_Z (Z.of_nat (length v)))%Q as HposQ.
  { change 0%Q with (inject_Z 0). rewrite <- Zlt_Qlt. lia. }
  unfold Qcle in *. simpl in *. rewrite !Qred_correct in *. split.
  - apply Qle_shift_div_l; done.
  - apply Qle_shift_div_r; done.
Qed.

End MeanBounds.

(** X15.  Early in an entity's history the windows agree: on a row with at
    most [w1] and at most [w2] prior games of its entity, the features of
    the two windows for a value column are the same, both being the mean of
    all prior games.  With the windows 5, 10 and 20 of the pipeline, the
    three features of a statistic coincide on the first six games of every
    entity.  (The labels the call creates are assumed new, as in C2.) *)
Theorem rolling_windows_coincide (L : Lib) (df : DataFrame) (group_cols : list string)
    (sort_col : string) (value_cols : list string) (windows : list positive)
    (prefix c : string) (w1 w2 : positive) :
  (∀ k, k ∈ group_cols ++ [sort_col] → has_col df k = true) →
  (∀ c', c' ∈ value_cols → c' ∉ group_cols) →
  (∀ c' w', c' ∈ value_cols → w' ∈ windows →
     build_features.feature_name prefix w' c' ∉ group_cols ++ value_cols) →
  c ∈ value_cols → has_col df c = true → w1 ∈ windows → w2 ∈ windows →
  let s := sort_rows (group_cols ++ [sort_col]) (rows df) in
  ∃ out,
    build_features.rolling_features L df group_cols sort_col value_cols windows prefix
    = Ok out
    ∧ ∀ i r, s !! i = Some r →
        length (history.games_above group_cols s i r) ≤ Pos.to_nat w1 →
        length (history.games_above group_cols s i r) ≤ Pos.to_nat w2 →
        ∃ o, rows out !! i = Some o
          ∧ get o (build_features.feature_name prefix w1 c)
            = get o (build_features.feature_name prefix w2 c).
Proof.
  intros Hkeys Hdisj Hfresh Hc Hhas Hw1 Hw2 s.
  destruct (rolling_features_values L df group_cols sort_col value_cols windows prefix
              Hkeys Hdisj Hfresh c w1 Hc Hhas Hw1) as (out & Hout & _ & H1).
  destruct (rolling_features_values L df group_cols sort_col value_cols windows prefix
              Hkeys Hdisj Hfresh c w2 Hc Hhas Hw2) as (out2 & Hout2 & _ & H2).
  assert (out2 = out) as -> by congruence.
  exists out. split; [done|]. intros i r Hr Hk1 Hk2.
  destruct (H1 i r Hr) as (o & Ho & _ & E1).
  destruct (H2 i r Hr) as (o2 & Ho2 & _ & E2).
  assert (o2 = o) as -> by congruence.
  exists o. split; [done|]. rewrite E1, E2.
  destruct (existsb isna (key group_cols r)); [done|].
  unfold history.mean_above. cbv zeta. fold s.
  by rewrite !Nat.min_r by done.
Qed.

Lemma rolling_windows_coincide_witness :
  ∃ out o,
    build_features.rolling_features example_lib example_bos ["team"] "gameDate"
      ["goalsFor"] build_features.WINDOWS "team_" = Ok out
    ∧ rows out !! 3 = Some o
    ∧ get o "team" = Str "BOS" ∧ get o "gameDate" = Date 4
    ∧ get o "team_5_goalsFor" = get o "team_20_goalsFor".
Proof.
  destruct (rolling_windows_coincide example_lib example_bos ["team"] "gameDate"
              ["goalsFor"] build_features.WINDOWS "team_" "goalsFor" 5 20)
    as (out & Hout & Hrows).
  - intros k Hk. repeat (apply elem_of_cons in Hk as [->|Hk]; [reflexivity|]).
    by apply elem_of_nil in Hk.
  - intros c' Hc'. apply list_elem_of_singleton in Hc' as ->. by compute_done.
  - intros c' w' Hc' Hw'. apply list_elem_of_singleton in Hc' as ->.
    repeat (apply elem_of_cons in Hw' as [->|Hw']; [by compute_done|]).
    by apply elem_of_nil in Hw'.
  - apply list_elem_of_here.
  - reflexivity.
  - compute_done.
  - compute_done.
  - destruct (Hrows 3 (game "BOS" 4 8) eq_refl) as (o & Ho & Heq).
    + vm_compute. lia.
    + vm_compute. lia.
    + exists out, o. split; [exact Hout|]. split; [exact Ho|].
      assert (match build_features.rolling_features example_lib example_bos ["team"]
                      "gameDate" ["goalsFor"] build_features.WINDOWS "team_" with
              | Ok out => (fun o => (get o "team", get o "gameDate")) <$> rows out !! 3
              | _ => None
              end = Some (Str "BOS", Date 4)) as E by (vm_compute; reflexivity).
      rewrite Hout, Ho in E. injection E as E1 E2.
      split; [exact E1|]. split; [exact E2|]. exact Heq.
Defined.

(** X16.  A rolling mean stays within the range of its column: when every
    value of column [c], read as a number, is missing or lies between [lo]
    and [hi], so does every feature that [rolling_features] computes from
    [c].  In particular the feature of a constant column is that constant
    wherever it is defined.  (The labels the call creates are assumed new,
    as in C2.) *)
Theorem rolling_mean_bounds (L : Lib) (df : DataFrame) (group_cols : list string)
    (sort_col : string) (value_cols : list string) (windows : list positive)
    (prefix c : string) (w : positive) (lo hi : Qc) :
  (∀ k, k ∈ group_cols ++ [sort_col] → has_col df k = true) →
  (∀ c', c' ∈ value_cols → c' ∉ group_cols) →
  (∀ c' w', c' ∈ value_cols → w' ∈ windows →
     build_features.feature_name prefix w' c' ∉ group_cols ++ value_cols) →
  c ∈ value_cols → has_col df c = true → w ∈ windows →
  (∀ r, r ∈ rows df →
     to_numeric L (get r c) = NA
     ∨ ∃ q, to_numeric L (get r c) = Num q ∧ (lo ≤ q)%Qc ∧ (q ≤ hi)%Qc) →
  ∃ out,
    build_features.rolling_features L df group_cols sort_col value_cols windows prefix
    = Ok out
    ∧ ∀ o, o ∈ rows out →
        get o (build_features.feature_name prefix w c) = NA
        ∨ ∃ q, get o (build_features.feature_name prefix w c) = Num q
               ∧ (lo ≤ q)%Qc ∧ (q ≤ hi)%Qc.
Proof.
  intros Hkeys Hdisj Hfresh Hc Hhas Hw Hrange.
  destruct (rolling_features_values L df group_cols sort_col value_cols windows prefix
              Hkeys Hdisj Hfresh c w Hc Hhas Hw) as (out & Hout & Hlen & Hrows).
  exists out. split; [done|]. intros o Ho.
  apply list_elem_of_lookup in Ho as [i Ho].
  destruct (lookup_lt_is_Some_2 (sort_rows (group_cols ++ [sort_col]) (rows df)) i)
    as [r Hr].
  { rewrite <- Hlen. by eapply lookup_lt_Some. }
  destruct (Hrows i r Hr) as (o' & Ho' & _ & Hval).
  assert (o' = o) as -> by congruence. rewrite Hval.
  destruct (existsb isna (key group_cols r)); [by left|].
  unfold history.mean_above. cbv zeta. apply nanmean_bounds.
  intros x (g & -> & Hg)%list_elem_of_fmap.
  enough (g ∈ rows df) as Hin
    by (destruct (Hrange g Hin) as [->|(q & -> & Hq)]; [by left|right; by exists q]).
  unfold history.last_n in Hg. apply subseteq_drop in Hg.
  unfold history.games_above in Hg. apply list_elem_of_filter in Hg as [_ Hg].
  apply subseteq_take in Hg. by rewrite sort_rows_Permutation in Hg.
Qed.

Lemma rolling_mean_bounds_witness :
  ∃ out,
    build_features.rolling_features example_lib example_bos ["team"] "gameDate"
      ["goalsFor"] build_features.WINDOWS "team_" = Ok out
    ∧ ∀ o, o ∈ rows out →
        get o "team_10_goalsFor" = NA
        ∨ ∃ q, get o "team_10_goalsFor" = Num q
               ∧ (Qc_of_Z 1 ≤ q)%Qc ∧ (q ≤ Qc_of_Z 12)%Qc.
Proof.
  apply (rolling_mean_bounds example_lib example_bos ["team"] "gameDate"
           ["goalsFor"] build_features.WINDOWS "team_" "goalsFor" 10
           (Qc_of_Z 1) (Qc_of_Z 12)).
  - intros k Hk. repeat (apply elem_of_cons in Hk as [->|Hk]; [reflexivity|]).
    by apply elem_of_nil in Hk.
  - intros c' Hc'. apply list_elem_of_singleton in Hc' as ->. by compute_done.
  - intros c' w' Hc' Hw'. apply list_elem_of_singleton in Hc' as ->.
    repeat (apply elem_of_cons in Hw' as [->|Hw']; [by compute_done|]).
    by apply elem_of_nil in Hw'.
  - apply list_elem_of_here.
  - reflexivity.
  - compute_done.
  - intros r Hr. right.
    repeat (apply elem_of_cons in Hr as [->|Hr];
            [eexists; split; [reflexivity|]; split; by vm_compute|]).
    by apply elem_of_nil in Hr.
Defined.

Section RollingKeeps.
Import build_features.

Variable L : Lib.
Variables (gcols : list string) (prefix : string).
Variables (value_cols : list string) (windows : list positive).
Variable df : DataFrame.
Variable s : list row.

(** A label that [rolling_features] neither coerces nor creates. *)
Local Abbreviation untouched x :=
  ((x ∉ value_cols)
   ∧ ∀ c w, c ∈ value_cols → w ∈ windows → x ≠ feature_name prefix w c).

(** A table of the loop: the labels of [df] first, then features only, and
    the untouched cells of [s] in place. *)
Local Abbreviation kept d :=
  (columns df `prefix_of` columns d
   ∧ (∀ x, has_col d x = true →
        has_col df x = true
        ∨ ∃ c w, c ∈ value_cols ∧ w ∈ windows ∧ x = feature_name prefix w c)
   ∧ Forall2 (fun r o : row => ∀ x, untouched x → get o x = get r x) s (rows d)).

Lemma kept_coerce c' d :
  c' ∈ value_cols → has_col d c' = true → kept d →
  kept (map_column c' (fun r => to_numeric L (get r c')) d).
Proof.
  intros Hc' Hhas (Hpre & Hcols & Hrows). split; [|split].
  - unfold map_column. by rewrite columns_set_column, Hhas.
  - intros x. rewrite has_col_map_column.
    intros [?| ->%bool_decide_eq_true]%orb_true_iff; auto.
  - rewrite rows_map_column. apply Forall2_fmap_r.
    eapply Forall2_impl; [exact Hrows|]. intros r o Hro x Hx. simpl.
    rewrite get_insert_ne; [by apply Hro|]. intros <-. by destruct Hx.
Qed.

Lemma kept_roll_window c' w' (g : list row) d :
  c' ∈ value_cols → w' ∈ windows → length g = length (rows d) → kept d →
  kept (roll_window gcols prefix c' g d w').
Proof.
  intros Hc' Hw' Hlen (Hpre & Hcols & Hrows). split; [|split].
  - unfold roll_window. rewrite columns_set_column.
    destruct (has_col d _); [done|]. by apply prefix_app_r.
  - intros x. unfold roll_window. rewrite has_col_set_column.
    intros [?| ->%bool_decide_eq_true]%orb_true_iff; [auto|].
    right. eauto.
  - apply Forall2_same_length_lookup_2.
    { rewrite length_roll_window by done. by eapply Forall2_length. }
    intros i r o Hr Ho.
    apply roll_window_lookup_Some in Ho as (r1 & rg & Hr1 & _ & ->).
    intros x Hx. rewrite get_insert_ne.
    + by apply (Forall2_lookup_lr _ _ _ _ _ _ Hrows Hr Hr1).
    + intros <-. destruct Hx as [_ Hx]. by apply (Hx c' w').
Qed.

Lemma kept_roll_windows c' ws (g : list row) d :
  c' ∈ value_cols → ws ⊆ windows → length g = length (rows d) → kept d →
  kept (foldl (roll_window gcols prefix c' g) d ws).
Proof.
  intros Hc'. revert d. induction ws as [|w' ws IH]; intros d Hws Hlen Hd; [done|].
  simpl. apply IH.
  - intros x ?. apply Hws. by right.
  - by rewrite length_roll_window.
  - apply kept_roll_window; try done. apply Hws. by left.
Qed.

Lemma kept_roll_value_cols cs d :
  cs ⊆ value_cols → kept d →
  kept (foldl (roll_value_col L gcols windows prefix) d cs).
Proof.
  revert d. induction cs as [|c' cs IH]; intros d Hcs Hd; [done|].
  simpl. apply IH; [intros x ?; apply Hcs; by right|].
  assert (c' ∈ value_cols) as Hc' by (apply Hcs; by left).
  unfold roll_value_col. destruct (has_col d c') eqn:Hhas; [|done].
  apply kept_roll_windows; try done. by apply kept_coerce.
Qed.

End RollingKeeps.

(** X17.  [rolling_features] raises KeyError exactly when a group column or
    the sort column is missing, and names the first missing one.  Otherwise
    it returns the rows of the input in sorted order, as many as before; the
    labels of the input come first, the labels added are feature labels, and
    every cell under a label that is neither a value column nor a feature
    label is the cell of the input row. *)
Theorem rolling_features_keeps_table (L : Lib) (df : DataFrame)
    (group_cols : list string) (sort_col : string) (value_cols : list string)
    (windows : list positive) (prefix : string) :
  (∀ c, missing_col df (group_cols ++ [sort_col]) = Some c →
     build_features.rolling_features L df group_cols sort_col value_cols windows prefix
     = KeyError c)
  ∧ (missing_col df (group_cols ++ [sort_col]) = None →
     ∃ out,
       build_features.rolling_features L df group_cols sort_col value_cols windows
         prefix = Ok out
       ∧ nrows out = nrows df
       ∧ columns df `prefix_of` columns out
       ∧ (∀ x, has_col out x = true →
            has_col df x = true
            ∨ ∃ c w, c ∈ value_cols ∧ w ∈ windows
                     ∧ x = build_features.feature_name prefix w c)
       ∧ Forall2 (fun r o : row =>
                    ∀ x, (x ∉ value_cols)
                         ∧ (∀ c w, c ∈ value_cols → w ∈ windows →
                                   x ≠ build_features.feature_name prefix w c) →
                         get o x = get r x)
           (sort_rows (group_cols ++ [sort_col]) (rows df)) (rows out)).
Proof.
  split.
  - intros c Hc. unfold build_features.rolling_features, sort_values. by rewrite Hc.
  - intros Hnone. unfold build_features.rolling_features.
    rewrite sort_values_ok by done.
    eexists. split; [reflexivity|].
    set (s := sort_rows (group_cols ++ [sort_col]) (rows df)).
    destruct (kept_roll_value_cols L group_cols prefix value_cols windows df s
                value_cols {| columns := columns df; rows := s |})
      as (Hpre & Hcols & Hrows).
    { done. }
    { split; [done|]. split; [by left|].
      apply Forall_Forall2_diag, Forall_forall. done. }
    split; [|done].
    unfold nrows. rewrite <- (Forall2_length _ _ _ Hrows). apply length_sort_rows.
Qed.

Section EntitySeries.
Import build_features history.

Variable gcols : list string.
Variable E : list cell.
Variable value : row → cell.
Variable feat : string.
Variable W : nat.

Hypothesis E_present : existsb isna E = false.

(** The rolling means of one series, place by place. *)
Local Abbreviation means vals :=
  (imap (fun j (_ : cell) => nanmean (last_n (min W j) (take j vals))) vals).

Lemma means_snoc vals v :
  means (vals ++ [v])
  = means vals ++ [nanmean (last_n (min W (length vals)) vals)].
Proof.
  rewrite imap_app. f_equal.
  - apply imap_ext. intros j x Hj. simpl.
    apply lookup_lt_Some in Hj. by rewrite take_app_le by lia.
  - simpl. rewrite Nat.add_0_r. by rewrite take_app_length.
Qed.

(** The features along the rows of entity [E] are the rolling means of the
    entity's own series of values. *)
Lemma entity_features (s os : list row) :
  length os = length s →
  (∀ i r, s !! i = Some r →
     ∃ o, os !! i = Some o ∧ key gcols o = key gcols r
          ∧ get o feat = if existsb isna (key gcols r) then NA
                         else mean_above gcols value W s i r) →
  (fun o => get o feat) <$> filter (fun o => key gcols o = E) os
  = means (value <$> filter (fun r => key gcols r = E) s).
Proof.
  intros Hlen Hrows.
  assert (∀ n, n ≤ length s →
            (fun o => get o feat) <$> filter (fun o => key gcols o = E) (take n os)
            = means (value <$> filter (fun r => key gcols r = E) (take n s))) as Hn.
  { induction n as [|n IH]; intros Hle; [by rewrite !take_0|].
    destruct (lookup_lt_is_Some_2 s n) as [r Hr]; [lia|].
    destruct (Hrows n r Hr) as (o & Ho & Hk & Hv).
    rewrite (take_S_r s n r Hr), (take_S_r os n o Ho), !filter_app, !fmap_app.
    rewrite IH by lia.
    rewrite !filter_cons, !filter_nil, Hk.
    destruct (decide (key gcols r = E)) as [HE|HE]; [|by rewrite !app_nil_r].
    rewrite !fmap_cons, !fmap_nil, means_snoc. f_equal. f_equal.
    rewrite Hv, HE, E_present. unfold mean_above, games_above. cbv zeta.
    rewrite HE, length_fmap, last_n_fmap. done. }
  specialize (Hn (length s) (reflexivity _)).
  rewrite firstn_all in Hn. rewrite <- Hlen, firstn_all in Hn. exact Hn.
Qed.

End EntitySeries.

(** X18.  Entities do not mix.  Take two tables in which entity [E] has the
    same series of values of column [c], as numbers and in sorted order;
    the games of the other entities, and every other cell, may differ in
    any way.  Then the features of [c] along the rows of [E] are the same in
    the two results.  (The labels the calls create are assumed new, as in
    C2.) *)
Theorem rolling_entity_isolation (L : Lib) (df df' : DataFrame)
    (group_cols : list string) (sort_col : string) (value_cols : list string)
    (windows : list positive) (prefix c : string) (w : positive) (E : list cell) :
  (∀ k, k ∈ group_cols ++ [sort_col] → has_col df k = true ∧ has_col df' k = true) →
  (∀ c', c' ∈ value_cols → c' ∉ group_cols) →
  (∀ c' w', c' ∈ value_cols → w' ∈ windows →
     build_features.feature_name prefix w' c' ∉ group_cols ++ value_cols) →
  c ∈ value_cols → has_col df c = true → has_col df' c = true → w ∈ windows →
  existsb isna E = false →
  (fun r => to_numeric L (get r c))
  <$> filter (fun r => key group_cols r = E)
        (sort_rows (group_cols ++ [sort_col]) (rows df))
  = (fun r => to_numeric L (get r c))
    <$> filter (fun r => key group_cols r = E)
          (sort_rows (group_cols ++ [sort_col]) (rows df')) →
  ∃ out out',
    build_features.rolling_features L df group_cols sort_col value_cols windows prefix
    = Ok out
    ∧ build_features.rolling_features L df' group_cols sort_col value_cols windows
        prefix = Ok out'
    ∧ (fun o => get o (build_features.feature_name prefix w c))
      <$> filter (fun o => key group_cols o = E) (rows out)
      = (fun o => get o (build_features.feature_name prefix w c))
        <$> filter (fun o => key group_cols o = E) (rows out').
Proof.
  intros Hkeys Hdisj Hfresh Hc Hhas Hhas' Hw HE Hseries.
  destruct (rolling_features_values L df group_cols sort_col value_cols windows prefix
              (λ k Hk, proj1 (Hkeys k Hk)) Hdisj Hfresh c w Hc Hhas Hw)
    as (out & Hout & Hlen & Hrows).
  destruct (rolling_features_values L df' group_cols sort_col value_cols windows prefix
              (λ k Hk, proj2 (Hkeys k Hk)) Hdisj Hfresh c w Hc Hhas' Hw)
    as (out' & Hout' & Hlen' & Hrows').
  exists out, out'. split; [done|]. split; [done|].
  rewrite (entity_features group_cols E (fun g => inf_to_nan (to_numeric L (get g c)))
             (build_features.feature_name prefix w c) (Pos.to_nat w) HE _ _ Hlen Hrows).
  rewrite (entity_features group_cols E (fun g => inf_to_nan (to_numeric L (get g c)))
             (build_features.feature_name prefix w c) (Pos.to_nat w) HE _ _ Hlen' Hrows').
  change (fun g : row => inf_to_nan (to_numeric L (get g c)))
    with (inf_to_nan ∘ (fun g : row => to_numeric L (get g c))).
  by rewrite !(list_fmap_compose (fun g : row => to_numeric L (get g c)) inf_to_nan),
       Hseries.
Qed.

Lemma rolling_entity_isolation_witness :
  ∃ out out',
    build_features.rolling_features example_lib example_bos ["team"] "gameDate"
      ["goalsFor"] build_features.WINDOWS "team_" = Ok out
    ∧ build_features.rolling_features example_lib example_bos_elsewhere ["team"]
        "gameDate" ["goalsFor"] build_features.WINDOWS "team_" = Ok out'
    ∧ (fun o => get o "team_5_goalsFor")
      <$> filter (fun o => key ["team"] o = [Str "BOS"]) (rows out)
      = (fun o => get o "team_5_goalsFor")
        <$> filter (fun o => key ["team"] o = [Str "BOS"]) (rows out').
Proof.
  apply (rolling_entity_isolation example_lib example_bos example_bos_elsewhere
           ["team"] "gameDate" ["goalsFor"] build_features.WINDOWS "team_"
           "goalsFor" 5 [Str "BOS"]).
  - intros k Hk. repeat (apply elem_of_cons in Hk as [->|Hk]; [by split|]).
    by apply elem_of_nil in Hk.
  - intros c' Hc'. apply list_elem_of_singleton in Hc' as ->. by compute_done.
  - intros c' w' Hc' Hw'. apply list_elem_of_singleton in Hc' as ->.
    repeat (apply elem_of_cons in Hw' as [->|Hw']; [by compute_done|]).
    by apply elem_of_nil in Hw'.
  - apply list_elem_of_here.
  - reflexivity.
  - reflexivity.
  - apply list_elem_of_here.
  - reflexivity.
  - vm_compute. reflexivity.
Defined.

(** ** Rest days *)

Section RestDays.
Import build_features.

Lemma StronglySorted_filter {A} (R : relation A) (P : A → Prop)
    `{!∀ x, Decision (P x)} (l : list A) :
  StronglySorted R l → StronglySorted R (filter P l).
Proof.
  induction 1 as [|a l Hl IH Ha]; [constructor|].
  rewrite filter_cons. destruct (decide (P a)); [|done].
  constructor; [done|]. apply Forall_forall. intros x [_ Hx]%list_elem_of_filter.
  by eapply Forall_forall in Ha.
Qed.

Lemma diff_days_lookup (x : list cell) (j : nat) (v : cell) :
  diff_days x !! j = Some v →
  v = NA
  ∨ ∃ j' d d', j = S j' ∧ x !! j = Some (Date d) ∧ x !! j' = Some (Date d')
               ∧ v = Num (Qc_of_Z (d - d')).
Proof.
  unfold diff_days. rewrite list_lookup_imap.
  destruct (x !! j) as [y|] eqn:Hy; [|done]. simpl. intros [= <-].
  destruct j as [|j']; [by left|]. destruct y as [| | | |d]; try by left.
  destruct (x !! j') as [[| | | |d']|] eqn:Hy'; try by left.
  right. by exists j', d, d'.
Qed.

End RestDays.

(** X19.  [days_since_prev_game], as [main] computes it for the team table
    once sorted by team and date: the value is missing on the first game of
    a team and otherwise, where defined, a whole number of days that is
    never negative. *)
Theorem days_since_prev_game_nonneg (t : list row) :
  let s := sort_rows ["team"; "gameDate"] t in
  let days := groupby_apply ["team"] "gameDate" build_features.diff_days s in
  length days = length t
  ∧ (∀ i r, s !! i = Some r → rank_in_group ["team"] s i r = 0 →
            days !! i = Some NA)
  ∧ ∀ v, v ∈ days → v = NA ∨ ∃ z, v = Num (Qc_of_Z z) ∧ (0 ≤ z)%Z.
Proof.
  intros s days. unfold days, groupby_apply. split; [|split].
  - unfold s. by rewrite length_imap, length_sort_rows.
  - intros i r Hr Hrank. rewrite list_lookup_imap, Hr.
    cbn [fmap option_fmap option_map]. rewrite Hrank.
    destruct (existsb isna (key ["team"] r)); [done|].
    f_equal. unfold build_features.diff_days. rewrite list_lookup_imap.
    by destruct (_ !! 0).
  - intros v (i & r & -> & Hr)%elem_of_lookup_imap.
    destruct (existsb isna (key ["team"] r)); [by left|].
    set (g := group_rows ["team"] s r).
    destruct (build_features.diff_days ((fun r' => get r' "gameDate") <$> g)
                !! rank_in_group ["team"] s i r) as [v|] eqn:Hv; [|by left].
    simpl. apply diff_days_lookup in Hv as [->|(j' & d & d' & Hj & Hd & Hd' & ->)];
      [by left|].
    right. exists (d - d')%Z. split; [done|].
    rewrite Hj in Hd. rewrite list_lookup_fmap in Hd, Hd'.
    apply fmap_Some in Hd as (b & Hb & Hbd). apply fmap_Some in Hd' as (a & Ha & Had).
    assert (StronglySorted (row_le ["team"; "gameDate"]) g) as Hsorted.
    { apply StronglySorted_filter, sort_rows_sorted. }
    assert (row_le ["team"; "gameDate"] a b) as Hle.
    { apply (sorted_lookup_le _ g j' (S j') a b Hsorted Ha Hb). lia. }
    assert (key ["team"] a = key ["team"] b) as Hk.
    { apply list_elem_of_lookup_2 in Ha, Hb.
      apply list_elem_of_filter in Ha as [-> _]. by apply list_elem_of_filter in Hb as [-> _]. }
    unfold row_le in Hle.
    change (key ["team"; "gameDate"] a) with (key ["team"] a ++ [get a "gameDate"]) in Hle.
    change (key ["team"; "gameDate"] b) with (key ["team"] b ++ [get b "gameDate"]) in Hle.
    rewrite Hk in Hle. apply lex_le_app in Hle.
    rewrite <- Had, <- Hbd in Hle. simpl in Hle. destruct Hle as [Hle _]. lia.
Qed.

(** ** The trainer's metrics *)

Ltac Qc_to_Q :=
  unfold Qcle, Qclt, Qcopp, Qcplus, Qcminus, Qcmult, Q2Qc in *; cbn [this] in *;
  rewrite ?Qred_correct in *.

Section Metrics.
Import train_models_team.

Lemma Qc_abs_nonneg (x : Qc) : (0 ≤ Qc_abs x)%Qc.
Proof.
  unfold Qc_abs. case_bool_decide as Hx.
  - Qc_to_Q. lra.
  - by apply Qcnot_lt_le.
Qed.

Lemma Qc_abs_zero (x : Qc) : Qc_abs x = 0%Qc ↔ x = 0%Qc.
Proof.
  unfold Qc_abs. case_bool_decide as Hx; [|done]. split.
  - intros H. apply (f_equal Qcopp) in H. by rewrite Qcopp_involutive in H.
  - intros ->. done.
Qed.

Lemma Qc_square_nonneg (x : Qc) : (0 ≤ x * x)%Qc.
Proof. Qc_to_Q. nra. Qed.

Lemma Qc_square_zero (x : Qc) : (x * x = 0)%Qc ↔ x = 0%Qc.
Proof.
  split; [|by intros ->].
  by intros [?|?]%Qcmult_integral.
Qed.

Lemma Qc_minus_zero (x y : Qc) : (x - y = 0)%Qc ↔ x = y.
Proof.
  split.
  - intros H. transitivity (x - y + y)%Qc; [ring|]. rewrite H. ring.
  - intros ->. apply Qcplus_opp_r.
Qed.

Lemma Qc_plus_zero (a b : Qc) :
  (0 ≤ a)%Qc → (0 ≤ b)%Qc → (a + b = 0)%Qc → a = 0%Qc ∧ b = 0%Qc.
Proof.
  intros Ha Hb Hab.
  assert (this (a + b)%Qc == 0)%Q as H by (by rewrite Hab).
  clear Hab. split; apply Qc_is_canon; Qc_to_Q; lra.
Qed.

Lemma Qc_sum_nonneg (l : list Qc) :
  Forall (fun x => (0 ≤ x)%Qc) l → (0 ≤ Qc_sum l)%Qc.
Proof.
  induction 1 as [|x l Hx Hl IH]; [done|]. cbn [Qc_sum foldr].
  fold (Qc_sum l). Qc_to_Q. lra.
Qed.

Lemma Qc_sum_zero (l : list Qc) :
  Forall (fun x => (0 ≤ x)%Qc) l → Qc_sum l = 0%Qc → Forall (fun x => x = 0%Qc) l.
Proof.
  induction 1 as [|x l Hx Hl IH]; [done|]. cbn [Qc_sum foldr]. fold (Qc_sum l).
  intros Hsum.
  destruct (Qc_plus_zero _ _ Hx (Qc_sum_nonneg l Hl) Hsum) as [-> H0].
  constructor; [done|by apply IH].
Qed.

Lemma Qc_sum_all_zero (l : list Qc) :
  Forall (fun x => x = 0%Qc) l → Qc_sum l = 0%Qc.
Proof.
  induction 1 as [|x l -> Hl IH]; [done|]. cbn [Qc_sum foldr]. fold (Qc_sum l).
  rewrite IH. done.
Qed.

Lemma Qc_count_neq_0 {A} (l : list A) :
  l ≠ [] → Qc_of_Z (Z.of_nat (length l)) ≠ 0%Qc.
Proof.
  intros Hne E. apply (f_equal (fun q => Qnum (this q))) in E.
  destruct l; [done|]. simpl in E. lia.
Qed.

Lemma Qc_mean_nonneg (l : list Qc) :
  Forall (fun x => (0 ≤ x)%Qc) l → (0 ≤ Qc_mean l)%Qc.
Proof.
  intros Hl. unfold Qc_mean, Qcdiv.
  pose proof (Qc_sum_nonneg l Hl) as Hs.
  destruct l as [|x l]; [done|].
  assert (0 < Qc_of_Z (Z.of_nat (length (x :: l))))%Qc as Hn.
  { unfold Qclt. simpl. unfold Qlt. simpl. lia. }
  apply Qcinv_pos in Hn.
  revert Hs Hn. generalize (Qc_sum (x :: l)) (/ Qc_of_Z (Z.of_nat (length (x :: l))))%Qc.
  intros a b Ha Hb. Qc_to_Q. nra.
Qed.

Lemma Qc_mean_zero (l : list Qc) :
  l ≠ [] → Qc_mean l = 0%Qc ↔ Qc_sum l = 0%Qc.
Proof.
  intros Hne. unfold Qc_mean, Qcdiv. split.
  - intros [?|Hinv]%Qcmult_integral; [done|]. exfalso.
    pose proof (Qc_count_neq_0 l Hne) as Hn.
    apply (Qcmult_inv_r _) in Hn. rewrite Hinv, Qcmult_0_r in Hn. done.
  - intros ->. apply Qcmult_0_l.
Qed.

Lemma Forall_zip_with_zero (f : Qc → Qc → Qc) (ys ps : list Qc) :
  (∀ y p, f y p = 0%Qc ↔ y = p) → length ys = length ps →
  Forall (fun x => x = 0%Qc) (zip_with f ys ps) ↔ ys = ps.
Proof.
  intros Hf. revert ps. induction ys as [|y ys IH]; intros [|p ps] Hlen; try done.
  cbn [zip_with]. rewrite Forall_cons, Hf, IH by (simpl in Hlen; lia).
  split; [by intros [-> ->]|by intros [= -> ->]].
Qed.

Lemma zip_with_nonempty {A B C} (f : A → B → C) (ys : list A) (ps : list B) :
  length ys = length ps → ys ≠ [] → zip_with f ys ps ≠ [].
Proof. by destruct ys, ps. Qed.

(** X20 ([eval_metrics]: [mean_absolute_error], [mean_squared_error]).  For a
    non-empty holdout and as many predictions as targets, both errors are
    non-negative, and each of them is zero exactly when every prediction
    equals its target. *)
Theorem metrics_zero_iff_exact (y_true y_pred : list Qc) :
  length y_true = length y_pred → y_true ≠ [] →
  (0 ≤ mean_absolute_error y_true y_pred)%Qc
  ∧ (0 ≤ mean_squared_error y_true y_pred)%Qc
  ∧ (mean_absolute_error y_true y_pred = 0%Qc ↔ y_true = y_pred)
  ∧ (mean_squared_error y_true y_pred = 0%Qc ↔ y_true = y_pred).
Proof.
  intros Hlen Hne. unfold mean_absolute_error, mean_squared_error.
  assert (Forall (fun x => (0 ≤ x)%Qc)
            (zip_with (fun y p => Qc_abs (y - p)) y_true y_pred)) as Habs.
  { apply Forall_forall. intros x (y & p & -> & _)%elem_of_zip_with.
    apply Qc_abs_nonneg. }
  assert (Forall (fun x => (0 ≤ x)%Qc)
            (zip_with (fun y p => ((y - p) * (y - p))%Qc) y_true y_pred)) as Hsq.
  { apply Forall_forall. intros x (y & p & -> & _)%elem_of_zip_with.
    apply Qc_square_nonneg. }
  split_and!.
  - by apply Qc_mean_nonneg.
  - by apply Qc_mean_nonneg.
  - rewrite Qc_mean_zero by by apply zip_with_nonempty.
    rewrite <- (Forall_zip_with_zero (fun y p => Qc_abs (y - p))); [|
      intros y p; by rewrite Qc_abs_zero, Qc_minus_zero|done].
    split; [by apply Qc_sum_zero|apply Qc_sum_all_zero].
  - rewrite Qc_mean_zero by by apply zip_with_nonempty.
    rewrite <- (Forall_zip_with_zero (fun y p => ((y - p) * (y - p))%Qc)); [|
      intros y p; by rewrite Qc_square_zero, Qc_minus_zero|done].
    split; [by apply Qc_sum_zero|apply Qc_sum_all_zero].
Qed.

End Metrics.

Lemma metrics_zero_iff_exact_witness :
  (0 ≤ train_models_team.mean_absolute_error [Qc_of_Z 1; Qc_of_Z 3] [Qc_of_Z 2; Qc_of_Z 5])%Qc
  ∧ train_models_team.mean_absolute_error [Qc_of_Z 1; Qc_of_Z 3] [Qc_of_Z 1; Qc_of_Z 3]
    = 0%Qc.
Proof.
  split.
  - apply (metrics_zero_iff_exact [Qc_of_Z 1; Qc_of_Z 3] [Qc_of_Z 2; Qc_of_Z 5]);
      [reflexivity|discriminate].
  - apply (metrics_zero_iff_exact [Qc_of_Z 1; Qc_of_Z 3] [Qc_of_Z 1; Qc_of_Z 3]);
      [reflexivity|discriminate|reflexivity].
Defined.

(** ** A whole run of the trainer *)

Lemma string_length_app (s t : string) :
  String.length (s +:+ t) = String.length s + String.length t.
Proof. induction s as [|a s IH]; simpl; [done|by rewrite IH]. Qed.

Lemma string_app_inj_r (t s s' : string) : s +:+ t = s' +:+ t → s = s'.
Proof.
  revert s'. induction s as [|a s IH]; intros [|a' s'] H; simpl in H.
  - done.
  - apply (f_equal String.length) in H.
    rewrite ?string_length_app in H. simpl in H. rewrite ?string_length_app in H. lia.
  - apply (f_equal String.length) in H.
    rewrite ?string_length_app in H. simpl in H. rewrite ?string_length_app in H. lia.
  - injection H as -> H. f_equal. by apply IH.
Qed.

Lemma artifact_path_inj (y y' : string) :
  "team_" +:+ y +:+ ".joblib" = "team_" +:+ y' +:+ ".joblib" → y = y'.
Proof. intros H%(String.app_inj "team_"). by apply string_app_inj_r in H. Qed.

Section TrainerRun.
Import train_models_team.

Variable L : Lib.
Variable fitted : Type.
Variable fit : strategy → list (list cell) → list Qc → fitted.
Variable predict : fitted → list (list cell) → list Qc.
Variable sqrt : Qc → Qc.
Variables (hs : Z) (feat_cols : list string) (df : DataFrame).

(** Both splits of target [y] have rows. *)
Local Abbreviation trainable y :=
  (train_split L y hs df ≠ [] ∧ test_split L y hs df ≠ []).

Local Abbreviation path y := ("team_" +:+ y +:+ ".joblib").

(** [am] is a candidate of lowest holdout MAE for [y] with its pipeline
    fitted on the training split of [y]. *)
Local Abbreviation best_for y am :=
  (∃ y_train y_test,
     target_vector y (train_split L y hs df) = Ok y_train
     ∧ target_vector y (test_split L y hs df) = Ok y_test
     ∧ am.1 ∈ CANDIDATES
     ∧ am.2 = fit am.1 (matrix feat_cols (train_split L y hs df)) y_train
     ∧ ∀ s, s ∈ CANDIDATES →
         Qcle
           (mean_absolute_error y_test
              (predict (fit am.1 (matrix feat_cols (train_split L y hs df)) y_train)
                 (matrix feat_cols (test_split L y hs df))))
           (mean_absolute_error y_test
              (predict (fit s (matrix feat_cols (train_split L y hs df)) y_train)
                 (matrix feat_cols (test_split L y hs df))))).


Local Abbreviation label r := (get r "target", get r "model").

Lemma label_report_row y s h m r n1 n2 n3 :
  label (report_row y s h m r n1 n2 n3) = (Str y, Str (strategy_name s)).
Proof. done. Qed.

Lemma train_target_Ok st y st' :
  train_target L fitted fit predict sqrt hs feat_cols df st y = Ok st' →
  (¬ trainable y ∧ st' = st)
  ∨ (trainable y
     ∧ ∃ am, best_for y am
         ∧ artifacts fitted st' = <[path y := am]> (artifacts fitted st)
         ∧ ∃ added, report_rows fitted st' = report_rows fitted st ++ added
             ∧ (fun r => label r) <$> added
               = (fun s => (Str y, Str (strategy_name s))) <$> CANDIDATES).
Proof.
  destruct (decide (trainable y)) as [[Htrain Htest]|Hskip].
  2:{ intros H. left. split; [done|].
      rewrite train_target_skip in H; [congruence|].
      destruct (train_split L y hs df); [by left|].
      destruct (test_split L y hs df); [by right|].
      exfalso. by apply Hskip. }
  intros H. right. split; [done|]. revert H. unfold train_target.
  rewrite (bool_decide_false (length (test_split L y hs df) = 0)),
    (bool_decide_false (length (train_split L y hs df) = 0)).
  2:{ by destruct (train_split L y hs df). }
  2:{ by destruct (test_split L y hs df). }
  destruct (target_vector y (train_split L y hs df)) as [y_train| | | |] eqn:Hytrain;
    try done.
  destruct (target_vector y (test_split L y hs df)) as [y_test| | | |] eqn:Hytest;
    try done.
  unfold mbind, result_bind. cbv beta iota.
  destruct (try_candidates_spec fitted fit predict sqrt y hs feat_cols
              (matrix feat_cols (train_split L y hs df)) y_train
              (matrix feat_cols (test_split L y hs df)) y_test CANDIDATES st
              {| best := None; best_mae := BEST_MAE_INIT |})
    as (st1 & b' & Hfold & Hrep & Hart & Hpipe & Hmin & Hbest).
  rewrite Hfold. simpl in Hbest.
  destruct Hbest as [[-> _]|(s0 & Hs0 & Hb & Hm & _)]; [done|].
  rewrite Hb, (Hpipe s0 Hs0). intros [= <-]. cbn [artifacts report_rows].
  eexists (s0, _). split; [|split; [by rewrite Hart|]].
  - exists y_train, y_test. cbn [fst snd]. split_and!; try done.
    intros s Hs. rewrite <- Hm. by apply Hmin.
  - eexists. split; [exact Hrep|]. by rewrite <- list_fmap_compose.
Qed.

(** Every artifact on disk under the name of a target is a best candidate
    of that target. *)
Local Abbreviation sound st :=
  (∀ y am, artifacts fitted st !! path y = Some am → best_for y am).

Lemma train_targets_Ok ys st st' :
  train_targets L fitted fit predict sqrt hs feat_cols df ys st = Ok st' →
  (fun r => label r) <$> report_rows fitted st'
  = ((fun r => label r) <$> report_rows fitted st)
    ++ (y ← filter (fun y => trainable y) ys;
        (fun s => (Str y, Str (strategy_name s))) <$> CANDIDATES)
  ∧ (∀ p, is_Some (artifacts fitted st' !! p)
          ↔ is_Some (artifacts fitted st !! p)
            ∨ ∃ y, y ∈ filter (fun y => trainable y) ys ∧ p = path y)
  ∧ (sound st → sound st').
Proof.
  revert st. induction ys as [|y ys IH]; intros st.
  - intros [= <-]. cbn [filter list_filter mbind list_bind]. rewrite app_nil_r.
    split_and!; [done| |done].
    intros p. split; [by left|]. intros [?|(y & Hy & _)]; [done|].
    by apply elem_of_nil in Hy.
  - cbn [train_targets].
    destruct (train_target L fitted fit predict sqrt hs feat_cols df st y)
      as [st1| | | |] eqn:Hy; try done.
    unfold mbind at 1, result_bind at 1. cbv beta iota. intros Hrest.
    destruct (IH _ Hrest) as (Hrep & Hdom & Hsound). clear IH.
    apply train_target_Ok in Hy
      as [[Hskip ->]|(Htr & am & Hbest & Hart & added & Hadd & Hlab)].
    + rewrite filter_cons_False by done. done.
    + rewrite filter_cons_True by done. split_and!.
      * rewrite Hrep, Hadd, fmap_app, Hlab, <- app_assoc. done.
      * intros p. rewrite Hdom, Hart. split.
        -- intros [Hp|(y' & Hy' & ->)].
           ++ destruct (decide (p = path y)) as [->|Hne].
              ** right. exists y. split; [left|done].
              ** left. by rewrite lookup_insert_ne in Hp.
           ++ right. exists y'. split; [by right|done].
        -- intros [Hp|(y' & Hy' & ->)].
           ++ left. destruct (decide (p = path y)) as [->|Hne].
              ** by rewrite lookup_insert_eq.
              ** by rewrite lookup_insert_ne.
           ++ apply elem_of_cons in Hy' as [->|Hy'].
              ** left. by rewrite lookup_insert_eq.
              ** right. eauto.
      * intros Hst. apply Hsound. intros y' am'. rewrite Hart.
        destruct (decide (y' = y)) as [->|Hne].
        -- rewrite lookup_insert_eq. by intros [= <-].
        -- rewrite lookup_insert_ne; [apply Hst|].
           intros ?%artifact_path_inj. done.
Qed.

End TrainerRun.

(** X21 ([main] of 06: the loops over [y_cols_all] and [candidates], the
    report and the artifacts).  When a run of the trainer ends without an
    exception, at least one target column had rows on both sides of the
    holdout season; the report holds exactly one row per such target and
    candidate and is sorted by target and MAE; an artifact file exists
    exactly for these targets; and the artifact of each target holds a
    candidate of lowest holdout MAE among the three, fitted on the training
    split of that target. *)
Theorem trainer_run_report (L : Lib) (fitted : Type)
    (fit : train_models_team.strategy → list (list cell) → list Qc → fitted)
    (predict : fitted → list (list cell) → list Qc) (sqrt : Qc → Qc)
    (df : DataFrame) (written : gmap string (train_models_team.strategy * fitted))
    (report : DataFrame) :
  train_models_team.main L fitted fit predict sqrt df = Ok (written, report) →
  ∃ df1 hs,
    train_models_team.clean_seasons L df = Ok df1
    ∧ train_models_team.holdout_of L df1 = Ok hs
    ∧ let feat_cols :=
        filter (fun c => train_models_team.is_numeric_col df c = true)
          (filter (fun c => startswith "team_" c = true) (columns df)) in
      let trained :=
        filter (fun y => train_models_team.train_split L y hs df1 ≠ []
                         ∧ train_models_team.test_split L y hs df1 ≠ [])
          (filter (fun c => startswith "y_" c = true) (columns df)) in
      trained ≠ []
      ∧ (fun r => (get r "target", get r "model")) <$> rows report
        ≡ₚ (y ← trained;
            (fun s => (Str y, Str (train_models_team.strategy_name s)))
              <$> train_models_team.CANDIDATES)
      ∧ StronglySorted (row_le ["target"; "MAE"]) (rows report)
      ∧ (∀ p, is_Some (written !! p)
              ↔ ∃ y, y ∈ trained ∧ p = "team_" +:+ y +:+ ".joblib")
      ∧ ∀ y, y ∈ trained →
          ∃ s y_train y_test,
            train_models_team.target_vector y
              (train_models_team.train_split L y hs df1) = Ok y_train
            ∧ train_models_team.target_vector y
                (train_models_team.test_split L y hs df1) = Ok y_test
            ∧ s ∈ train_models_team.CANDIDATES
            ∧ written !! ("team_" +:+ y +:+ ".joblib")
              = Some (s, fit s (train_models_team.matrix feat_cols
                                  (train_models_team.train_split L y hs df1)) y_train)
            ∧ ∀ s', s' ∈ train_models_team.CANDIDATES →
                Qcle
                  (train_models_team.mean_absolute_error y_test
                     (predict
                        (fit s (train_models_team.matrix feat_cols
                                  (train_models_team.train_split L y hs df1)) y_train)
                        (train_models_team.matrix feat_cols
                           (train_models_team.test_split L y hs df1))))
                  (train_models_team.mean_absolute_error y_test
                     (predict
                        (fit s' (train_models_team.matrix feat_cols
                                   (train_models_team.train_split L y hs df1)) y_train)
                        (train_models_team.matrix feat_cols
                           (train_models_team.test_split L y hs df1)))).
Proof.
  unfold train_models_team.main.
  destruct (train_models_team.clean_seasons L df) as [df1| | | |] eqn:Hclean; try done.
  unfold mbind at 1, result_bind at 1. cbv beta iota.
  destruct (train_models_team.holdout_of L df1) as [hs| | | |] eqn:Hhs; try done.
  unfold mbind at 1, result_bind at 1. cbv beta iota.
  destruct (train_models_team.train_targets _ _ _ _ _ _ _ _ _ _) as [st| | | |] eqn:Hrun;
    try done.
  unfold mbind at 1, result_bind at 1. cbv beta iota.
  destruct (sort_values _ _) as [rep| | | |] eqn:Hsort; try done.
  unfold mbind at 1, result_bind at 1. cbv beta iota. intros [= <- <-].
  exists df1, hs. split; [done|]. split; [done|]. cbv zeta.
  apply train_targets_Ok in Hrun as (Hrep & Hdom & Hsound).
  cbn [train_models_team.init_state train_models_team.report_rows
         train_models_team.artifacts fmap list_fmap app] in Hrep, Hdom.
  unfold sort_values in Hsort.
  destruct (missing_col _ _) eqn:Hmiss in Hsort; [done|]. injection Hsort as <-.
  cbn [rows]. cbn [train_models_team.report_frame rows].
  assert (train_models_team.report_rows fitted st ≠ []) as Hne.
  { intros E. rewrite E in Hmiss. done. }
  split_and!.
  - intros E. rewrite E in Hrep. cbn [mbind list_bind] in Hrep.
    by apply fmap_nil_inv in Hrep.
  - rewrite <- Hrep. apply fmap_Permutation, sort_rows_Permutation.
  - apply sort_rows_sorted.
  - intros p. rewrite Hdom. split; [|by right].
    intros [Hp|?]; [|done]. rewrite lookup_empty in Hp. by destruct Hp.
  - intros y Hy.
    destruct (proj2 (Hdom ("team_" +:+ y +:+ ".joblib"))) as [[s model] Ham].
    { right. eauto. }
    assert (∀ y' am', train_models_team.artifacts fitted
                        (train_models_team.init_state fitted)
                      !! ("team_" +:+ y' +:+ ".joblib") = Some am' → False) as Hinit.
    { intros y' am' H. cbn [train_models_team.init_state train_models_team.artifacts] in H.
      by rewrite lookup_empty in H. }
    destruct (Hsound (fun y' am' H => False_ind _ (Hinit y' am' H)) y (s, model) Ham)
      as (y_train & y_test & ? & ? & ? & Hmodel & ?).
    cbn [fst snd] in *. subst model. exists s, y_train, y_test. done.
Qed.

Lemma trainer_run_report_witness :
  ∃ written report,
    train_models_team.main example_lib train_models_team.strategy example_fit
      example_model_predict example_sqrt example_model_table = Ok (written, report)
    ∧ StronglySorted (row_le ["target"; "MAE"]) (rows report)
    ∧ is_Some (written !! "team_y_goalsFor.joblib").
Proof.
  assert (is_ok (train_models_team.main example_lib train_models_team.strategy
                   example_fit example_model_predict example_sqrt example_model_table)
          = true) as Hok by (vm_compute; reflexivity).
  destruct (train_models_team.main example_lib train_models_team.strategy example_fit
              example_model_predict example_sqrt example_model_table)
    as [[written report]| | | |] eqn:Hmain; try discriminate Hok.
  exists written, report. split; [reflexivity|].
  destruct (trainer_run_report _ _ _ _ _ _ _ _ Hmain)
    as (df1 & hs & Hclean & Hhs & _ & _ & Hsorted & Hdom & _).
  split; [exact Hsorted|].
  apply Hdom. exists "y_goalsFor". split; [|reflexivity].
  assert (match train_models_team.clean_seasons example_lib example_model_table with
          | Ok df1 =>
              match train_models_team.holdout_of example_lib df1 with
              | Ok hs =>
                  bool_decide
                    (train_models_team.train_split example_lib "y_goalsFor" hs df1 ≠ []
                     ∧ train_models_team.test_split example_lib "y_goalsFor" hs df1 ≠ [])
              | _ => false
              end
          | _ => false
          end = true) as E by (vm_compute; reflexivity).
  rewrite Hclean, Hhs in E. apply bool_decide_eq_true in E.
  apply list_elem_of_filter. split; [exact E|]. vm_compute. left.
Defined.

(** ** The trainer without usable seasons *)

Lemma result_bind_Ok {A B} (x : A) (f : A → result B) : Ok x ≫= f = f x.
Proof. done. Qed.

(** X22 ([main] of 06, lines 52-56).  A table without a [season] column
    stops the trainer with KeyError.  A table in which no row has a season
    that reads as a number (an empty table included) stops it with TypeError
    when the missing maximum is turned into an [int]; and one row with a
    season that is not a whole number stops it with TypeError at the cast.
    In all three cases nothing is trained or written. *)
Theorem trainer_season_errors (L : Lib) (fitted : Type)
    (fit : train_models_team.strategy → list (list cell) → list Qc → fitted)
    (predict : fitted → list (list cell) → list Qc) (sqrt : Qc → Qc)
    (df : DataFrame) :
  (has_col df "season" = false →
   train_models_team.main L fitted fit predict sqrt df = KeyError "season")
  ∧ (has_col df "season" = true →
     (∀ r, r ∈ rows df → to_numeric L (get r "season") = NA) →
     train_models_team.main L fitted fit predict sqrt df
     = TypeError "int() argument must be a string or a real number, not NAType")
  ∧ (has_col df "season" = true →
     (∃ r, r ∈ rows df ∧ isna (get r "season") = false
           ∧ build_features.is_integral (to_numeric L (get r "season")) = false) →
     train_models_team.main L fitted fit predict sqrt df
     = TypeError "cannot safely cast non-equivalent float64 to int64").
Proof.
  unfold train_models_team.main, train_models_team.clean_seasons, dropna.
  split_and!.
  - intros ->. done.
  - intros Hcol Hall. rewrite Hcol.
    rewrite result_bind_Ok. cbn [rows].
    set (kept := filter (fun r => isna (get r "season") = false) (rows df)).
    assert (∀ r, r ∈ kept → to_numeric L (get r "season") = NA) as Hkept.
    { intros r [_ Hr]%list_elem_of_filter. by apply Hall. }
    assert ((fun r => to_numeric L (get r "season")) <$> kept
            = replicate (length kept) NA) as Hvals.
    { clear -Hkept. induction kept as [|r kept IH]; [done|]. cbn [fmap list_fmap].
      cbn [length replicate]. rewrite Hkept by left. f_equal.
      apply IH. intros r' Hr'. apply Hkept. by right. }
    rewrite Hvals.
    assert (forallb build_features.is_integral (replicate (length kept) NA) = true) as ->.
    { clear. induction (length kept); [done|]. simpl. done. }
    unfold set_column, has_col. cbn [columns rows].
    case_bool_decide as Hin.
    2:{ exfalso. apply Hin. unfold has_col in Hcol. cbn [columns].
        apply bool_decide_eq_true in Hcol. case_bool_decide; [done|].
        apply elem_of_app. by left. }
    rewrite result_bind_Ok.
    unfold train_models_team.holdout_of. cbn [rows].
    assert (omap (train_models_team.season_of L)
              (filter (fun r => isna (get r "season") = false)
                 (zip_with (fun r v => <["season" := v]> r) kept
                    (replicate (length kept) NA))) = []) as ->; [|done].
    clear. generalize (length kept). induction kept as [|r kept IH]; intros [|n]; try done.
    cbn [replicate zip_with]. rewrite filter_cons_False; [apply IH|].
    unfold get. rewrite lookup_insert_eq. done.
  - intros Hcol (r & Hr & Hna & Hfrac). rewrite Hcol.
    rewrite result_bind_Ok. cbn [rows].
    assert (forallb build_features.is_integral
              ((fun r => to_numeric L (get r "season"))
                 <$> filter (fun r => isna (get r "season") = false) (rows df))
            = false) as ->; [|done].
    apply not_true_is_false. intros Hall.
    rewrite forallb_forall in Hall.
    specialize (Hall (to_numeric L (get r "season"))).
    rewrite Hall in Hfrac; [done|].
    apply list_elem_of_In, list_elem_of_fmap. exists r. split; [done|].
    by apply list_elem_of_filter.
Qed.

(** ** The projector: the latest snapshot of every team *)

Section Latest.
Import project_upcoming.

Variable gcols : list string.

Lemma elem_of_tail1 (t : list row) x : x ∈ tail1 gcols t → x ∈ t.
Proof.
  induction t as [|r t IH]; [done|]. cbn [tail1].
  case_bool_decide; [|by right; apply IH].
  intros [->|?]%elem_of_cons; [left|right; by apply IH].
Qed.

Lemma tail1_NoDup (t : list row) : NoDup (key gcols <$> tail1 gcols t).
Proof.
  induction t as [|r t IH]; [constructor|]. cbn [tail1].
  case_bool_decide as Hlast; [|done].
  rewrite fmap_cons. constructor; [|done].
  intros (x & Hk & Hx%elem_of_tail1)%list_elem_of_fmap.
  assert (x ∈ group_rows gcols t r) as Hin by by apply list_elem_of_filter.
  rewrite Hlast in Hin. by apply elem_of_nil in Hin.
Qed.

Lemma tail1_covers (t : list row) r :
  r ∈ t → ∃ o, o ∈ tail1 gcols t ∧ key gcols o = key gcols r.
Proof.
  revert r. induction t as [|a t IH]; intros r; [by intros ?%elem_of_nil|]. cbn [tail1].
  intros Hr. case_bool_decide as Hlast.
  - apply elem_of_cons in Hr as [->|Hr]; [exists a; split; [left|done]|].
    destruct (IH _ Hr) as (o & Ho & Hk). exists o. split; [by right|done].
  - assert (∃ x, x ∈ t ∧ key gcols x = key gcols a) as (x & Hx & Hxa).
    { destruct (group_rows gcols t a) as [|x xs] eqn:Hg; [done|].
      assert (x ∈ group_rows gcols t a) as Hin by (rewrite Hg; left).
      apply list_elem_of_filter in Hin as [? ?]. eauto. }
    apply elem_of_cons in Hr as [->|Hr].
    + destruct (IH _ Hx) as (o & Ho & Hk). exists o. split; [done|congruence].
    + by apply IH.
Qed.

(** In a sorted table the row kept for a group is not smaller than any row
    of the group. *)
Lemma tail1_greatest (R : relation row) `{!Reflexive R} (t : list row) o r :
  StronglySorted R t → o ∈ tail1 gcols t → r ∈ t → key gcols r = key gcols o →
  R r o.
Proof.
  intros Hsorted. revert r.
  induction Hsorted as [|a t Ht IH Ha]; intros r; [by intros ?%elem_of_nil|].
  cbn [tail1]. intros Ho Hr Hk.
  assert (o ∈ tail1 gcols t → R r o) as Hrest.
  { intros Ho'. apply elem_of_cons in Hr as [->|Hr]; [|by apply IH].
    eapply Forall_forall in Ha; [exact Ha|]. by apply elem_of_tail1. }
  case_bool_decide as Hlast; [|by apply Hrest].
  apply elem_of_cons in Ho as [->|Ho]; [|by apply Hrest].
  apply elem_of_cons in Hr as [->|Hr]; [reflexivity|].
  assert (r ∈ group_rows gcols t a) as Hin by by apply list_elem_of_filter.
  rewrite Hlast in Hin. by apply elem_of_nil in Hin.
Qed.

End Latest.

#[local] Instance row_le_reflexive by_ : Reflexive (row_le by_).
Proof. intros r. apply lex_le_refl. Qed.

Lemma get_renamed_to old new (r : row) v :
  r !! old = Some v →
  get (match r !! old with
       | Some v => <[new := v]> (delete old r)
       | None => r
       end) new = v.
Proof. intros ->. apply get_insert_eq. Qed.

(** The shape of the snapshot table: the last row of every team among the
    rows with a team and a date, cut down to the team, the date and the
    feature columns, the date relabelled. *)
Lemma team_latest_inv (L : Lib) (team_feat : DataFrame)
    (feat_cols : list string) (latest : DataFrame) :
  project_upcoming.team_latest L team_feat = Ok (feat_cols, latest) →
  feat_cols = filter (fun c => startswith "team_" c = true) (columns team_feat)
  ∧ rows latest
    = (fun r : row =>
         match filter (fun kv : string * cell =>
                         kv.1 ∈ ["team"; "gameDate"] ++ feat_cols) r !! "gameDate" with
         | Some v => <["last_gameDate" := v]>
                       (delete "gameDate"
                          (filter (fun kv : string * cell =>
                                     kv.1 ∈ ["team"; "gameDate"] ++ feat_cols) r))
         | None => filter (fun kv : string * cell =>
                             kv.1 ∈ ["team"; "gameDate"] ++ feat_cols) r
         end)
      <$> project_upcoming.tail1 ["team"]
            (sort_rows ["team"; "gameDate"]
               (filter (fun r => isna (get r "gameDate") = false)
                  (filter (fun r => isna (get r "team") = false)
                     ((fun r => <["gameDate" :=
                                    build_features.to_datetime_cell L (get r "gameDate")]> r)
                        <$> rows team_feat)))).
Proof.
  intros H. unfold project_upcoming.team_latest in H.
  destruct (has_col team_feat "gameDate") eqn:Hgd; [|done]. cbn [negb] in H.
  set (dated := map_column "gameDate" _ team_feat) in H.
  unfold dropna in H.
  assert (columns dated = columns team_feat) as Hcols.
  { unfold dated, map_column, set_column. cbn [columns]. by rewrite Hgd. }
  destruct (has_col dated "team") eqn:Hteam; [|done].
  rewrite result_bind_Ok in H. cbn [columns rows] in H. cbv beta in H.
  assert (has_col {| columns := columns dated;
                     rows := filter (fun r => isna (get r "team") = false) (rows dated) |}
            "gameDate" = true) as Hgd2.
  { unfold has_col. cbn [columns]. rewrite Hcols. exact Hgd. }
  rewrite Hgd2 in H.
  rewrite result_bind_Ok in H. cbn [columns rows] in H.
  set (fc := filter (fun c => startswith "team_" c = true) (columns dated)) in *.
  set (kept := filter (fun r => isna (get r "gameDate") = false)
                 (filter (fun r => isna (get r "team") = false) (rows dated))) in *.
  unfold sort_values in H. destruct (missing_col _ _) in H; [done|].
  rewrite result_bind_Ok in H. cbn [columns rows] in H.
  destruct (select_columns _ _) as [sel| | | |] eqn:Hsel; try done.
  rewrite result_bind_Ok in H. injection H as <- <-.
  apply select_columns_rows in Hsel as [_ Hsel]. cbn [rows] in Hsel.
  split; [unfold fc; by rewrite Hcols|].
  unfold rename_column. rewrite bool_decide_false by done. cbn [rows].
  rewrite Hsel, <- list_fmap_compose. unfold kept, dated. by rewrite rows_map_column.
Qed.

(** X23 ([main] of 07, lines 118-128: [team_latest]).  When the snapshot
    table is built, it has one row per team; every team that has a row with a
    team code and a readable game date in the feature table is in it; and
    the row of a team carries, under [last_gameDate], the latest game date
    of the team together with the [team_] feature values of one row of the
    team that has this date. *)
Theorem team_latest_spec (L : Lib) (team_feat : DataFrame)
    (feat_cols : list string) (latest : DataFrame) :
  project_upcoming.team_latest L team_feat = Ok (feat_cols, latest) →
  let date r := build_features.to_datetime_cell L (get r "gameDate") in
  let usable r := isna (get r "team") = false ∧ isna (date r) = false in
  feat_cols = filter (fun c => startswith "team_" c = true) (columns team_feat)
  ∧ NoDup ((fun o => get o "team") <$> rows latest)
  ∧ (∀ r, r ∈ rows team_feat → usable r →
          ∃ o, o ∈ rows latest ∧ get o "team" = get r "team")
  ∧ ∀ o, o ∈ rows latest →
      ∃ r, r ∈ rows team_feat ∧ usable r
           ∧ get o "team" = get r "team"
           ∧ get o "last_gameDate" = date r
           ∧ (∀ c, c ∈ feat_cols → get o c = get r c)
           ∧ ∀ r', r' ∈ rows team_feat → usable r' →
                   get r' "team" = get r "team" → cell_le (date r') (date r).
Proof.
  intros H date usable.
  apply team_latest_inv in H as [Hfeat Hrows]. rewrite Hrows. clear Hrows.
  set (kept := filter (fun r => isna (get r "gameDate") = false) _).
  set (s := sort_rows ["team"; "gameDate"] kept) in *.
  set (cs := ["team"; "gameDate"] ++ feat_cols) in *.
  set (pick := fun r : row => filter (fun kv : string * cell => kv.1 ∈ cs) r) in *.
  set (ren := fun r : row => match r !! "gameDate" with
                             | Some v => <["last_gameDate" := v]> (delete "gameDate" r)
                             | None => r
                             end).
  match goal with
  | |- context [?f <$> project_upcoming.tail1 ["team"] s] =>
      change f with (fun r => ren (pick r))
  end.
  (* the cells of a snapshot row *)
  assert (∀ c, c ∈ feat_cols → c ≠ "gameDate" ∧ c ≠ "last_gameDate" ∧ c ∈ cs) as Hfc.
  { intros c Hc. pose proof Hc as Hpre. rewrite Hfeat in Hpre.
    apply list_elem_of_filter in Hpre as [Hpre _]. split_and!.
    - by intros ->.
    - by intros ->.
    - apply elem_of_app. by right. }
  assert (∀ x, get (ren (pick x)) "team" = get x "team") as Hgteam.
  { intros x. unfold ren. rewrite get_rename_row by done.
    apply get_select. unfold cs. left. }
  assert (∀ x c, c ∈ feat_cols → get (ren (pick x)) c = get x c) as Hgfeat.
  { intros x c Hc. destruct (Hfc c Hc) as (? & ? & ?).
    unfold ren. rewrite get_rename_row by done. by apply get_select. }
  (* the rows that survive the two [dropna] *)
  assert (∀ x, x ∈ kept ↔ ∃ r, r ∈ rows team_feat ∧ usable r
                               ∧ x = <["gameDate" := date r]> r) as Hkept.
  { intros x. unfold kept. rewrite !list_elem_of_filter.
    rewrite list_elem_of_fmap. split.
    - intros (Hd & Ht & r & -> & Hr). exists r. split; [done|]. split; [|done].
      rewrite get_insert_eq in Hd. rewrite get_insert_ne in Ht by done. done.
    - intros (r & Hr & [Ht Hd] & ->). rewrite get_insert_eq, get_insert_ne by done.
      split; [done|]. split; [done|]. eauto. }
  assert (∀ x, x ∈ s ↔ x ∈ kept) as Hs.
  { intros x. apply elem_of_sort_rows. }
  split_and!.
  - done.
  - assert ((fun o => get o "team") <$> ((fun r => ren (pick r)) <$> project_upcoming.tail1 ["team"] s)
            = (fun x => get x "team") <$> project_upcoming.tail1 ["team"] s) as ->.
    { rewrite <- !list_fmap_compose. apply list_fmap_ext. intros i x _. apply Hgteam. }
    pose proof (tail1_NoDup ["team"] s) as Hnd.
    apply (NoDup_fmap_1 (fun k : cell => [k])).
    by rewrite <- list_fmap_compose.
  - intros r Hr Hu.
    destruct (tail1_covers ["team"] s (<["gameDate" := date r]> r)) as (o & Ho & Hk).
    { apply Hs, Hkept. eauto. }
    exists (ren (pick o)). split.
    + apply list_elem_of_fmap. eauto.
    + rewrite Hgteam. injection Hk as Hk. rewrite Hk. by rewrite get_insert_ne.
  - intros o (x & -> & Hx)%list_elem_of_fmap.
    pose proof (elem_of_tail1 _ _ _ Hx) as Hxs.
    apply Hs, Hkept in Hxs as (r & Hr & Hu & ->).
    exists r. split; [done|]. split; [done|]. split_and!.
    + rewrite Hgteam. by rewrite get_insert_ne.
    + unfold ren. erewrite get_renamed_to; [reflexivity|].
      unfold pick. apply map_lookup_filter_Some_2; [apply lookup_insert_eq|].
      unfold cs. cbn [fst]. right. left.
    + intros c Hc. rewrite Hgfeat by done. destruct (Hfc c Hc) as (? & ? & ?).
      by rewrite get_insert_ne.
    + intros r' Hr' Hu' Hsame.
      assert (row_le ["team"; "gameDate"] (<["gameDate" := date r']> r')
                (<["gameDate" := date r]> r)) as Hle.
      { apply (tail1_greatest ["team"] _ s); [apply sort_rows_sorted|done| |].
        - apply Hs, Hkept. eauto.
        - unfold key. cbn [fmap list_fmap]. rewrite !get_insert_ne by done.
          by rewrite Hsame. }
      unfold row_le, key in Hle. cbn [fmap list_fmap] in Hle.
      rewrite !get_insert_eq, !get_insert_ne in Hle by done.
      rewrite Hsame in Hle. simpl in Hle. destruct Hle as [_ Hle].
      by destruct (Hle eq_refl).
Qed.

Lemma team_latest_spec_witness :
  ∃ feat_cols latest,
    project_upcoming.team_latest example_lib example_team_feat = Ok (feat_cols, latest)
    ∧ feat_cols = ["team_5_goalsFor"]
    ∧ NoDup ((fun o => get o "team") <$> rows latest).
Proof.
  destruct (project_upcoming.team_latest example_lib example_team_feat)
    as [[feat_cols latest]| | | |] eqn:H; try (vm_compute in H; discriminate H).
  exists feat_cols, latest. split; [reflexivity|].
  destruct (team_latest_spec _ _ _ _ H) as (Hfeat & Hnd & _).
  split; [|exact Hnd]. rewrite Hfeat. vm_compute. reflexivity.
Defined.

(** ** The projector: one output row per scheduled game *)

Section Legs.
Import project_upcoming.

(** The labels that identify a game. *)
Local Abbreviation tracked k := (k = "gameId" ∨ k = "scheduleDate").

(** Two tables with the same games, row by row. *)
Local Abbreviation same_games t t' :=
  (Forall2 (fun l o : row => ∀ k, tracked k → get o k = get l k) t t').

Lemma same_games_refl t : same_games t t.
Proof. induction t; constructor; done. Qed.

Lemma same_games_trans t1 t2 t3 :
  same_games t1 t2 → same_games t2 t3 → same_games t1 t3.
Proof.
  intros H12. revert t3. induction H12 as [|a b t1 t2 Hab _ IH]; intros t3 H23.
  - by inversion H23.
  - inversion H23 as [|b' c t2' t3' Hbc H23']; subst. constructor; [|by apply IH].
    intros k Hk. by rewrite Hbc, Hab.
Qed.

Lemma same_games_fmap (h : row → row) t :
  (∀ r k, tracked k → get (h r) k = get r k) → same_games t (h <$> t).
Proof. intros Hh. induction t; constructor; auto. Qed.

Lemma same_games_labels t t' :
  same_games t t' →
  (fun r => (get r "gameId", get r "scheduleDate")) <$> t'
  = (fun r => (get r "gameId", get r "scheduleDate")) <$> t.
Proof.
  induction 1 as [|a b t t' Hab _ IH]; [done|]. rewrite !fmap_cons, IH.
  by rewrite !Hab by auto.
Qed.

(** With one right row per key, a left row is joined with at most one
    right row. *)
Lemma bind_joined_single left_on right_on right (l : list row) :
  NoDup (key right_on <$> right) →
  Forall2 (fun x o => o = x ∨ ∃ r, r ∈ right ∧ o = x ∪ r) l
    (l ≫= (fun x => match matches left_on right_on right x with
                    | [] => [x]
                    | ms => (fun r : row => x ∪ r) <$> ms
                    end)).
Proof.
  intros Hnd. induction l as [|x l IH]; [constructor|].
  rewrite bind_cons.
  pose proof (matches_unique left_on right_on right x Hnd) as Hlen.
  destruct (matches left_on right_on right x) as [|r [|r' ms]] eqn:Hm;
    simpl in Hlen; try lia.
  - simpl. constructor; [by left|exact IH].
  - simpl. constructor; [|exact IH]. right. exists r. split; [|done].
    assert (r ∈ matches left_on right_on right x) as Hr by (rewrite Hm; left).
    by apply list_elem_of_filter in Hr as [_ ?].
Qed.

Lemma get_union_l (l r : row) k : r !! k = None → get (l ∪ r) k = get l k.
Proof.
  intros Hr. unfold get. rewrite lookup_union, Hr. by destruct (l !! k).
Qed.

Lemma get_delete_ne (r : row) c k : k ≠ c → get (delete c r) k = get r k.
Proof. intros. unfold get. by rewrite lookup_delete_ne. Qed.

Lemma add_prefix_rows p cs df :
  ∃ h : row → row,
    rows (add_prefix p cs df) = h <$> rows df
    ∧ ∀ r k, (∀ c, c ∈ cs → k ≠ c ∧ k ≠ p +:+ c) → get (h r) k = get r k.
Proof.
  unfold add_prefix. revert df. induction cs as [|c cs IH]; intros df.
  - exists id. split; [by rewrite list_fmap_id|done].
  - cbn [foldl]. destruct (IH (rename_column c (p +:+ c) df)) as (h & Hh & Hget).
    destruct (rename_column_rows c (p +:+ c) df) as (h0 & Hh0 & Hget0).
    exists (h ∘ h0). split; [by rewrite Hh, Hh0, list_fmap_compose|].
    intros r k Hk. cbn. rewrite Hget.
    + apply Hget0; apply (Hk c); left.
    + intros c' Hc'. apply Hk. by right.
Qed.

Variables (feat_cols : list string) (latest : DataFrame).
Hypothesis feat_prefix : ∀ c, c ∈ feat_cols → startswith "team_" c = true.
Hypothesis latest_unique : NoDup (key ["team"] <$> rows latest).
Hypothesis latest_keys : ∀ o k, o ∈ rows latest → tracked k → o !! k = None.

Lemma attach_leg_same_games side role sched m :
  role = "home" ∨ role = "away" →
  attach_leg side role feat_cols latest sched = Ok m →
  same_games (rows sched) (rows m).
Proof.
  intros Hrole. unfold attach_leg.
  destruct (merge_left [side] ["team"] sched latest) as [j| | | |] eqn:Hj; try done.
  rewrite result_bind_Ok. intros [= <-].
  apply merge_left_rows in Hj.
  destruct (rename_column_rows "last_gameDate" (role +:+ "_last_gameDate")
              (add_prefix (role +:+ "_") feat_cols (drop_column "team" j)))
    as (h1 & -> & Hh1).
  destruct (add_prefix_rows (role +:+ "_") feat_cols (drop_column "team" j))
    as (h2 & -> & Hh2).
  cbn [drop_column rows]. rewrite Hj.
  eapply same_games_trans; [|apply same_games_fmap]. 
  eapply same_games_trans; [|apply same_games_fmap].
  eapply same_games_trans; [|apply same_games_fmap].
  - eapply Forall2_impl; [by apply (bind_joined_single [side] ["team"])|].
    intros x o [->|(r & Hr & ->)] k Hk; [done|].
    apply get_union_l. by apply latest_keys.
  - intros r k [-> | ->]; by apply get_delete_ne.
  - intros r k Hk. apply Hh2. intros c Hc. pose proof (feat_prefix c Hc) as Hpre.
    destruct Hrole as [-> | ->], Hk as [-> | ->];
      (split; [by intros <-|by intros [=]]).
  - intros r k Hk. apply Hh1.
    + by destruct Hk as [-> | ->].
    + destruct Hrole as [-> | ->], Hk as [-> | ->]; by intros [=].
Qed.

End Legs.

Lemma team_latest_keys (L : Lib) (team_feat : DataFrame)
    (feat_cols : list string) (latest : DataFrame) :
  project_upcoming.team_latest L team_feat = Ok (feat_cols, latest) →
  (∀ c, c ∈ feat_cols → startswith "team_" c = true)
  ∧ NoDup (key ["team"] <$> rows latest)
  ∧ ∀ o k, o ∈ rows latest → k = "gameId" ∨ k = "scheduleDate" → o !! k = None.
Proof.
  intros [Hfeat Hrows]%team_latest_inv.
  assert (∀ c, c ∈ feat_cols → startswith "team_" c = true) as Hpre.
  { intros c Hc. rewrite Hfeat in Hc. by apply list_elem_of_filter in Hc as [? _]. }
  split; [done|]. rewrite Hrows. split.
  - rewrite <- list_fmap_compose.
    erewrite list_fmap_ext; [apply (tail1_NoDup ["team"])|].
    intros i x _. cbn. unfold key. cbn [fmap list_fmap]. f_equal.
    rewrite get_rename_row by done. apply get_select. left.
  - intros o k (x & -> & _)%list_elem_of_fmap Hk.
    assert (filter (fun kv : string * cell => kv.1 ∈ ["team"; "gameDate"] ++ feat_cols) x
            !! k = None) as Hnone.
    { apply map_lookup_filter_None. right. intros v _. cbn [fst].
      rewrite elem_of_app. intros [Hin|Hin].
      - destruct Hk as [-> | ->]; by repeat apply elem_of_cons in Hin as [?|Hin];
          try apply elem_of_nil in Hin.
      - apply Hpre in Hin. by destruct Hk as [-> | ->]. }
    destruct (_ !! "gameDate"); [|done].
    rewrite lookup_insert_ne by (by destruct Hk as [-> | ->]).
    rewrite lookup_delete_ne by (by destruct Hk as [-> | ->]). done.
Qed.

Lemma project_row_keeps predict feat_cols (r : row) k :
  k = "gameId" ∨ k = "scheduleDate" →
  get (project_upcoming.project_row predict feat_cols r) k = get r k.
Proof.
  intros Hk. unfold project_upcoming.project_row. cbv zeta.
  rewrite !get_insert_ne by (by destruct Hk as [-> | ->]).
  apply get_select. destruct Hk as [-> | ->]; compute_done.
Qed.

Section ProjectorRun.
Import project_upcoming.

Local Abbreviation tracked k := (k = "gameId" ∨ k = "scheduleDate").

(** The rows [main] writes are the projected rows of a table that has the
    games of the schedule, row by row. *)
Lemma projector_main_rows L predict team_feat df_sched out :
  main L predict team_feat df_sched = Ok (Some out) →
  columns out = OUT_COLUMNS
  ∧ ∃ t, Forall2 (fun l o : row => ∀ k, tracked k → get o k = get l k) (rows df_sched) t
         ∧ rows out = sort_rows ["scheduleDate"; "homeTeam"; "awayTeam"] t.
Proof.
  unfold main.
  destruct (team_latest L team_feat) as [[feat_cols latest]| | | |] eqn:Hlat; try done.
  rewrite result_bind_Ok. cbv beta iota.
  case_bool_decide as Hempty; [done|].
  destruct (has_col df_sched "homeTeam"); [|done].
  destruct (has_col df_sched "awayTeam"); [|done].
  destruct (has_col df_sched "scheduleDate"); [|done]. cbn [negb].
  destruct (attach_leg "homeTeam" "home" _ _ _) as [home| | | |] eqn:Hhome; try done.
  rewrite result_bind_Ok.
  destruct (attach_leg "awayTeam" "away" _ _ _) as [full| | | |] eqn:Haway; try done.
  rewrite result_bind_Ok.
  destruct (has_col _ "gameId"); [|done]. cbn [negb].
  unfold sort_values. destruct (missing_col _ _); [done|].
  rewrite result_bind_Ok. intros [= <-]. split; [done|].
  eexists. split; [|reflexivity].
  apply team_latest_keys in Hlat as (Hpre & Hnd & Hkeys).
  apply (attach_leg_same_games _ _ Hpre Hnd Hkeys) in Hhome; [|by left].
  apply (attach_leg_same_games _ _ Hpre Hnd Hkeys) in Haway; [|by right].
  rewrite !rows_map_column in Hhome.
  repeat (rewrite zip_with_fmap_r, zip_with_diag).
  eapply same_games_trans; [|apply same_games_fmap].
  eapply same_games_trans; [|apply same_games_fmap].
  eapply same_games_trans; [|apply same_games_fmap].
  eapply same_games_trans; [|exact Haway].
  eapply same_games_trans; [|exact Hhome].
  eapply same_games_trans; [|apply same_games_fmap].
  eapply same_games_trans; [|apply same_games_fmap].
  apply same_games_fmap.
  all: try (intros r k [-> | ->]; by rewrite get_insert_ne).
  intros r k Hk. by apply project_row_keeps.
Qed.

End ProjectorRun.

(** X24 ([main] of 07, lines 146-186).  When the projector ends without an
    exception it has written nothing exactly when the schedule is empty;
    otherwise the output has the fourteen output columns and one row per
    scheduled game: as many rows as the schedule, sorted by date and teams,
    and the same game ids with the same schedule dates as the schedule. *)
Theorem projection_one_row_per_game (L : Lib) (predict : string → list cell → Qc)
    (team_feat df_sched : DataFrame) (res : option DataFrame) :
  project_upcoming.main L predict team_feat df_sched = Ok res →
  match res with
  | None => rows df_sched = []
  | Some out =>
      rows df_sched ≠ []
      ∧ columns out = project_upcoming.OUT_COLUMNS
      ∧ nrows out = nrows df_sched
      ∧ StronglySorted (row_le ["scheduleDate"; "homeTeam"; "awayTeam"]) (rows out)
      ∧ (fun r => (get r "gameId", get r "scheduleDate")) <$> rows out
        ≡ₚ (fun r => (get r "gameId", get r "scheduleDate")) <$> rows df_sched
  end.
Proof.
  intros H. destruct res as [out|].
  - pose proof H as (Hcols & t & Hsame & Hrows)%projector_main_rows.
    assert (rows df_sched ≠ []) as Hne.
    { intros Hempty. revert H. unfold project_upcoming.main.
      destruct (project_upcoming.team_latest L team_feat) as [[fc latest]| | | |];
        try done.
      rewrite result_bind_Ok. cbv beta iota. by rewrite bool_decide_true. }
    split; [done|]. split; [done|]. rewrite Hrows. split_and!.
    + unfold nrows. rewrite Hrows, length_sort_rows. symmetry.
      by eapply Forall2_length.
    + apply sort_rows_sorted.
    + rewrite <- (same_games_labels _ _ Hsame).
      apply fmap_Permutation, sort_rows_Permutation.
  - revert H. unfold project_upcoming.main.
    destruct (project_upcoming.team_latest L team_feat) as [[fc latest]| | | |];
      try done.
    rewrite result_bind_Ok. cbv beta iota.
    case_bool_decide as Hempty; [done|].
    destruct (has_col df_sched "homeTeam"); [|done].
    destruct (has_col df_sched "awayTeam"); [|done].
    destruct (has_col df_sched "scheduleDate"); [|done]. cbn [negb].
    destruct (project_upcoming.attach_leg "homeTeam" "home" _ _ _); try done.
    rewrite result_bind_Ok.
    destruct (project_upcoming.attach_leg "awayTeam" "away" _ _ _); try done.
    rewrite result_bind_Ok.
    destruct (has_col _ "gameId"); [|done]. cbn [negb].
    unfold sort_values. destruct (missing_col _ _); [done|].
    rewrite result_bind_Ok. done.
Qed.

Lemma projection_one_row_per_game_witness :
  ∃ out,
    project_upcoming.main example_lib example_predict example_team_feat example_schedule
    = Ok (Some out)
    ∧ nrows out = 1
    ∧ (fun r => get r "gameId") <$> rows out = [Num (Qc_of_Z 7)].
Proof.
  destruct (project_upcoming.main example_lib example_predict example_team_feat
              example_schedule) as [[out|]| | | |] eqn:Hmain;
    try (vm_compute in Hmain; discriminate Hmain).
  exists out. split; [reflexivity|].
  destruct (projection_one_row_per_game _ _ _ _ _ Hmain) as (_ & _ & Hn & _ & Hperm).
  split; [exact Hn|].
  apply (fmap_Permutation fst) in Hperm. rewrite <- !list_fmap_compose in Hperm.
  by apply Permutation_singleton_r in Hperm.
Defined.

(** ** The schedule of the coming days *)

Lemma dropna_Ok c df :
  has_col df c = true →
  dropna c df = Ok {| columns := columns df;
                      rows := filter (fun r => isna (get r c) = false) (rows df) |}.
Proof. intros H. unfold dropna. by rewrite H. Qed.

Section DropDuplicates.
Import project_upcoming.

Variable by_ : list string.

Lemma elem_of_drop_duplicates seen (t : list row) r :
  r ∈ drop_duplicates by_ seen t → r ∈ t ∧ key by_ r ∉ seen.
Proof.
  revert seen. induction t as [|a t IH]; intros seen; [by intros ?%elem_of_nil|].
  cbn [drop_duplicates]. case_bool_decide as Hseen.
  - intros [? ?]%IH. split; [by right|done].
  - intros [->|[? Hn]%IH]%elem_of_cons; [split; [left|done]|].
    split; [by right|]. intros ?. apply Hn. by right.
Qed.

Lemma drop_duplicates_NoDup seen (t : list row) :
  NoDup (key by_ <$> drop_duplicates by_ seen t).
Proof.
  revert seen. induction t as [|a t IH]; intros seen; [constructor|].
  cbn [drop_duplicates]. case_bool_decide as Hseen; [apply IH|].
  rewrite fmap_cons. constructor; [|apply IH].
  intros (x & Hk & [_ Hx]%elem_of_drop_duplicates)%list_elem_of_fmap.
  apply Hx. rewrite <- Hk. left.
Qed.

Lemma drop_duplicates_covers seen (t : list row) r :
  r ∈ t → key by_ r ∉ seen →
  ∃ o, o ∈ drop_duplicates by_ seen t ∧ key by_ o = key by_ r.
Proof.
  revert seen. induction t as [|a t IH]; intros seen; [by intros ?%elem_of_nil|].
  cbn [drop_duplicates]. intros Hr Hn. case_bool_decide as Hseen.
  - apply elem_of_cons in Hr as [->|Hr]; [done|]. by apply IH.
  - destruct (decide (key by_ r = key by_ a)) as [Heq|Hne].
    + exists a. split; [left|done].
    + apply elem_of_cons in Hr as [->|Hr]; [done|].
      destruct (IH (key by_ a :: seen) Hr) as (o & Ho & Hk).
      { intros [?|?]%elem_of_cons; done. }
      exists o. split; [by right|done].
Qed.

End DropDuplicates.

Section ScheduleFacts.
Import project_upcoming.

Variable L : Lib.
Variable isoformat : Z → string.
Variable schedule_api : Z → option (list api_day).
Variable score_api : Z → option api_day.
Variables date_from date_to : Z.

(** Game [g] is listed for day [d] of the window in an answer of one of the
    two endpoints. *)
Local Abbreviation listed g d :=
  (∃ day, (  (∃ d0 payload, schedule_api d0 = Some payload ∧ day ∈ payload)
           ∨ (∃ d0, score_api d0 = Some day))
          ∧ build_features.to_datetime_cell L (day_date day) = Date d
          ∧ g ∈ day_games day).

Lemma elem_of_pull_day_games day r :
  r ∈ pull_day_games L isoformat day date_from date_to ↔
  ∃ g d, build_features.to_datetime_cell L (day_date day) = Date d
         ∧ (date_from ≤ d ≤ date_to)%Z
         ∧ g ∈ day_games day ∧ is_regular_season_game g = true
         ∧ r = game_row isoformat g d.
Proof.
  unfold pull_day_games. split.
  - destruct (build_features.to_datetime_cell L (day_date day)) as [| | | |d];
      try by intros ?%elem_of_nil.
    destruct (bool_decide (d < date_from)%Z) eqn:H1;
      [by intros ?%elem_of_nil|].
    destruct (bool_decide (date_to < d)%Z) eqn:H2;
      [by intros ?%elem_of_nil|]. cbn [orb].
    apply bool_decide_eq_false in H1, H2.
    intros (g & -> & [Hreg Hg]%list_elem_of_filter)%list_elem_of_fmap.
    exists g, d. split_and!; try done; lia.
  - intros (g & d & -> & Hd & Hg & Hreg & ->).
    rewrite (bool_decide_false (d < date_from)%Z), (bool_decide_false (date_to < d)%Z)
      by lia. cbn [orb].
    apply list_elem_of_fmap. exists g. split; [done|]. by apply list_elem_of_filter.
Qed.

Lemma elem_of_pull_day d r :
  r ∈ pull_day L isoformat schedule_api score_api date_from date_to d →
  ∃ g d', listed g d' ∧ (date_from ≤ d' ≤ date_to)%Z
          ∧ is_regular_season_game g = true ∧ r = game_row isoformat g d'.
Proof.
  unfold pull_day, pull_games_from_schedule_payload, pull_games_from_score_payload.
  assert (∀ payload, schedule_api d = Some payload →
            r ∈ (payload ≫= (fun day => pull_day_games L isoformat day date_from date_to)) →
            ∃ g d', listed g d' ∧ (date_from ≤ d' ≤ date_to)%Z
                    ∧ is_regular_season_game g = true ∧ r = game_row isoformat g d')
    as Hsched.
  { intros payload Hp (day & Hr & Hday)%list_elem_of_bind.
    apply elem_of_pull_day_games in Hr as (g & d' & Hd' & ? & ? & ? & ->).
    exists g, d'. split_and!; try done; try lia. exists day. split_and!; try done.
    left. by exists d, payload. }
  assert (∀ payload, score_api d = Some payload →
            r ∈ pull_day_games L isoformat payload date_from date_to →
            ∃ g d', listed g d' ∧ (date_from ≤ d' ≤ date_to)%Z
                    ∧ is_regular_season_game g = true ∧ r = game_row isoformat g d')
    as Hscore.
  { intros payload Hp Hr.
    apply elem_of_pull_day_games in Hr as (g & d' & Hd' & ? & ? & ? & ->).
    exists g, d'. split_and!; try done; try lia. exists payload. split_and!; try done.
    right. by exists d. }
  destruct (schedule_api d) as [payload|]; destruct (score_api d) as [score|];
    case_bool_decide; rewrite ?elem_of_app; intros Hr;
    repeat match goal with
           | H : _ ∨ _ |- _ => destruct H
           | H : _ ∈ [] |- _ => by apply elem_of_nil in H
           end; eauto.
Qed.

Lemma pull_day_schedule d payload r :
  schedule_api d = Some payload →
  r ∈ pull_games_from_schedule_payload L isoformat payload date_from date_to →
  r ∈ pull_day L isoformat schedule_api score_api date_from date_to d.
Proof.
  intros Hp Hr. unfold pull_day. rewrite Hp. case_bool_decide; [|done].
  apply elem_of_app. by left.
Qed.

Lemma elem_of_date_range d :
  d ∈ date_range date_from date_to ↔ (date_from ≤ d ≤ date_to)%Z.
Proof.
  unfold date_range. rewrite list_elem_of_fmap. split.
  - intros (i & -> & Hi%elem_of_seq). lia.
  - intros Hd. exists (Z.to_nat (d - date_from)). split; [lia|].
    apply elem_of_seq. lia.
Qed.

Lemma get_game_row g d :
  get (game_row isoformat g d) "gameId" = game_id g
  ∧ get (game_row isoformat g d) "gameDateUTC" = startTimeUTC g
  ∧ get (game_row isoformat g d) "homeTeam" = home_abbrev g
  ∧ get (game_row isoformat g d) "awayTeam" = away_abbrev g
  ∧ get (game_row isoformat g d) "scheduleDate" = Str (isoformat d).
Proof. done. Qed.

(** The rows of the schedule: the pulled rows with the three fields, their
    game id read as a number, one row per game id. *)
Lemma get_schedule_rows out :
  get_schedule L isoformat schedule_api score_api date_from date_to = Ok out →
  rows out
  = drop_duplicates ["gameId"] []
      (filter (fun r => isna (get r "gameId") = false)
         ((fun r => <["gameId" := to_numeric L (get r "gameId")]> r)
            <$> filter (fun r => isna (get r "awayTeam") = false)
                  (filter (fun r => isna (get r "homeTeam") = false)
                     (filter (fun r => isna (get r "gameId") = false)
                        (date_range date_from date_to
                           ≫= pull_day L isoformat schedule_api score_api
                                 date_from date_to)))))
  ∧ Forall (fun r => build_features.is_integral (get r "gameId") = true) (rows out).
Proof.
  unfold get_schedule.
  set (games := date_range date_from date_to ≫= _).
  destruct games as [|g0 games'] eqn:Hgames.
  { intros [= <-]. split; [done|constructor]. }
  rewrite <- Hgames. clear Hgames g0 games'.
  rewrite dropna_Ok by reflexivity. rewrite result_bind_Ok. cbv beta.
  rewrite dropna_Ok by reflexivity. rewrite result_bind_Ok. cbv beta.
  rewrite dropna_Ok by reflexivity. rewrite result_bind_Ok. cbv beta.
  cbn [columns rows].
  set (kept := filter (fun r => isna (get r "awayTeam") = false) _).
  unfold build_features.ensure_int.
  assert (has_col {| columns := SCHEDULE_COLUMNS; rows := kept |} "gameId" = true) as ->
    by reflexivity.
  cbn [rows].
  destruct (forallb _ _) eqn:Hint; [|done].
  rewrite result_bind_Ok. cbv beta.
  change (set_column "gameId" ((fun r => to_numeric L (get r "gameId")) <$> kept)
            {| columns := SCHEDULE_COLUMNS; rows := kept |})
    with (map_column "gameId" (fun r => to_numeric L (get r "gameId"))
            {| columns := SCHEDULE_COLUMNS; rows := kept |}).
  rewrite dropna_Ok by (by rewrite has_col_map_column).
  rewrite result_bind_Ok. cbv beta. cbn [rows]. rewrite rows_map_column. cbn [rows].
  intros [= <-]. cbn [rows]. split; [done|].
  apply Forall_forall. intros r [Hr _]%elem_of_drop_duplicates.
  apply list_elem_of_filter in Hr as [_ (x & -> & Hx)%list_elem_of_fmap].
  rewrite get_insert_eq. rewrite forallb_forall in Hint. apply Hint.
  apply list_elem_of_In, list_elem_of_fmap. eauto.
Qed.

End ScheduleFacts.

(** X25 ([get_schedule], with [_pull_games_from_schedule_payload],
    [_pull_games_from_score_payload] and [_is_regular_season_game]).  The
    schedule lists every game once: no two rows have the same [gameId].
    Every row is a regular-season game that one of the two endpoints
    listed for a day of the window, with a whole-number [gameId], both team
    codes present and [scheduleDate] the day it was listed for.  And no such
    game of the schedule endpoint is lost: a regular-season game it lists for
    a day of the window, with a numeric id and both team codes, has a row. *)
Theorem get_schedule_spec (L : Lib) (isoformat : Z → string)
    (schedule_api : Z → option (list project_upcoming.api_day))
    (score_api : Z → option project_upcoming.api_day)
    (date_from date_to : Z) (out : DataFrame) :
  project_upcoming.get_schedule L isoformat schedule_api score_api date_from date_to
  = Ok out →
  NoDup ((fun r => get r "gameId") <$> rows out)
  ∧ (∀ r, r ∈ rows out →
       ∃ g d day,
         ((∃ d0 payload, schedule_api d0 = Some payload ∧ day ∈ payload)
          ∨ (∃ d0, score_api d0 = Some day))
         ∧ build_features.to_datetime_cell L (project_upcoming.day_date day) = Date d
         ∧ g ∈ project_upcoming.day_games day
         ∧ (date_from ≤ d ≤ date_to)%Z
         ∧ project_upcoming.is_regular_season_game g = true
         ∧ get r "gameId" = to_numeric L (project_upcoming.game_id g)
         ∧ (∃ q, get r "gameId" = Num q ∧ Qden (this q) = 1%positive)
         ∧ get r "homeTeam" = project_upcoming.home_abbrev g
         ∧ isna (get r "homeTeam") = false
         ∧ get r "awayTeam" = project_upcoming.away_abbrev g
         ∧ isna (get r "awayTeam") = false
         ∧ get r "gameDateUTC" = project_upcoming.startTimeUTC g
         ∧ get r "scheduleDate" = Str (isoformat d))
  ∧ ∀ d0 payload day d g,
      (date_from ≤ d0 ≤ date_to)%Z → schedule_api d0 = Some payload → day ∈ payload →
      build_features.to_datetime_cell L (project_upcoming.day_date day) = Date d →
      (date_from ≤ d ≤ date_to)%Z →
      g ∈ project_upcoming.day_games day →
      project_upcoming.is_regular_season_game g = true →
      isna (to_numeric L (project_upcoming.game_id g)) = false →
      isna (project_upcoming.home_abbrev g) = false →
      isna (project_upcoming.away_abbrev g) = false →
      ∃ r, r ∈ rows out ∧ get r "gameId" = to_numeric L (project_upcoming.game_id g).
Proof.
  intros [Hrows Hint]%get_schedule_rows. rewrite Hrows in *. clear Hrows.
  set (pulled := project_upcoming.date_range _ _ ≫= _) in *.
  set (kept := filter (fun r => isna (get r "awayTeam") = false) _) in *.
  set (numbered := filter (fun r => isna (get r "gameId") = false) (_ <$> kept)) in *.
  split_and!.
  - pose proof (drop_duplicates_NoDup ["gameId"] [] numbered) as Hnd.
    apply (NoDup_fmap_1 (fun k : cell => [k])). by rewrite <- list_fmap_compose.
  - intros r Hr. pose proof Hr as [Hnum _]%elem_of_drop_duplicates.
    eapply Forall_forall in Hint; [|exact Hr].
    apply list_elem_of_filter in Hnum as [Hid (x & -> & Hx)%list_elem_of_fmap].
    apply list_elem_of_filter in Hx as [Haway Hx].
    apply list_elem_of_filter in Hx as [Hhome Hx].
    apply list_elem_of_filter in Hx as [_ Hx].
    apply list_elem_of_bind in Hx as (d0 & Hx & _).
    apply elem_of_pull_day in Hx as (g & d & (day & Hsrc & Hday & Hg) & Hd & Hreg & ->).
    destruct (get_game_row isoformat g d) as (Egid & Eutc & Ehome & Eaway & Edate).
    rewrite get_insert_eq in Hid, Hint |- *. rewrite !get_insert_ne by done.
    rewrite Egid in *. rewrite Ehome, Eaway in *.
    exists g, d, day. split_and!; try done; try lia.
    destruct (to_numeric L (project_upcoming.game_id g)) as [|q| | |]; try done.
    exists q. split; [done|]. by apply bool_decide_eq_true in Hint.
  - intros d0 payload day d g Hd0 Hp Hday Hdate Hd Hg Hreg Hnum Hhome Haway.
    destruct (get_game_row isoformat g d) as (Egid & Eutc & Ehome & Eaway & Edate).
    set (x := project_upcoming.game_row isoformat g d) in *.
    assert (x ∈ pulled) as Hx.
    { apply list_elem_of_bind. exists d0. split; [|by apply elem_of_date_range].
      apply (pull_day_schedule _ _ _ _ _ _ _ payload); [done|].
      apply list_elem_of_bind. exists day. split; [|done].
      apply elem_of_pull_day_games. exists g, d. done. }
    assert (<["gameId" := to_numeric L (get x "gameId")]> x ∈ numbered) as Hin.
    { apply list_elem_of_filter. rewrite get_insert_eq, Egid. split; [done|].
      apply list_elem_of_fmap. exists x. split; [done|].
      apply list_elem_of_filter. rewrite Eaway. split; [done|].
      apply list_elem_of_filter. rewrite Ehome. split; [done|].
      apply list_elem_of_filter. rewrite Egid. split; [|done].
      by destruct (project_upcoming.game_id g). }
    destruct (drop_duplicates_covers ["gameId"] [] numbered _ Hin) as (o & Ho & Hk).
    { apply not_elem_of_nil. }
    exists o. split; [done|]. injection Hk as Hk.
    by rewrite Hk, get_insert_eq, Egid.
Qed.

Lemma get_schedule_spec_witness :
  ∃ out,
    project_upcoming.get_schedule example_lib_dates example_isoformat
      (fun _ => Some example_week) (fun _ => None) 0 0 = Ok out
    ∧ NoDup ((fun r => get r "gameId") <$> rows out)
    ∧ ∃ r, r ∈ rows out ∧ get r "gameId" = Num (Qc_of_Z 2023020001).
Proof.
  destruct (project_upcoming.get_schedule example_lib_dates example_isoformat
              (fun _ => Some example_week) (fun _ => None) 0 0)
    as [out| | | |] eqn:H; try (vm_compute in H; discriminate H).
  exists out. split; [reflexivity|].
  destruct (get_schedule_spec _ _ _ _ _ _ _ H) as (Hnd & _ & Hall).
  split; [exact Hnd|].
  apply (Hall 0%Z example_week
           (default (project_upcoming.mkDay NA []) (head example_week)) 0%Z
           (project_upcoming.mkGame (Num (Qc_of_Z 2023020001))
              (Str "1970-01-01T23:00:00Z") (Str "BOS") (Str "TOR") (Num (Qc_of_Z 2))));
    try reflexivity; try lia.
  - unfold example_week. cbn [head default]. left.
  - unfold example_week. cbn [head default project_upcoming.day_games]. left.
Defined.

(** * White space, digits and letters beyond ASCII *)

(** The no-break space U+00A0 and the next-line character U+0085 are white
    space for [str.strip], the superscript two U+00B2 is a digit for
    [str.isdigit] and [str.lower] maps the capital A with grave U+00C0 to
    U+00E0. *)
Example strip_latin1_space :
  strip (String (ascii_of_nat 160) ("LA" +:+ String (ascii_of_nat 133) "")) = "LA"
  ∧ build_features.normalize_code (String (ascii_of_nat 160) "LA") = "LAK"
  ∧ is_digit (ascii_of_nat 178) = true
  ∧ lower_ascii (ascii_of_nat 192) = ascii_of_nat 224.
Proof. by vm_compute. Qed.

(** * Rolling means, the join and the projected games *)

(** ** Rolling means and the order of the dates *)

Section ByDate.
Import build_features.

Lemma StronglySorted_weaken {A} (R R' : relation A) (l : list A) :
  (∀ x y, x ∈ l → y ∈ l → R x y → R' x y) →
  StronglySorted R l → StronglySorted R' l.
Proof.
  intros HR Hs. induction Hs as [|a l Hl IH Ha]; [constructor|].
  constructor.
  - apply IH. intros x y Hx Hy. apply HR; by right.
  - apply Forall_forall. intros x Hx. apply HR; [left|by right|].
    by eapply Forall_forall in Ha.
Qed.

(** A list has at most one sorted arrangement when no two of its elements
    are equivalent in the order. *)
Lemma sorted_perm_unique {A} (R : relation A) (l1 l2 : list A) :
  (∀ x y, x ∈ l1 → y ∈ l1 → R x y → R y x → x = y) →
  StronglySorted R l1 → StronglySorted R l2 → l1 ≡ₚ l2 → l1 = l2.
Proof.
  intros Hanti H1. revert l2.
  induction H1 as [|a l1 H1 IH Ha]; intros l2 H2 Hp.
  - by apply Permutation_nil_l in Hp.
  - destruct H2 as [|b l2 H2 Hb].
    { symmetry in Hp. by apply Permutation_nil_cons in Hp. }
    assert (a = b) as ->.
    { assert (a ∈ b :: l2) as Ha2 by (rewrite <- Hp; left).
      assert (b ∈ a :: l1) as Hb1 by (rewrite Hp; left).
      apply elem_of_cons in Ha2 as [->|Ha2]; [done|].
      apply elem_of_cons in Hb1 as [->|Hb1]; [done|].
      apply Hanti; [left|by right| |].
      - by eapply Forall_forall in Ha.
      - by eapply Forall_forall in Hb. }
    f_equal. apply IH; [|done|by apply (inj (cons b))].
    intros x y Hx Hy. apply Hanti; by right.
Qed.

Lemma NoDup_fmap_eq {A B} (f : A → B) (l : list A) x y :
  NoDup (f <$> l) → x ∈ l → y ∈ l → f x = f y → x = y.
Proof.
  intros Hnd (i & Hi)%list_elem_of_lookup_1 (j & Hj)%list_elem_of_lookup_1 Hf.
  assert (i = j) as ->; [|congruence].
  apply (NoDup_lookup (f <$> l) i j (f x) Hnd).
  - by rewrite list_lookup_fmap, Hi.
  - by rewrite list_lookup_fmap, Hj, Hf.
Qed.

Lemma filter_ext_elem {A} (P Q : A → Prop) `{!∀ x, Decision (P x)}
    `{!∀ x, Decision (Q x)} (l : list A) :
  (∀ x, x ∈ l → P x ↔ Q x) → filter P l = filter Q l.
Proof.
  induction l as [|a l IH]; intros Hl; [done|].
  rewrite !filter_cons. destruct (decide (P a)) as [HP|HP], (decide (Q a)) as [HQ|HQ].
  - f_equal. apply IH. intros x Hx. apply Hl. by right.
  - exfalso. apply HQ, (Hl a); [left|done].
  - exfalso. apply HP, (Hl a); [left|done].
  - apply IH. intros x Hx. apply Hl. by right.
Qed.

Variables (gcols : list string) (d : string).

Lemma row_le_same_group (x y : row) :
  key gcols x = key gcols y →
  row_le (gcols ++ [d]) x y ↔ cell_le (get x d) (get y d).
Proof.
  intros Hk. unfold row_le. rewrite !key_app, Hk, lex_le_app.
  unfold key. cbn [fmap list_fmap lex_le]. tauto.
Qed.

(** In a table sorted by entity and date in which no entity has two rows
    on one date, the rows of the entity above a row are its strictly prior
    games, in date order. *)
Lemma games_above_by_date (t s : list row) i r :
  s ≡ₚ t → StronglySorted (row_le (gcols ++ [d])) s →
  NoDup (key (gcols ++ [d]) <$> s) → s !! i = Some r →
  history.games_above gcols s i r = rolling_spec.prior_games gcols d t r.
Proof.
  intros Hp Hs Hnd Hi.
  set (P := fun g : row => key gcols g = key gcols r
                           ∧ rolling_spec.before (get g d) (get r d)).
  assert (∀ j x, s !! j = Some x → key gcols x = key gcols r →
            get x d = get r d → j = i) as Hsame.
  { intros j x Hj Hk Hd.
    apply (NoDup_lookup _ j i (key (gcols ++ [d]) r) Hnd).
    - rewrite list_lookup_fmap, Hj. cbn. rewrite !key_app, Hk. unfold key.
      cbn [fmap list_fmap]. by rewrite Hd.
    - by rewrite list_lookup_fmap, Hi. }
  assert (history.games_above gcols s i r = filter P s) as ->.
  { unfold history.games_above.
    rewrite <- (take_drop_middle s i r Hi) at 2.
    rewrite filter_app, filter_cons_False.
    2:{ intros [_ [_ Hne]]. done. }
    rewrite (filter_none P (drop (S i) s)), app_nil_r.
    - apply filter_ext_elem. intros x Hx. split; [|by intros [? _]].
      intros Hk. split; [done|].
      apply list_elem_of_lookup_1 in Hx as (j & Hj).
      apply lookup_take_Some in Hj as [Hj Hlt].
      split.
      + apply (row_le_same_group x r Hk).
        apply (sorted_lookup_le _ s j i x r Hs Hj Hi). lia.
      + intros Hd. specialize (Hsame j x Hj Hk Hd). lia.
    - intros x Hx [Hk [Hle Hne]].
      apply list_elem_of_lookup_1 in Hx as (j & Hj). rewrite lookup_drop in Hj.
      assert (row_le (gcols ++ [d]) r x) as Hrx.
      { apply (sorted_lookup_le _ s i (S i + j) r x Hs Hi Hj). lia. }
      apply (row_le_same_group r x (eq_sym Hk)) in Hrx.
      apply Hne. by apply cell_le_antisym. }
  unfold rolling_spec.prior_games. fold P.
  apply (sorted_perm_unique (row_le [d])).
  - intros x y [[Hkx _] Hx]%list_elem_of_filter [[Hky _] Hy]%list_elem_of_filter
      Hxy Hyx.
    apply (NoDup_fmap_eq (key (gcols ++ [d])) s); try done.
    rewrite !key_app, Hkx, Hky. f_equal. unfold key. cbn [fmap list_fmap]. f_equal.
    unfold row_le, key in Hxy, Hyx. cbn [fmap list_fmap lex_le] in Hxy, Hyx.
    apply cell_le_antisym; tauto.
  - apply (StronglySorted_weaken (row_le (gcols ++ [d]))).
    + intros x y [[Hkx _] _]%list_elem_of_filter [[Hky _] _]%list_elem_of_filter Hxy.
      apply (row_le_same_group x y) in Hxy; [|congruence].
      unfold row_le, key. cbn [fmap list_fmap lex_le]. tauto.
    + by apply StronglySorted_filter.
  - apply sort_rows_sorted.
  - rewrite sort_rows_Permutation. by apply filter_Permutation.
Qed.

End ByDate.

(** C2 (as amended).  Let there be a group column, let no entity have two
    rows with the same date, let no value column be a group column and let
    the feature labels be new.
    Then [rolling_features] returns the input sorted by entity and date, and
    for every value column [c] present and every window [w] it attaches to
    each row that belongs to an entity, under the label
    [prefix ++ w ++ "_" ++ c], the mean of [c] (as numbers, over the finite
    values present) on the [min w k] games of the same entity immediately
    before the row in date order, [k] being the number of the strictly prior
    games of the entity; the value is missing when no finite value is
    present, so on the first game of an entity. *)
Theorem rolling_mean_correct (L : Lib) (df : DataFrame) (group_cols : list string)
    (sort_col : string) (value_cols : list string) (windows : list positive)
    (prefix c : string) (w : positive) :
  group_cols ≠ [] →
  (∀ k, k ∈ group_cols ++ [sort_col] → has_col df k = true) →
  c ∈ value_cols → has_col df c = true → w ∈ windows →
  (∀ c', c' ∈ value_cols → c' ∉ group_cols) →
  (∀ c' w', c' ∈ value_cols → w' ∈ windows →
     build_features.feature_name prefix w' c' ∉ group_cols ++ value_cols) →
  NoDup (key (group_cols ++ [sort_col]) <$> rows df) →
  let s := sort_rows (group_cols ++ [sort_col]) (rows df) in
  ∃ out,
    build_features.rolling_features L df group_cols sort_col value_cols windows prefix
    = Ok out
    ∧ s ≡ₚ rows df
    ∧ StronglySorted (row_le (group_cols ++ [sort_col])) s
    ∧ length (rows out) = length s
    ∧ ∀ i r, s !! i = Some r → existsb isna (key group_cols r) = false →
        ∃ o, rows out !! i = Some o
          ∧ key group_cols o = key group_cols r
          ∧ get o (build_features.feature_name prefix w c)
            = rolling_spec.prior_mean group_cols sort_col
                (fun g => inf_to_nan (to_numeric L (get g c))) (Pos.to_nat w) (rows df) r
          ∧ (rolling_spec.prior_games group_cols sort_col (rows df) r = [] →
             get o (build_features.feature_name prefix w c) = NA).
Proof.
  intros _ Hkeys Hc Hhas Hw Hdisj Hfresh Hnd s.
  destruct (rolling_features_values L df group_cols sort_col value_cols windows prefix
              Hkeys Hdisj Hfresh c w Hc Hhas Hw) as (out & Hout & Hlen & Hrows).
  exists out. split; [done|].
  split; [apply sort_rows_Permutation|].
  split; [apply sort_rows_sorted|].
  split; [done|].
  intros i r Hr Hna. destruct (Hrows i r Hr) as (o & Ho & Hk & Hval).
  exists o. split; [done|]. split; [done|].
  rewrite Hna in Hval.
  assert (history.games_above group_cols s i r
          = rolling_spec.prior_games group_cols sort_col (rows df) r) as Hgames.
  { apply games_above_by_date; try done.
    - apply sort_rows_Permutation.
    - apply sort_rows_sorted.
    - unfold s. by rewrite sort_rows_Permutation. }
  assert (get o (build_features.feature_name prefix w c)
          = rolling_spec.prior_mean group_cols sort_col
              (fun g => inf_to_nan (to_numeric L (get g c))) (Pos.to_nat w) (rows df) r) as Hspec.
  { rewrite Hval. unfold history.mean_above, rolling_spec.prior_mean. cbv zeta.
    fold s. by rewrite Hgames. }
  split; [done|]. intros Hfirst. rewrite Hspec.
  unfold rolling_spec.prior_mean. cbv zeta. by rewrite Hfirst.
Qed.

Lemma rolling_mean_correct_witness :
  ∃ out r o,
    build_features.rolling_features example_lib example_bos ["team"] "gameDate"
      ["goalsFor"] build_features.WINDOWS "team_" = Ok out
    ∧ sort_rows ["team"; "gameDate"] (rows example_bos) !! 5 = Some r
    ∧ get r "team" = Str "BOS" ∧ get r "gameDate" = Date 6
    ∧ rows out !! 5 = Some o
    ∧ get o "team_5_goalsFor" = Num (Qc_of_Z 6).
Proof.
  destruct (rolling_mean_correct example_lib example_bos ["team"] "gameDate"
              ["goalsFor"] build_features.WINDOWS "team_" "goalsFor" 5%positive)
    as (out & Hout & _ & _ & _ & Hrows).
  - discriminate.
  - intros k Hk. repeat (apply elem_of_cons in Hk as [->|Hk]; [reflexivity|]).
    by apply elem_of_nil in Hk.
  - apply list_elem_of_here.
  - reflexivity.
  - apply list_elem_of_here.
  - intros c' Hc'. apply list_elem_of_singleton in Hc' as ->. by compute_done.
  - intros c' w' Hc' Hw'. apply list_elem_of_singleton in Hc' as ->.
    repeat (apply elem_of_cons in Hw' as [->|Hw']; [by compute_done|]).
    by apply elem_of_nil in Hw'.
  - compute_done.
  - destruct (Hrows 5 (game "BOS" 6 12) eq_refl eq_refl) as (o & Ho & _ & Hval & _).
    exists out, (game "BOS" 6 12), o.
    split; [exact Hout|]. split; [reflexivity|]. split; [reflexivity|].
    split; [reflexivity|]. split; [exact Ho|].
    etrans; [exact Hval|]. apply cell_is_Num. vm_compute. reflexivity.
Defined.

(** C2 as stated fails when an entity has two rows on one date.  With two
    games of "BOS" on day 1 neither has a strictly prior game, yet the row
    placed second gets the value of the row placed first instead of a
    missing value. *)
Lemma rolling_same_day_counterexample :
  ∃ out o,
    build_features.rolling_features example_lib example_same_day ["team"] "gameDate"
      ["goalsFor"] build_features.WINDOWS "team_" = Ok out
    ∧ rows out !! 1 = Some o
    ∧ get o "team" = Str "BOS" ∧ get o "gameDate" = Date 1
    ∧ rolling_spec.prior_games ["team"] "gameDate" (rows example_same_day) o = []
    ∧ rolling_spec.prior_mean ["team"] "gameDate"
        (fun g => inf_to_nan (to_numeric example_lib (get g "goalsFor"))) 5
        (rows example_same_day) o = NA
    ∧ get o "team_5_goalsFor" = Num (Qc_of_Z 2).
Proof.
  assert (is_ok (build_features.rolling_features example_lib example_same_day ["team"]
                   "gameDate" ["goalsFor"] build_features.WINDOWS "team_") = true)
    as Hok by (vm_compute; reflexivity).
  destruct (build_features.rolling_features example_lib example_same_day ["team"]
              "gameDate" ["goalsFor"] build_features.WINDOWS "team_")
    as [out| | | |] eqn:Hout; try discriminate Hok.
  assert (is_Some (rows out !! 1)) as [o Ho].
  { assert (match build_features.rolling_features example_lib example_same_day
                    ["team"] "gameDate" ["goalsFor"] build_features.WINDOWS "team_" with
            | Ok out => length (rows out)
            | _ => 0
            end = 2) as E by (vm_compute; reflexivity).
    rewrite Hout in E. apply lookup_lt_is_Some. lia. }
  exists out, o. split; [reflexivity|]. split; [exact Ho|].
  assert (match build_features.rolling_features example_lib example_same_day
                  ["team"] "gameDate" ["goalsFor"] build_features.WINDOWS "team_" with
          | Ok out =>
              (fun o =>
                 (get o "team", get o "gameDate",
                  rolling_spec.prior_games ["team"] "gameDate"
                    (rows example_same_day) o,
                  rolling_spec.prior_mean ["team"] "gameDate"
                    (fun g => inf_to_nan (to_numeric example_lib (get g "goalsFor"))) 5
                    (rows example_same_day) o,
                  match get o "team_5_goalsFor" with
                  | Num q => Qeq_bool q (Qc_of_Z 2)
                  | _ => false
                  end)) <$> rows out !! 1
          | _ => None
          end = Some (Str "BOS", Date 1, [], NA, true)) as E
    by (vm_compute; reflexivity).
  rewrite Hout, Ho in E. injection E as E1 E2 E3 E4 E5.
  split_and!; try done. by apply cell_is_Num.
Qed.

(** ** The projector: the games and the snapshots of their teams *)

Section Renaming.

(** The effect of [rename(columns={old: new})] on one row. *)
Local Abbreviation ren old new r :=
  (match (r : row) !! old with
   | Some v => <[new := v]> (delete old r)
   | None => r
   end).



Variable p : string.
Hypothesis p_nonempty : p ≠ "".


(** The renamings [c -> p ++ c] of [add_prefix], on one row. *)
Local Abbreviation prefixed cs x :=
  (foldl (fun (r : row) c => ren c (p +:+ c) r) x cs).


Variable cs : list string.
(** No renamed label has the prefix itself. *)
Hypothesis cs_plain : ∀ c s, c ∈ cs → c ≠ p +:+ s.




End Renaming.


Section Leg.
Import project_upcoming.

Variables (feat_cols : list string) (latest : DataFrame).
Hypothesis feat_prefix : ∀ c, c ∈ feat_cols → startswith "team_" c = true.
Hypothesis latest_unique : NoDup (key ["team"] <$> rows latest).
Hypothesis latest_labels :
  ∀ (h : row) k, h ∈ rows latest → is_Some (h !! k) →
    k = "team" ∨ k = "last_gameDate" ∨ k ∈ feat_cols.


(** A label that is neither a snapshot label nor one that a leg creates. *)
Local Abbreviation outside role k :=
  ((k ∉ feat_cols) ∧ k ≠ "team" ∧ k ≠ "last_gameDate"
   ∧ k ≠ role +:+ "_last_gameDate" ∧ ∀ c, c ∈ feat_cols → k ≠ (role +:+ "_") +:+ c).

(** The row carries no snapshot label yet. *)
Local Abbreviation bare role x :=
  ((∀ c, c ∈ feat_cols → (x : row) !! c = None)
   ∧ x !! "team" = None ∧ x !! "last_gameDate" = None
   ∧ ∀ c, c ∈ feat_cols → x !! ((role +:+ "_") +:+ c) = None).


End Leg.



Section Games.
Import project_upcoming.

Variable L : Lib.
Variable predict : string → list cell → Qc.

(** The team code [main] joins on. *)
Local Abbreviation code x := (Str (replace TEAM_MAP (strip (astype_str L x)))).

(** Row [o] of the output is the projection of game [l] of the schedule:
    it has the id, the date and the normalised team codes of the game,
    and, when both teams have a snapshot, the averages of the predictions
    made from the two snapshots. *)
Local Abbreviation projects feat_cols latest l o :=
  (get o "gameId" = get l "gameId"
   ∧ get o "scheduleDate" = get l "scheduleDate"
   ∧ get o "homeTeam" = code (get l "homeTeam")
   ∧ get o "awayTeam" = code (get l "awayTeam")
   ∧ ∀ hh ha : row,
       hh ∈ rows latest → ha ∈ rows latest →
       get hh "team" = code (get l "homeTeam") →
       get ha "team" = code (get l "awayTeam") →
       get o "home_goals"
       = Num ((predict "y_goalsFor" (key feat_cols hh)
               + predict "y_goalsAgainst" (key feat_cols ha)) / Qc_of_Z 2)%Qc
       ∧ get o "away_goals"
         = Num ((predict "y_goalsFor" (key feat_cols ha)
                 + predict "y_goalsAgainst" (key feat_cols hh)) / Qc_of_Z 2)%Qc
       ∧ get o "home_sog"
         = Num ((predict "y_shotsOnGoalFor" (key feat_cols hh)
                 + predict "y_shotsOnGoalAgainst" (key feat_cols ha)) / Qc_of_Z 2)%Qc
       ∧ get o "away_sog"
         = Num ((predict "y_shotsOnGoalFor" (key feat_cols ha)
                 + predict "y_shotsOnGoalAgainst" (key feat_cols hh)) / Qc_of_Z 2)%Qc
       ∧ get o "home_xg"
         = Num ((predict "y_xGoalsFor" (key feat_cols hh)
                 + predict "y_xGoalsAgainst" (key feat_cols ha)) / Qc_of_Z 2)%Qc
       ∧ get o "away_xg"
         = Num ((predict "y_xGoalsFor" (key feat_cols ha)
                 + predict "y_xGoalsAgainst" (key feat_cols hh)) / Qc_of_Z 2)%Qc
       ∧ get o "proj_total_goals" = fadd (get o "home_goals") (get o "away_goals")
       ∧ get o "proj_total_sog" = fadd (get o "home_sog") (get o "away_sog")).




End Games.

(** ** The projector succeeds on a schedule with games *)






Section Success.
Import project_upcoming.

Variable L : Lib.
Variable predict : string → list cell → Qc.



End Success.



(** ** The join of the model tables: what is kept *)

Section JoinRetention.
Import common build_model_tables.



Local Abbreviation ks := ["gameId"; "team"].

(** The feature row [x] has no game: no row of the game table has its key. *)
Local Abbreviation unmatched game x :=
  (∀ g : row, g ∈ rows game → key ks g ≠ key ks x).



(** The last two steps of every model table, on one row: the selection of
    the columns [cols] and the relabelling of [strip_and_dedup_columns]. *)
Local Abbreviation finished cols x :=
  (let cs : list string := cols in
   list_to_map
     ((fun p : string * string =>
         (p.1, get (filter (fun kv : string * cell => kv.1 ∈ cs) x) p.2))
        <$> first_labels [] cs) : row).









Local Abbreviation PLAYER_IDS := ["playerId"; "player_id"; "id"; "nhlPlayerId"].




End JoinRetention.

Section PlayerTableBuilt.
Import common build_model_tables.



End PlayerTableBuilt.



